(** * Visual Solving: the variable-addressing and formula-evaluation core

    A shallow embedding of the variable engine of the repository
    ([variable_system.py], [variable_system_v2.py] and
    [visual_solving_advanced_v2.py]) together with the properties of
    the specification that concern it.

    Python strings are embedded as [string]; every character stands
    for the code point of the same number (the Latin-1 range).  Python
    exceptions are explicit results, and every operation that mutates
    an object returns the state it leaves behind, also when it raises. *)

From Stdlib Require Import String Ascii List ZArith Lia Bool.
From Stdlib Require Import DecimalString DecimalPos DecimalN DecimalZ.
From Stdlib Require Import SpecFloat Relations.
Import ListNotations.

Open Scope string_scope.

Set Warnings "-register-all".

(** ** Characters and strings of the host language *)

Module PyStr.

Definition code (c : ascii) : N := N_of_ascii c.

Definition in_range (lo hi : N) (c : ascii) : bool :=
  ((lo <=? code c) && (code c <=? hi))%N.

Definition is_code (n : N) (c : ascii) : bool := (code c =? n)%N.

Definition is_ascii_letter (c : ascii) : bool :=
  in_range 65 90 c || in_range 97 122 c.

Definition is_ascii_digit (c : ascii) : bool := in_range 48 57 c.

(** [str.isalpha] on a one-character string. *)
Definition isalpha (c : ascii) : bool :=
  is_ascii_letter c || is_code 170 c || is_code 181 c || is_code 186 c
  || in_range 192 214 c || in_range 216 246 c || in_range 248 255 c.

(** [str.isdigit] on a one-character string (the superscripts two,
    three and one are digits without being decimals). *)
Definition isdigit (c : ascii) : bool :=
  is_ascii_digit c || is_code 178 c || is_code 179 c || is_code 185 c.

(** The characters [str.strip] removes. *)
Definition isspace (c : ascii) : bool :=
  in_range 9 13 c || in_range 28 32 c || is_code 133 c || is_code 160 c.

(** The regular-expression classes [[a-zA-Z_]], [[a-zA-Z0-9_]]. *)
Definition ident_start (c : ascii) : bool :=
  is_ascii_letter c || is_code 95 c.

Definition ident_char (c : ascii) : bool :=
  is_ascii_letter c || is_ascii_digit c || is_code 95 c.

Definition NL : ascii := "010"%char.

(** [c in s] for a one-character [c]. *)
Fixpoint contains (c : ascii) (s : string) : bool :=
  match s with
  | EmptyString => false
  | String d r => Ascii.eqb c d || contains c r
  end.

Fixpoint forallb (p : ascii -> bool) (s : string) : bool :=
  match s with
  | EmptyString => true
  | String d r => p d && forallb p r
  end.

(** The longest prefix made of characters of a class, and the rest:
    what a greedy [[...]*] consumes. *)
Fixpoint span (p : ascii -> bool) (s : string) : string * string :=
  match s with
  | EmptyString => (EmptyString, EmptyString)
  | String c r =>
      if p c then let '(a, b) := span p r in (String c a, b)
      else (EmptyString, s)
  end.

Fixpoint lstrip (s : string) : string :=
  match s with
  | EmptyString => EmptyString
  | String c r => if isspace c then lstrip r else s
  end.

Fixpoint rstrip (s : string) : string :=
  match s with
  | EmptyString => EmptyString
  | String c r =>
      match rstrip r with
      | EmptyString => if isspace c then EmptyString else String c EmptyString
      | r' => String c r'
      end
  end.

(** [s.strip()] *)
Definition strip (s : string) : string := rstrip (lstrip s).

(** [s.startswith(c)] for a one-character [c]. *)
Definition startswith (c : ascii) (s : string) : bool :=
  match s with
  | String d _ => Ascii.eqb c d
  | EmptyString => false
  end.

(** [s[1:]] *)
Definition tail (s : string) : string :=
  match s with
  | String _ r => r
  | EmptyString => EmptyString
  end.

(** [s.split(c)] *)
Fixpoint split (c : ascii) (s : string) : list string :=
  match s with
  | EmptyString => [EmptyString]
  | String d r =>
      if Ascii.eqb c d then EmptyString :: split c r
      else match split c r with
           | p :: ps => String d p :: ps
           | [] => [String d EmptyString]
           end
  end.

(** [s.replace('^', '**')] *)
Fixpoint replace_caret (s : string) : string :=
  match s with
  | EmptyString => EmptyString
  | String c r =>
      if Ascii.eqb c "^" then String "*" (String "*" (replace_caret r))
      else String c (replace_caret r)
  end.

(** Where [$] matches without the MULTILINE flag: at the end of the
    string and just before a newline that ends the string. *)
Definition at_dollar (s : string) : bool :=
  match s with
  | EmptyString => true
  | String c EmptyString => Ascii.eqb c NL
  | _ => false
  end.

End PyStr.

(** ** Numbers of the host language: [int(str)], [str(int)] *)

Module PyInt.

Import PyStr.
Open Scope Z_scope.

(** The white space [int()] and [float()] skip around a literal. *)
Definition num_space (c : ascii) : bool :=
  in_range 9 13 c || is_code 32 c || is_code 133 c || is_code 160 c.

Definition digit_val (c : ascii) : Z := Z.of_N (code c) - 48.

(** The rest of a digit part [digit (["_"] digit)*] once its first
    digit is read: the value, the number of digits read, the rest. *)
Fixpoint digit_run (acc cnt : Z) (s : string) {struct s} : Z * Z * string :=
  match s with
  | String c r =>
      if is_ascii_digit c then digit_run (10 * acc + digit_val c) (cnt + 1) r
      else if is_code 95 c then
        match r with
        | String d r' =>
            if is_ascii_digit d
            then digit_run (10 * acc + digit_val d) (cnt + 1) r'
            else (acc, cnt, s)
        | EmptyString => (acc, cnt, s)
        end
      else (acc, cnt, s)
  | EmptyString => (acc, cnt, s)
  end.

Definition digitpart (acc cnt : Z) (s : string) : option (Z * Z * string) :=
  match s with
  | String c r =>
      if is_ascii_digit c
      then Some (digit_run (10 * acc + digit_val c) (cnt + 1) r)
      else None
  | EmptyString => None
  end.

Definition take_sign (s : string) : bool * string :=
  match s with
  | String c r =>
      if Ascii.eqb c "+" then (false, r)
      else if Ascii.eqb c "-" then (true, r)
      else (false, s)
  | EmptyString => (false, s)
  end.

Fixpoint skip_space (s : string) : string :=
  match s with
  | String c r => if num_space c then skip_space r else s
  | EmptyString => EmptyString
  end.

Definition only_space (s : string) : bool :=
  match skip_space s with
  | EmptyString => true
  | _ => false
  end.

(** [int(s)] for a string [s]; [None] is [ValueError].  (The
    interpreter's configurable cap on the number of digits is not
    part of the model.) *)
Definition py_int (s : string) : option Z :=
  let '(neg, s1) := take_sign (skip_space s) in
  match digitpart 0 0 s1 with
  | Some (v, _, rest) =>
      if only_space rest then Some (if neg then - v else v) else None
  | None => None
  end.

(** [str(z)] for an integer [z]. *)
Definition str_of_Z (z : Z) : string :=
  NilZero.string_of_int (Z.to_int z).

End PyInt.

(** ** Numbers of the host language: binary64 floats

    A float is a [spec_float] of precision 53 and maximal exponent
    1024; conversions round to nearest, ties to even, as the
    interpreter does. *)

Module PyFloat.

Import PyStr PyInt.
Open Scope Z_scope.

Definition prec : Z := 53.
Definition emax : Z := 1024.

Definition pyfloat : Set := spec_float.

Definition of_Z (z : Z) : pyfloat := binary_normalize prec emax z 0 false.

(** [float(z)] for an integer [z]; [None] is [OverflowError]. *)
Definition float_of_int (z : Z) : option pyfloat :=
  match of_Z z with
  | S754_infinity _ => None
  | f => Some f
  end.

(** The float nearest to [p/q], for [0 <= p] and [0 < q]: the
    quotient is computed to sixty bits and more and its last bit
    records whether anything was lost. *)
Definition of_ratio (neg : bool) (p q : Z) : pyfloat :=
  if p =? 0 then S754_zero neg
  else
    let s := Z.max 0 (Z.log2 q - Z.log2 p + 60) in
    let n := Z.shiftl p s in
    let m := 2 * (n / q) + (if n mod q =? 0 then 0 else 1) in
    binary_normalize prec emax (if neg then - m else m) (- (s + 1)) false.

(** The float nearest to [m * 10^e10], for [0 <= m]; magnitudes far
    outside the range of the format are settled without computing
    the power. *)
Definition of_decimal (neg : bool) (m e10 : Z) : pyfloat :=
  if m =? 0 then S754_zero neg
  else if 400 <? e10 then S754_infinity neg
  else if e10 + (Z.log2 m + 1) / 3 + 1 <? -340 then S754_zero neg
  else if 0 <=? e10 then of_ratio neg (m * 10 ^ e10) 1
  else of_ratio neg m (10 ^ (- e10)).

Definition lower (c : ascii) : ascii :=
  if in_range 65 90 c then ascii_of_N (code c + 32) else c.

(** [s] begins with [p] up to the case of letters: the rest. *)
Fixpoint prefix_ci (p s : string) : option string :=
  match p, s with
  | EmptyString, _ => Some s
  | String a p', String b s' =>
      if Ascii.eqb a (lower b) then prefix_ci p' s' else None
  | String _ _, EmptyString => None
  end.

Definition special (neg : bool) (s : string) : option (pyfloat * string) :=
  match prefix_ci "infinity" s with
  | Some r => Some (S754_infinity neg, r)
  | None =>
      match prefix_ci "inf" s with
      | Some r => Some (S754_infinity neg, r)
      | None =>
          match prefix_ci "nan" s with
          | Some r => Some (S754_nan, r)
          | None => None
          end
      end
  end.

(** An exponent [(e|E) [sign] digitpart], if one begins here. *)
Definition exponent (s : string) : option (Z * string) :=
  match s with
  | String c r =>
      if Ascii.eqb (lower c) "e" then
        let '(neg, r1) := take_sign r in
        match digitpart 0 0 r1 with
        | Some (v, _, r2) => Some (if neg then - v else v, r2)
        | None => None
        end
      else Some (0, s)
  | EmptyString => Some (0, s)
  end.

(** [digitpart ["." [digitpart]]] or ["." digitpart]: the digits as
    an integer, the number of digits after the point, the rest. *)
Definition mantissa (s : string) : option (Z * Z * string) :=
  match digitpart 0 0 s with
  | Some (ip, _, r1) =>
      match r1 with
      | String c r2 =>
          if Ascii.eqb c "." then
            match digitpart ip 0 r2 with
            | Some (m, fc, r3) => Some (m, fc, r3)
            | None => Some (ip, 0, r2)
            end
          else Some (ip, 0, r1)
      | EmptyString => Some (ip, 0, r1)
      end
  | None =>
      match s with
      | String c r => if Ascii.eqb c "." then digitpart 0 0 r else None
      | EmptyString => None
      end
  end.

Definition decimal_literal (s : string) : option (Z * Z * string) :=
  match mantissa s with
  | Some (m, fc, r) =>
      match exponent r with
      | Some (e, r') => Some (m, e - fc, r')
      | None => None
      end
  | None => None
  end.

(** [float(s)] for a string [s]; [None] is [ValueError]. *)
Definition py_float (s : string) : option pyfloat :=
  let '(neg, s1) := take_sign (skip_space s) in
  match special neg s1 with
  | Some (f, r) => if only_space r then Some f else None
  | None =>
      match decimal_literal s1 with
      | Some (m, e10, r) =>
          if only_space r then Some (of_decimal neg m e10) else None
      | None => None
      end
  end.

(** *** [repr] of a float: the shortest decimal that reads back *)

(** A power of two and a power of ten as fractions. *)
Definition pow_frac (b e : Z) : Z * Z :=
  if 0 <=? e then (b ^ e, 1) else (1, b ^ (- e)).

Definition ceil_div (a b : Z) : Z := - ((- a) / b).

(** For the float [m * 2^e] and the unit [10^t]: the multiples of
    the unit that read back as the float form the range
    [cmin .. cmax]; the answer is the one nearest to the float. *)
Definition candidate (m e t : Z) : option Z :=
  let x := 4 * m in
  let lo := if (m =? 2 ^ 52) && (-1074 <? e) then x - 1 else x - 2 in
  let hi := x + 2 in
  let '(sn, sd) := pow_frac 2 (e - 2) in
  let '(un, ud) := pow_frac 10 t in
  let p := sn * ud in
  let q := sd * un in
  let closed := Z.even m in
  let cmin :=
    if closed then ceil_div (lo * p) q else (lo * p) / q + 1 in
  let cmax :=
    if closed then (hi * p) / q else ceil_div (hi * p) q - 1 in
  if cmax <? cmin then None
  else
    let f := (x * p) / q in
    let r := (x * p) mod q in
    let near :=
      match 2 * r ?= q with
      | Lt => f
      | Gt => f + 1
      | Eq => if Z.even f then f else f + 1
      end in
    Some (Z.max cmin (Z.min cmax near)).

(** The largest unit that has such a multiple gives the fewest
    digits; it is searched downwards from one above the float. *)
Fixpoint shortest (fuel : nat) (m e t : Z) : Z * Z :=
  match fuel with
  | O => (m, 0)
  | S fuel' =>
      match candidate m e t with
      | Some c => (c, t)
      | None => shortest fuel' m e (t - 1)
      end
  end.

Definition shortest_decimal (m e : Z) : Z * Z :=
  shortest 40 m e ((e + 54) * 30103 / 100000 + 2).

Fixpoint zeros (n : nat) : string :=
  match n with
  | O => EmptyString
  | S n' => String "0" (zeros n')
  end.

Definition two_digits (z : Z) : string :=
  if z <? 10 then String "0" (str_of_Z z) else str_of_Z z.

(** The digits [ds] with the decimal point [decpt] places after
    their beginning, laid out as [repr] does. *)
Definition layout (ds : string) (decpt : Z) : string :=
  let n := Z.of_nat (String.length ds) in
  if (-4 <? decpt) && (decpt <=? 16) then
    if decpt <=? 0 then "0." ++ zeros (Z.to_nat (- decpt)) ++ ds
    else if n <=? decpt then ds ++ zeros (Z.to_nat (decpt - n)) ++ ".0"
    else substring 0 (Z.to_nat decpt) ds ++ "."
         ++ substring (Z.to_nat decpt) (Z.to_nat (n - decpt)) ds
  else
    let ex := decpt - 1 in
    substring 0 1 ds
    ++ (if 1 <? n then "." ++ substring 1 (Z.to_nat (n - 1)) ds
        else EmptyString)
    ++ "e" ++ (if ex <? 0 then "-" else "+") ++ two_digits (Z.abs ex).

(** [repr(f)], which is also [str(f)]. *)
Definition repr_float (f : pyfloat) : string :=
  match f with
  | S754_nan => "nan"
  | S754_infinity neg => if neg then "-inf" else "inf"
  | S754_zero neg => if neg then "-0.0" else "0.0"
  | S754_finite neg m e =>
      let '(c, t) := shortest_decimal (Z.pos m) e in
      let ds := str_of_Z c in
      (if neg then "-" else EmptyString)
      ++ layout ds (Z.of_nat (String.length ds) + t)
  end.

End PyFloat.

(** ** Results, values and dictionaries *)

(** What a call into the host language does: it returns, it raises an
    exception ([msg] is [str(e)]), or it leaves the fragment of the
    language this development models. *)
Inductive outcome (A : Type) : Type :=
| Returns (a : A)
| Raises (msg : string)
| Unmodelled.

(** What a method that mutates its object does: it returns or raises,
    leaving the object in state [s], or leaves the modelled fragment. *)
Inductive run (S : Type) : Type :=
| Done (s : S)
| Failed (s : S) (msg : string)
| Unknown.

Arguments Done {S} s.
Arguments Failed {S} s msg.
Arguments Unknown {S}.

Arguments Returns {A} a.
Arguments Raises {A} msg.
Arguments Unmodelled {A}.

(** The functions of the two function tables. *)
Inductive builtin : Set :=
| Bsqrt | Bsin | Bcos | Btan | Babs | Bmax | Bmin | Bpow
| Bexp | Blog | Blog10 | Bceil | Bfloor | Bround.

(** The values variables hold: [None], numbers and strings. *)
Inductive pyval : Set :=
| VNone
| VInt (z : Z)
| VFloat (f : PyFloat.pyfloat)
| VStr (s : string).

(** The objects an expression deals with: values, the functions of
    the tables, and the empty dictionary bound to [__builtins__]. *)
Inductive pyobj : Set :=
| Value (v : pyval)
| Func (b : builtin)
| Builtins.

(** [str(v)] *)
Definition py_str (v : pyval) : string :=
  match v with
  | VNone => "None"
  | VInt z => PyInt.str_of_Z z
  | VFloat f => PyFloat.repr_float f
  | VStr s => s
  end.

(** A Python [dict] with string keys: the entries in insertion order;
    assigning to a key that is present keeps its place. *)
Module Dict.

Section Ops.
Context {V : Type}.

Definition t : Type := list (string * V).

Fixpoint get (d : t) (k : string) : option V :=
  match d with
  | [] => None
  | (k', v) :: d' => if String.eqb k k' then Some v else get d' k
  end.

Definition mem (d : t) (k : string) : bool :=
  match get d k with
  | Some _ => true
  | None => false
  end.

Fixpoint set (d : t) (k : string) (v : V) : t :=
  match d with
  | [] => [(k, v)]
  | (k', v') :: d' =>
      if String.eqb k k' then (k', v) :: d' else (k', v') :: set d' k v
  end.

Definition keys (d : t) : list string := map fst d.
Definition values (d : t) : list V := map snd d.

End Ops.

Arguments t V : clear implicits.

End Dict.

(** A Python [set] of strings, as a list without repetition. *)
Module StrSet.

Definition t : Set := list string.

Fixpoint mem (x : string) (s : t) : bool :=
  match s with
  | [] => false
  | y :: s' => String.eqb x y || mem x s'
  end.

Definition add (x : string) (s : t) : t :=
  if mem x s then s else (s ++ [x])%list.

Fixpoint remove (x : string) (s : t) : t :=
  match s with
  | [] => []
  | y :: s' => if String.eqb x y then s' else y :: remove x s'
  end.

Definition of_list (l : list string) : t :=
  fold_left (fun s x => add x s) l [].

End StrSet.

(** ** The regular expressions of the parser *)

Module Regex.

Import PyStr.

(** [[a-zA-Z_][a-zA-Z0-9_]*] at the beginning of [s]: the match and
    the rest.  The repetition is greedy, and in every pattern below
    a shorter match is followed by a character of the class, where
    the pattern wants another one: no backtracking is lost. *)
Definition ident (s : string) : option (string * string) :=
  match s with
  | String c r =>
      if ident_start c
      then let '(a, b) := span ident_char r in Some (String c a, b)
      else None
  | EmptyString => None
  end.

Definition lit (c : ascii) (s : string) : option string :=
  match s with
  | String d r => if Ascii.eqb c d then Some r else None
  | EmptyString => None
  end.

(** [(.+)$]: the dot matches everything but a newline. *)
Definition dot_plus_end (s : string) : option string :=
  let '(run, rest) := span (fun c => negb (Ascii.eqb c NL)) s in
  match run with
  | EmptyString => None
  | _ => if at_dollar rest then Some run else None
  end.

(** [re.match(ASSIGNMENT_PATTERN, s).groups()] *)
Definition match_assignment (s : string) : option (string * string * string) :=
  match ident s with
  | Some (variable, s1) =>
      match lit "@" s1 with
      | Some s2 =>
          match ident s2 with
          | Some (solution, s3) =>
              match lit "=" s3 with
              | Some s4 =>
                  match dot_plus_end s4 with
                  | Some value_expr => Some (variable, solution, value_expr)
                  | None => None
                  end
              | None => None
              end
          | None => None
          end
      | None => None
      end
  | None => None
  end.

(** [re.match(READ_PATTERN, s).groups()] *)
Definition match_read (s : string) : option (string * string * string) :=
  match ident s with
  | Some (target, s1) =>
      match lit "=" s1 with
      | Some s2 =>
          match ident s2 with
          | Some (source_var, s3) =>
              match lit "." s3 with
              | Some s4 =>
                  match ident s4 with
                  | Some (source_solution, s5) =>
                      if at_dollar s5
                      then Some (target, source_var, source_solution)
                      else None
                  | None => None
                  end
              | None => None
              end
          | None => None
          end
      | None => None
      end
  | None => None
  end.

(** [re.match(ALIAS_PATTERN, s).groups()] *)
Definition match_alias (s : string) : option (string * string) :=
  match ident s with
  | Some (alias, s1) =>
      match lit "=" s1 with
      | Some s2 =>
          match dot_plus_end s2 with
          | Some value_expr => Some (alias, value_expr)
          | None => None
          end
      | None => None
      end
  | None => None
  end.

(** [VARIABLE_REF_PATTERN] tried at the beginning of [s]. *)
Definition ref_at (s : string) : option (string * string) :=
  match ident s with
  | Some (variable, s1) =>
      match lit "." s1 with
      | Some s2 =>
          match ident s2 with
          | Some (solution, _) => Some (variable, solution)
          | None => None
          end
      | None => None
      end
  | None => None
  end.

(** [re.findall(VARIABLE_REF_PATTERN, s)]: the matches from left to
    right, none overlapping an earlier one.  [skip] counts the
    characters of the last match still to be passed over. *)
Fixpoint findall_refs (skip : nat) (s : string) : list (string * string) :=
  match s with
  | EmptyString => []
  | String _ r =>
      match skip with
      | S k => findall_refs k r
      | O =>
          match ref_at s with
          | Some (variable, solution) =>
              (variable, solution)
                :: findall_refs (String.length variable + String.length solution) r
          | None => findall_refs 0 r
          end
      end
  end.

(** [re.sub(VARIABLE_REF_PATTERN, repl, s)] for a function [repl]
    of the two groups, which may raise. *)
Fixpoint sub_refs (repl : string -> string -> outcome string)
         (skip : nat) (s : string) : outcome string :=
  match s with
  | EmptyString => Returns EmptyString
  | String c r =>
      match skip with
      | S k => sub_refs repl k r
      | O =>
          match ref_at s with
          | Some (variable, solution) =>
              match repl variable solution with
              | Returns by_text =>
                  match sub_refs repl
                          (String.length variable + String.length solution) r with
                  | Returns out => Returns (by_text ++ out)
                  | Raises msg => Raises msg
                  | Unmodelled => Unmodelled
                  end
              | Raises msg => Raises msg
              | Unmodelled => Unmodelled
              end
          | None =>
              match sub_refs repl 0 r with
              | Returns out => Returns (String c out)
              | Raises msg => Raises msg
              | Unmodelled => Unmodelled
              end
          end
      end
  end.

End Regex.

(** ** [eval] on arithmetic expressions

    The host evaluator is modelled on the expressions formulas are
    made of: decimal literals, names, calls, unary and binary [+] and
    [-], [*], [/], [**] and parentheses.  Whatever else the source
    string holds is [Unmodelled]. *)

Module PyEval.

Import PyStr PyInt PyFloat.
Open Scope Z_scope.

Inductive token : Set :=
| TNum (v : pyval)
| TName (s : string)
| TPlus | TMinus | TStar | TSlash | TPow | TLParen | TRParen | TComma.

(** Names the grammar reserves: they are not looked up. *)
Definition keywords : list string :=
  ["False"; "None"; "True"; "and"; "as"; "assert"; "async"; "await";
   "break"; "class"; "continue"; "def"; "del"; "elif"; "else"; "except";
   "finally"; "for"; "from"; "global"; "if"; "import"; "in"; "is";
   "lambda"; "nonlocal"; "not"; "or"; "pass"; "raise"; "return"; "try";
   "while"; "with"; "yield"; "__debug__"].

(** A decimal literal: an integer unless it has a point or an
    exponent; an integer other than zero has no leading zero. *)
Definition number (s : string) : option (pyval * string) :=
  let float_here :=
    match decimal_literal s with
    | Some (m, e10, r) => Some (VFloat (of_decimal false m e10), r)
    | None => None
    end in
  match digitpart 0 0 s with
  | Some (ip, _, r1) =>
      let fractional :=
        match r1 with
        | String c _ => Ascii.eqb c "." || Ascii.eqb (lower c) "e"
        | EmptyString => false
        end in
      if fractional then float_here
      else if startswith "0" s && negb (ip =? 0) then None
      else Some (VInt ip, r1)
  | None => float_here
  end.

Definition lex (s : string) : option (token * string) :=
  match s with
  | EmptyString => None
  | String c r =>
      if is_ascii_digit c || Ascii.eqb c "." then
        match number s with
        | Some (v, rest) => Some (TNum v, rest)
        | None => None
        end
      else if ident_start c then
        match Regex.ident s with
        | Some (name, rest) =>
            if StrSet.mem name keywords then None else Some (TName name, rest)
        | None => None
        end
      else if Ascii.eqb c "*" then
        match r with
        | String d r' => if Ascii.eqb d "*" then Some (TPow, r') else Some (TStar, r)
        | EmptyString => Some (TStar, r)
        end
      else if Ascii.eqb c "/" then
        match r with
        | String d _ => if Ascii.eqb d "/" then None else Some (TSlash, r)
        | EmptyString => Some (TSlash, r)
        end
      else if Ascii.eqb c "+" then Some (TPlus, r)
      else if Ascii.eqb c "-" then Some (TMinus, r)
      else if Ascii.eqb c "(" then Some (TLParen, r)
      else if Ascii.eqb c ")" then Some (TRParen, r)
      else if Ascii.eqb c "," then Some (TComma, r)
      else None
  end.

(** The tokens of [s]; spaces and tabs separate them.  [skip] counts
    the characters of the last token still to be passed over. *)
Fixpoint tokenize (skip : nat) (s : string) : option (list token) :=
  match s with
  | EmptyString => Some []
  | String c r =>
      match skip with
      | S k => tokenize k r
      | O =>
          if is_code 32 c || is_code 9 c then tokenize 0 r
          else
            match lex s with
            | Some (tok, rest) =>
                match tokenize (String.length r - String.length rest) r with
                | Some toks => Some (tok :: toks)
                | None => None
                end
            | None => None
            end
      end
  end.

Inductive binop : Set := Add | Sub | Mul | Div | Pow.

Inductive expr : Set :=
| ENum (v : pyval)
| EName (s : string)
| EUnary (negative : bool) (e : expr)
| EBin (op : binop) (a b : expr)
| ECall (f : expr) (args : list expr).

(** The grammar, by recursive descent; the depth of the descent is
    bounded by [n], which [parse] sets from the number of tokens.
<<
    sum     ::= term (("+" | "-") term)*
    term    ::= factor (("*" | "/") factor)*
    factor  ::= ("+" | "-") factor | power
    power   ::= primary ["**" factor]
    primary ::= atom ("(" [sum ("," sum)* [","]] ")")*
    atom    ::= NUMBER | NAME | "(" sum ")"
>> *)
Fixpoint p_sum (n : nat) (ts : list token) : option (expr * list token) :=
  match n with
  | O => None
  | S n' =>
      match p_term n' ts with
      | Some (e, r) => p_sum_rest n' e r
      | None => None
      end
  end
with p_sum_rest (n : nat) (acc : expr) (ts : list token)
     : option (expr * list token) :=
  match n with
  | O => None
  | S n' =>
      match ts with
      | TPlus :: r =>
          match p_term n' r with
          | Some (e, r') => p_sum_rest n' (EBin Add acc e) r'
          | None => None
          end
      | TMinus :: r =>
          match p_term n' r with
          | Some (e, r') => p_sum_rest n' (EBin Sub acc e) r'
          | None => None
          end
      | _ => Some (acc, ts)
      end
  end
with p_term (n : nat) (ts : list token) : option (expr * list token) :=
  match n with
  | O => None
  | S n' =>
      match p_factor n' ts with
      | Some (e, r) => p_term_rest n' e r
      | None => None
      end
  end
with p_term_rest (n : nat) (acc : expr) (ts : list token)
     : option (expr * list token) :=
  match n with
  | O => None
  | S n' =>
      match ts with
      | TStar :: r =>
          match p_factor n' r with
          | Some (e, r') => p_term_rest n' (EBin Mul acc e) r'
          | None => None
          end
      | TSlash :: r =>
          match p_factor n' r with
          | Some (e, r') => p_term_rest n' (EBin Div acc e) r'
          | None => None
          end
      | _ => Some (acc, ts)
      end
  end
with p_factor (n : nat) (ts : list token) : option (expr * list token) :=
  match n with
  | O => None
  | S n' =>
      match ts with
      | TPlus :: r =>
          match p_factor n' r with
          | Some (e, r') => Some (EUnary false e, r')
          | None => None
          end
      | TMinus :: r =>
          match p_factor n' r with
          | Some (e, r') => Some (EUnary true e, r')
          | None => None
          end
      | _ => p_power n' ts
      end
  end
with p_power (n : nat) (ts : list token) : option (expr * list token) :=
  match n with
  | O => None
  | S n' =>
      match p_primary n' ts with
      | Some (b, TPow :: r) =>
          match p_factor n' r with
          | Some (e, r') => Some (EBin Pow b e, r')
          | None => None
          end
      | other => other
      end
  end
with p_primary (n : nat) (ts : list token) : option (expr * list token) :=
  match n with
  | O => None
  | S n' =>
      match p_atom n' ts with
      | Some (a, r) => p_trailers n' a r
      | None => None
      end
  end
with p_trailers (n : nat) (acc : expr) (ts : list token)
     : option (expr * list token) :=
  match n with
  | O => None
  | S n' =>
      match ts with
      | TLParen :: r =>
          match p_args n' r with
          | Some (args, r') => p_trailers n' (ECall acc args) r'
          | None => None
          end
      | _ => Some (acc, ts)
      end
  end
with p_atom (n : nat) (ts : list token) : option (expr * list token) :=
  match n with
  | O => None
  | S n' =>
      match ts with
      | TNum v :: r => Some (ENum v, r)
      | TName s :: r => Some (EName s, r)
      | TLParen :: r =>
          match p_sum n' r with
          | Some (e, TRParen :: r') => Some (e, r')
          | _ => None
          end
      | _ => None
      end
  end
with p_args (n : nat) (ts : list token) : option (list expr * list token) :=
  match n with
  | O => None
  | S n' =>
      match ts with
      | TRParen :: r => Some ([], r)
      | _ =>
          match p_sum n' ts with
          | Some (e, TComma :: r) =>
              match p_args n' r with
              | Some (es, r') => Some (e :: es, r')
              | None => None
              end
          | Some (e, TRParen :: r) => Some ([e], r)
          | _ => None
          end
      end
  end.

Definition parse (s : string) : option expr :=
  match tokenize 0 s with
  | Some ts =>
      match p_sum (10 * (List.length ts + 1)) ts with
      | Some (e, []) => Some e
      | _ => None
      end
  | None => None
  end.

(** *** Arithmetic *)

(** [float(v)] for a number [v]. *)
Definition to_float (v : pyval) : outcome pyfloat :=
  match v with
  | VInt z =>
      match float_of_int z with
      | Some f => Returns f
      | None => Raises "int too large to convert to float"
      end
  | VFloat f => Returns f
  | _ => Unmodelled
  end.

(** [float(o)] on the result of [eval]. *)
Definition float_of_result (o : pyobj) : outcome pyfloat :=
  match o with
  | Value v => to_float v
  | _ => Unmodelled
  end.

Definition float_op (op : pyfloat -> pyfloat -> pyfloat) (a b : pyval)
  : outcome pyval :=
  match to_float a with
  | Returns x =>
      match to_float b with
      | Returns y => Returns (VFloat (op x y))
      | Raises msg => Raises msg
      | Unmodelled => Unmodelled
      end
  | Raises msg => Raises msg
  | Unmodelled => Unmodelled
  end.

Definition is_zero (f : pyfloat) : bool :=
  match f with
  | S754_zero _ => true
  | _ => false
  end.

(** [a / b] *)
Definition true_div (a b : pyval) : outcome pyval :=
  match a, b with
  | VInt x, VInt y =>
      if y =? 0 then Raises "division by zero"
      else
        match of_ratio (xorb (x <? 0) (y <? 0)) (Z.abs x) (Z.abs y) with
        | S754_infinity _ => Raises "integer division result too large for a float"
        | f => Returns (VFloat f)
        end
  | _, _ =>
      match to_float a with
      | Returns x =>
          match to_float b with
          | Returns y =>
              if is_zero y then Raises "float division by zero"
              else Returns (VFloat (SFdiv prec emax x y))
          | Raises msg => Raises msg
          | Unmodelled => Unmodelled
          end
      | Raises msg => Raises msg
      | Unmodelled => Unmodelled
      end
  end.

(** [a ** b] and [pow(a, b)]: integers to a power that is not
    negative; the other cases go through the C library. *)
Definition power (a b : pyval) : outcome pyval :=
  match a, b with
  | VInt x, VInt y => if 0 <=? y then Returns (VInt (x ^ y)) else Unmodelled
  | _, _ => Unmodelled
  end.

Definition binary (op : binop) (a b : pyval) : outcome pyval :=
  match op with
  | Add =>
      match a, b with
      | VInt x, VInt y => Returns (VInt (x + y))
      | _, _ => float_op (SFadd prec emax) a b
      end
  | Sub =>
      match a, b with
      | VInt x, VInt y => Returns (VInt (x - y))
      | _, _ => float_op (SFsub prec emax) a b
      end
  | Mul =>
      match a, b with
      | VInt x, VInt y => Returns (VInt (x * y))
      | _, _ => float_op (SFmul prec emax) a b
      end
  | Div => true_div a b
  | Pow => power a b
  end.

Definition unary (negative : bool) (a : pyval) : outcome pyval :=
  match a with
  | VInt x => Returns (VInt (if negative then - x else x))
  | VFloat f => Returns (VFloat (if negative then SFopp f else f))
  | _ => Unmodelled
  end.

(** A float against an integer, exactly. *)
Definition float_cmp_Z (f : pyfloat) (z : Z) : option comparison :=
  match f with
  | S754_nan => None
  | S754_infinity neg => Some (if neg then Lt else Gt)
  | S754_zero _ => Some (0 ?= z)
  | S754_finite neg m e =>
      let v := if neg then Z.neg m else Z.pos m in
      if 0 <=? e then Some (v * 2 ^ e ?= z) else Some (v ?= z * 2 ^ (- e))
  end.

Definition num_cmp (a b : pyval) : outcome (option comparison) :=
  match a, b with
  | VInt x, VInt y => Returns (Some (x ?= y))
  | VFloat f, VInt y => Returns (float_cmp_Z f y)
  | VInt x, VFloat g => Returns (option_map CompOpp (float_cmp_Z g x))
  | VFloat f, VFloat g => Returns (SFcompare f g)
  | _, _ => Unmodelled
  end.

(** [max(v, *vs)] and [min(v, *vs)]: an item replaces the best one
    so far when it compares strictly beyond it. *)
Fixpoint extremum (want : comparison) (best : pyval) (vs : list pyval)
  : outcome pyval :=
  match vs with
  | [] => Returns best
  | v :: vs' =>
      match num_cmp v best with
      | Returns (Some c) =>
          if match c, want with Lt, Lt | Gt, Gt => true | _, _ => false end
          then extremum want v vs'
          else extremum want best vs'
      | Returns None => extremum want best vs'
      | Raises msg => Raises msg
      | Unmodelled => Unmodelled
      end
  end.

(** The integers below, above and nearest to [v / 2^k]. *)
Definition to_integral (mode : builtin) (f : pyfloat) : outcome pyval :=
  match f with
  | S754_nan => Raises "cannot convert float NaN to integer"
  | S754_infinity _ => Raises "cannot convert float infinity to integer"
  | S754_zero _ => Returns (VInt 0)
  | S754_finite neg m e =>
      let v := if neg then Z.neg m else Z.pos m in
      if 0 <=? e then Returns (VInt (v * 2 ^ e))
      else
        let d := 2 ^ (- e) in
        let q := v / d in
        let r := v mod d in
        match mode with
        | Bfloor => Returns (VInt q)
        | Bceil => Returns (VInt (if r =? 0 then q else q + 1))
        | _ =>
            match 2 * r ?= d with
            | Lt => Returns (VInt q)
            | Gt => Returns (VInt (q + 1))
            | Eq => Returns (VInt (if Z.even q then q else q + 1))
            end
        end
  end.

(** A call of one of the functions of the tables. *)
Definition apply (b : builtin) (vs : list pyval) : outcome pyval :=
  match b, vs with
  | Bsqrt, [v] =>
      match to_float v with
      | Returns f =>
          match f with
          | S754_nan => Returns (VFloat S754_nan)
          | S754_infinity true | S754_finite true _ _ =>
              Raises "math domain error"
          | _ => Returns (VFloat (SFsqrt prec emax f))
          end
      | Raises msg => Raises msg
      | Unmodelled => Unmodelled
      end
  | Babs, [VInt x] => Returns (VInt (Z.abs x))
  | Babs, [VFloat f] => Returns (VFloat (SFabs f))
  | Bmax, v :: (_ :: _) as vs' => extremum Gt v vs'
  | Bmin, v :: (_ :: _) as vs' => extremum Lt v vs'
  | Bpow, [x; y] => power x y
  | (Bceil | Bfloor | Bround), [VInt x] => Returns (VInt x)
  | (Bceil | Bfloor | Bround), [VFloat f] => to_integral b f
  | _, _ => Unmodelled
  end.

(** *** Evaluation: the callee, then the arguments from the left *)

Definition name_error (s : string) : string :=
  "name '" ++ s ++ "' is not defined".

(** The result of an operation as an object. *)
Definition as_object (r : outcome pyval) : outcome pyobj :=
  match r with
  | Returns v => Returns (Value v)
  | Raises msg => Raises msg
  | Unmodelled => Unmodelled
  end.

(** The arguments of a call, when all are values. *)
Fixpoint values_of (os : list pyobj) : option (list pyval) :=
  match os with
  | [] => Some []
  | Value v :: os' =>
      match values_of os' with
      | Some vs => Some (v :: vs)
      | None => None
      end
  | _ :: _ => None
  end.

Fixpoint eval_expr (globals : Dict.t pyobj) (e : expr) : outcome pyobj :=
  match e with
  | ENum v => Returns (Value v)
  | EName s =>
      match Dict.get globals s with
      | Some o => Returns o
      | None => Raises (name_error s)
      end
  | EUnary negative a =>
      match eval_expr globals a with
      | Returns (Value v) => as_object (unary negative v)
      | Returns _ => Unmodelled
      | other => other
      end
  | EBin op a b =>
      match eval_expr globals a with
      | Returns x =>
          match eval_expr globals b with
          | Returns y =>
              match x, y with
              | Value v, Value w => as_object (binary op v w)
              | _, _ => Unmodelled
              end
          | other => other
          end
      | other => other
      end
  | ECall f args =>
      match eval_expr globals f with
      | Returns callee =>
          let fix eval_args (es : list expr) : outcome (list pyobj) :=
            match es with
            | [] => Returns []
            | a :: es' =>
                match eval_expr globals a with
                | Returns o =>
                    match eval_args es' with
                    | Returns os => Returns (o :: os)
                    | Raises msg => Raises msg
                    | Unmodelled => Unmodelled
                    end
                | Raises msg => Raises msg
                | Unmodelled => Unmodelled
                end
            end in
          match eval_args args with
          | Returns os =>
              match callee, values_of os with
              | Func b, Some vs => as_object (apply b vs)
              | _, _ => Unmodelled
              end
          | Raises msg => Raises msg
          | Unmodelled => Unmodelled
          end
      | other => other
      end
  end.

(** [eval(source, globals)] *)
Definition py_eval (source : string) (globals : Dict.t pyobj) : outcome pyobj :=
  match parse source with
  | Some e => eval_expr globals e
  | None => Unmodelled
  end.

End PyEval.

(** ** [variable_system.py] *)

Module V1.

Import PyStr.

(** [re.match(r'^[a-zA-Z0-9_]+$', name)] as a truth value: the class
    is matched greedily; giving characters back cannot help, the
    character after a shorter run being one of the class. *)
Definition match_word_plus (name : string) : bool :=
  let '(run, rest) := span ident_char name in
  match run with
  | EmptyString => false
  | _ => at_dollar rest
  end.

(** [ExpressionParser.validate_name] *)
Definition validate_name (name : string) : bool :=
  match name with
  | EmptyString => false
  | String c0 _ =>
      if negb (isalpha c0 || isdigit c0) then false
      else if contains "@" name || contains "." name then false
      else if negb (match_word_plus name) then false
      else true
  end.

(** [ExpressionParser.math_functions] *)
Definition math_functions : Dict.t pyobj :=
  [("sqrt", Func Bsqrt); ("sin", Func Bsin); ("cos", Func Bcos);
   ("tan", Func Btan); ("abs", Func Babs); ("max", Func Bmax);
   ("min", Func Bmin); ("pow", Func Bpow); ("exp", Func Bexp);
   ("log", Func Blog); ("log10", Func Blog10); ("ceil", Func Bceil);
   ("floor", Func Bfloor); ("round", Func Bround)].

(** [FormulaEvaluator.evaluate_expression], its last steps: the
    dictionary [eval_context], and the evaluation of the expression
    once its references are replaced. *)
Definition eval_context : Dict.t pyobj :=
  ("__builtins__", Builtins) :: math_functions.

Definition evaluate_substituted (evaluated_expression : string)
  : outcome PyFloat.pyfloat :=
  let evaluated_expression := replace_caret evaluated_expression in
  match PyEval.py_eval evaluated_expression eval_context with
  | Returns result => PyEval.float_of_result result
  | Raises msg => Raises msg
  | Unmodelled => Unmodelled
  end.

Inductive VariableType : Set := CONTROLLABLE | CALCULATED | ALIAS.

Module V1Variable.

Record t : Set := mk {
  name : string;
  value : pyval;
  variable_type : VariableType;
  dependencies : StrSet.t;
  dependents : StrSet.t
}.

End V1Variable.

(** [Solution]; its handle on the registry and its evaluator, which
    [set_alias] does not touch, are left out. *)
Module Solution.

Record t : Type := mk {
  name : string;
  variables : Dict.t V1Variable.t;
  aliases : Dict.t string
}.

(** [set_alias]: the solution after the call and the boolean
    returned. *)
Definition set_alias (self : t) (alias var_name : string) : t * bool :=
  if negb (validate_name alias) then (self, false)
  else if negb (Dict.mem (variables self) var_name) then (self, false)
  else (mk (name self) (variables self)
           (Dict.set (aliases self) alias var_name), true).

(** [float(variable.value)] for a value that is no formula. *)
Definition float_of_value (value : pyval) : outcome (option PyFloat.pyfloat) :=
  match value with
  | VInt z =>
      match PyFloat.float_of_int z with
      | Some f => Returns (Some f)
      | None => Raises "int too large to convert to float"
      end
  | VFloat f => Returns (Some f)
  | VNone =>
      Raises "float() argument must be a string or a real number, not 'NoneType'"
  | VStr _ => Unmodelled
  end.

(** [get_variable_value]: [Returns None] is the answer [None].  A
    variable that holds a formula is handed to the evaluator, which
    is not part of this model: the call is [Unmodelled]. *)
Definition get_variable_value (self : t) (identifier : string)
  : outcome (option PyFloat.pyfloat) :=
  let identifier :=
    match Dict.get (aliases self) identifier with
    | Some var_name => var_name
    | None => identifier
    end in
  match Dict.get (variables self) identifier with
  | None => Returns None
  | Some variable => float_of_value (V1Variable.value variable)
  end.

End Solution.

(** [DependencyTracker].  A set is iterated in the order of its
    list; [visited.copy()] gives every branch of the search a set of
    its own, so the set is passed by value.  [fuel] bounds the depth
    of the recursion. *)
Module DependencyTracker.

Record t : Type := mk {
  dependency_graph : Dict.t StrSet.t
}.

Definition init : t := mk [].

Definition add_dependency (self : t) (dependent dependency : string) : t :=
  let graph :=
    if negb (Dict.mem (dependency_graph self) dependent)
    then Dict.set (dependency_graph self) dependent []
    else dependency_graph self in
  let dependencies :=
    match Dict.get graph dependent with
    | Some ds => ds
    | None => []
    end in
  mk (Dict.set graph dependent (StrSet.add dependency dependencies)).

Fixpoint search (fuel : nat) (graph : Dict.t StrSet.t)
         (start target : string) (visited : StrSet.t) : option bool :=
  match fuel with
  | O => None
  | S fuel' =>
      if StrSet.mem start visited then Some (String.eqb start target)
      else
        let visited := StrSet.add start visited in
        match Dict.get graph start with
        | Some dependencies =>
            (fix each (deps : list string) : option bool :=
               match deps with
               | [] => Some false
               | dependency :: deps' =>
                   match search fuel' graph dependency target visited with
                   | Some true => Some true
                   | Some false => each deps'
                   | None => None
                   end
               end) dependencies
        | None => Some false
        end
  end.

(** Every call that goes on marks a key of the graph not yet
    visited. *)
Definition enough_fuel (graph : Dict.t StrSet.t) : nat :=
  2 + List.length graph.

(** [has_circular_dependency(start, target)], [visited] left to its
    default. *)
Definition has_circular_dependency (self : t) (start target : string)
  : option bool :=
  search (enough_fuel (dependency_graph self)) (dependency_graph self)
         start target [].

End DependencyTracker.

End V1.

(** ** [variable_system_v2.py] *)

Module V2.

Import PyStr.

(** *** [ExpressionParser] *)

Inductive ExpressionType : Set := ASSIGNMENT | FORMULA | READ | ALIAS.

(** [str(t)] for a member of the enumeration. *)
Definition type_str (t : ExpressionType) : string :=
  match t with
  | ASSIGNMENT => "ExpressionType.ASSIGNMENT"
  | FORMULA => "ExpressionType.FORMULA"
  | READ => "ExpressionType.READ"
  | ALIAS => "ExpressionType.ALIAS"
  end.

(** The dictionary [parse_expression] returns, by its ['type']. *)
Inductive parsed : Set :=
| Assignment (variable solution : string) (value : pyval)
| Formula (variable solution formula : string) (dependencies : StrSet.t)
| Read (target_variable source_variable source_solution : string)
| Alias (alias : string) (value : pyval).

Definition parsed_type (p : parsed) : ExpressionType :=
  match p with
  | Assignment _ _ _ => ASSIGNMENT
  | Formula _ _ _ _ => FORMULA
  | Read _ _ _ => READ
  | Alias _ _ => ALIAS
  end.

Definition extract_variable_references (formula : string) : StrSet.t :=
  fold_left
    (fun references m => StrSet.add (fst m ++ "." ++ snd m) references)
    (Regex.findall_refs 0 formula) [].

Definition _contains_variable_references (expression : string) : bool :=
  match Regex.findall_refs 0 expression with
  | [] => false
  | _ :: _ => true
  end.

Definition _parse_value (value_str : string) : pyval :=
  let value_str := strip value_str in
  match PyInt.py_int value_str with
  | Some z => VInt z
  | None =>
      match PyFloat.py_float value_str with
      | Some f => VFloat f
      | None => VStr value_str
      end
  end.

Definition _is_valid_alias (alias : string) : bool :=
  negb (contains "@" alias) && negb (contains "." alias).

Definition invalid_alias (alias : string) : string :=
  "Invalid alias '" ++ alias ++ "': cannot contain @ or . symbols".

Definition parse_expression (expression : string) : outcome parsed :=
  let expression := strip expression in
  match Regex.match_assignment expression with
  | Some (variable, solution, value_expr) =>
      if _contains_variable_references value_expr
      then Returns (Formula variable solution value_expr
                      (extract_variable_references value_expr))
      else Returns (Assignment variable solution (_parse_value value_expr))
  | None =>
      match Regex.match_read expression with
      | Some (target_var, source_var, source_solution) =>
          Returns (Read target_var source_var source_solution)
      | None =>
          match Regex.match_alias expression with
          | Some (alias, value_expr) =>
              if negb (_is_valid_alias alias)
              then Raises (invalid_alias alias)
              else Returns (Alias alias (_parse_value value_expr))
          | None => Raises ("Invalid expression: " ++ expression)
          end
      end
  end.

(** *** [V2Variable]: the object and what reads it

    A variable object lives in one place from its creation on: in
    the [variables] of a [V2Solution], or in a hybrid variable.
    [home] records which, and is what [is] can tell apart. *)

Inductive home : Set := InSolution | InHybrid.

Module V2Variable.

Record t : Set := mk {
  name : string;
  solution_name : string;
  _value : pyval;
  is_formula : bool;
  formula : option string;
  dependencies : StrSet.t;
  last_computed_value : option PyFloat.pyfloat;
  computation_error : option string;
  lives : home
}.

(** [V2Variable(name, value, solution_name)] *)
Definition init (name : string) (value : pyval) (solution_name : string)
           (lives : home) : t :=
  mk name solution_name value false None [] None None lives.

Definition full_id (self : t) : string :=
  name self ++ "@" ++ solution_name self.

Definition read_id (self : t) : string :=
  name self ++ "." ++ solution_name self.

(** [self.last_computed_value if self.last_computed_value is not
    None else 0.0] *)
Definition cached (self : t) : PyFloat.pyfloat :=
  match last_computed_value self with
  | Some v => v
  | None => S754_zero false
  end.

(** [self.get_computed_value()], no registry given. *)
Definition get_cached_value (self : t) : pyval :=
  if negb (is_formula self) then _value self
  else VFloat (cached self).

(** The property [value]. *)
Definition value (self : t) : pyval :=
  if is_formula self then get_cached_value self else _value self.

(** The setter of [value]. *)
Definition set_value (self : t) (new_value : pyval) : t :=
  mk (name self) (solution_name self) new_value false None []
     (last_computed_value self) None (lives self).

(** [a is b] *)
Definition same_object (a b : t) : bool :=
  match lives a, lives b with
  | InSolution, InSolution | InHybrid, InHybrid =>
      String.eqb (name a) (name b)
      && String.eqb (solution_name a) (solution_name b)
  | _, _ => false
  end.

End V2Variable.

(** *** [V2Solution]: the object, variables and aliases *)

Module V2Solution.

Record t : Type := mk {
  name : string;
  variables : Dict.t V2Variable.t;
  aliases : Dict.t string
}.

(** [V2Solution(name)] *)
Definition init (name : string) : t := mk name [] [].

Definition create_variable (self : t) (vname : string) (value : pyval)
  : t * V2Variable.t :=
  let variable := V2Variable.init vname value (name self) InSolution in
  (mk (name self) (Dict.set (variables self) vname variable) (aliases self),
   variable).

Definition get_variable (self : t) (name_or_alias : string)
  : option V2Variable.t :=
  if Dict.mem (variables self) name_or_alias
  then Dict.get (variables self) name_or_alias
  else
    match Dict.get (aliases self) name_or_alias with
    | Some real_name => Dict.get (variables self) real_name
    | None => None
    end.

(** The solution, then the error if one is raised. *)
Definition set_alias (self : t) (alias variable_name : string)
  : t * option string :=
  if negb (_is_valid_alias alias)
  then (self, Some (invalid_alias alias))
  else if negb (Dict.mem (variables self) variable_name)
  then (self, Some ("Variable '" ++ variable_name ++ "' not found"))
  else (mk (name self) (variables self)
           (Dict.set (aliases self) alias variable_name), None).

(** The variable stored under [key] replaced by [v]: what an
    assignment to an attribute of that object does. *)
Definition store (self : t) (key : string) (v : V2Variable.t) : t :=
  mk (name self) (Dict.set (variables self) key v) (aliases self).

Definition get_all_variables (self : t) : list V2Variable.t :=
  Dict.values (variables self).

End V2Solution.

Definition registry : Type := Dict.t V2Solution.t.

(** *** [V2FormulaEvaluator] *)

Module V2FormulaEvaluator.

Definition FUNCTIONS : Dict.t pyobj :=
  [("sin", Func Bsin); ("cos", Func Bcos); ("tan", Func Btan);
   ("sqrt", Func Bsqrt); ("abs", Func Babs); ("min", Func Bmin);
   ("max", Func Bmax); ("round", Func Bround)].

Definition safe_dict : Dict.t pyobj :=
  ("__builtins__", Builtins) :: FUNCTIONS.

Definition solution_not_found (solution_name : string) : string :=
  "Solution '" ++ solution_name ++ "' not found".

Definition variable_not_found (variable_name solution_name : string) : string :=
  "Variable '" ++ variable_name ++ "' not found in solution '"
  ++ solution_name ++ "'".

Definition not_numeric (full_ref : string) (value : pyval) : string :=
  "Variable '" ++ full_ref ++ "' is not numeric: " ++ py_str value.

(** The local function [replace_reference] on the groups of a
    match. *)
Definition replace_reference (solution_registry : registry)
           (variable_name solution_name : string) : outcome string :=
  let full_ref := variable_name ++ "." ++ solution_name in
  match Dict.get solution_registry solution_name with
  | None => Raises (solution_not_found solution_name)
  | Some solution =>
      match V2Solution.get_variable solution variable_name with
      | None => Raises (variable_not_found variable_name solution_name)
      | Some variable =>
          let value :=
            if V2Variable.is_formula variable
            then V2Variable.get_cached_value variable
            else V2Variable.value variable in
          match value with
          | VInt _ | VFloat _ => Returns (py_str value)
          | _ => Raises (not_numeric full_ref value)
          end
      end
  end.

Definition _resolve_variable_references (formula : string)
           (solution_registry : registry) : outcome string :=
  Regex.sub_refs (replace_reference solution_registry) 0 formula.

Definition error_evaluating (formula msg : string) : string :=
  "Error evaluating formula '" ++ formula ++ "': " ++ msg.

Definition evaluate_formula (formula : string) (solution_registry : registry)
  : outcome PyFloat.pyfloat :=
  match _resolve_variable_references formula solution_registry with
  | Returns resolved_formula =>
      let resolved_formula := replace_caret resolved_formula in
      match PyEval.py_eval resolved_formula safe_dict with
      | Returns result =>
          match PyEval.float_of_result result with
          | Returns f => Returns f
          | Raises msg => Raises (error_evaluating formula msg)
          | Unmodelled => Unmodelled
          end
      | Raises msg => Raises (error_evaluating formula msg)
      | Unmodelled => Unmodelled
      end
  | Raises msg => Raises (error_evaluating formula msg)
  | Unmodelled => Unmodelled
  end.

End V2FormulaEvaluator.

(** *** [V2Variable]: formulas

    The registry a method receives is a live dictionary: it may
    hold the very solution, and so the very variable, the method is
    mutating.  Such a method takes the registry as a function of the
    current state of its object. *)

Definition set_formula (self : V2Variable.t) (formula : string)
           (registry_with : V2Variable.t -> registry) : outcome V2Variable.t :=
  let self :=
    V2Variable.mk (V2Variable.name self) (V2Variable.solution_name self)
      (V2Variable._value self) true (Some formula)
      (extract_variable_references formula)
      (V2Variable.last_computed_value self)
      (V2Variable.computation_error self) (V2Variable.lives self) in
  match V2FormulaEvaluator.evaluate_formula formula (registry_with self) with
  | Returns computed =>
      Returns
        (V2Variable.mk (V2Variable.name self) (V2Variable.solution_name self)
           (V2Variable._value self) true (Some formula)
           (V2Variable.dependencies self) (Some computed) None
           (V2Variable.lives self))
  | Raises msg =>
      Returns
        (V2Variable.mk (V2Variable.name self) (V2Variable.solution_name self)
           (V2Variable._value self) true (Some formula)
           (V2Variable.dependencies self) (Some (S754_zero false)) (Some msg)
           (V2Variable.lives self))
  | Unmodelled => Unmodelled
  end.

(** [self.get_computed_value(solution_registry)]: the variable after
    the call and the value returned. *)
Definition get_computed_value (self : V2Variable.t)
           (solution_registry : option registry)
  : outcome (V2Variable.t * pyval) :=
  if negb (V2Variable.is_formula self)
  then Returns (self, V2Variable._value self)
  else
    match solution_registry with
    | None => Returns (self, VFloat (V2Variable.cached self))
    | Some reg =>
        match V2Variable.formula self with
        | None => Unmodelled
        | Some formula =>
            match V2FormulaEvaluator.evaluate_formula formula reg with
            | Returns computed =>
                Returns
                  (V2Variable.mk (V2Variable.name self)
                     (V2Variable.solution_name self) (V2Variable._value self)
                     (V2Variable.is_formula self) (V2Variable.formula self)
                     (V2Variable.dependencies self) (Some computed) None
                     (V2Variable.lives self),
                   VFloat computed)
            | Raises msg =>
                Returns
                  (V2Variable.mk (V2Variable.name self)
                     (V2Variable.solution_name self) (V2Variable._value self)
                     (V2Variable.is_formula self) (V2Variable.formula self)
                     (V2Variable.dependencies self)
                     (V2Variable.last_computed_value self) (Some msg)
                     (V2Variable.lives self),
                   VFloat (V2Variable.cached self))
            | Unmodelled => Unmodelled
            end
        end
    end.

(** *** [V2Solution.execute_expression] *)

Definition different_solution (solution : string) : string :=
  "Cannot assign to variable in different solution: " ++ solution.

Definition cannot_execute (t : ExpressionType) : string :=
  "Cannot execute expression type: " ++ type_str t.

(** [if var_name not in self.variables: self.create_variable(var_name)] *)
Definition ensure_variable (self : V2Solution.t) (var_name : string)
  : V2Solution.t :=
  if negb (Dict.mem (V2Solution.variables self) var_name)
  then fst (V2Solution.create_variable self var_name VNone)
  else self.

(** The key under which [get_variable] finds its result. *)
Definition variable_key (self : V2Solution.t) (name_or_alias : string)
  : option string :=
  if Dict.mem (V2Solution.variables self) name_or_alias
  then Some name_or_alias
  else
    match Dict.get (V2Solution.aliases self) name_or_alias with
    | Some real_name =>
        if Dict.mem (V2Solution.variables self) real_name
        then Some real_name else None
    | None => None
    end.

Definition execute_expression (self : V2Solution.t) (expression : string)
           (registry_with : V2Solution.t -> registry) : run V2Solution.t :=
  match parse_expression expression with
  | Raises msg => Failed self msg
  | Unmodelled => Unknown
  | Returns (Assignment var_name solution value) =>
      if negb (String.eqb solution (V2Solution.name self))
      then Failed self (different_solution solution)
      else
        let self := ensure_variable self var_name in
        match Dict.get (V2Solution.variables self) var_name with
        | Some v =>
            Done (V2Solution.store self var_name (V2Variable.set_value v value))
        | None => Unknown
        end
  | Returns (Formula var_name solution formula _) =>
      if negb (String.eqb solution (V2Solution.name self))
      then Failed self (different_solution solution)
      else
        let self := ensure_variable self var_name in
        match Dict.get (V2Solution.variables self) var_name with
        | Some v =>
            match set_formula v formula
                    (fun v' => registry_with (V2Solution.store self var_name v')) with
            | Returns v' => Done (V2Solution.store self var_name v')
            | Raises msg => Failed self msg
            | Unmodelled => Unknown
            end
        | None => Unknown
        end
  | Returns (Alias alias value) =>
      if negb (Dict.mem (V2Solution.variables self) alias)
         && negb (Dict.mem (V2Solution.aliases self) alias)
      then
        let '(self, var) :=
          V2Solution.create_variable self ("_alias_" ++ alias) VNone in
        let var := V2Variable.set_value var value in
        let self := V2Solution.store self (V2Variable.name var) var in
        match V2Solution.set_alias self alias (V2Variable.name var) with
        | (self, None) => Done self
        | (self, Some msg) => Failed self msg
        end
      else
        match variable_key self alias with
        | Some key =>
            match Dict.get (V2Solution.variables self) key with
            | Some var =>
                Done (V2Solution.store self key (V2Variable.set_value var value))
            | None => Done self
            end
        | None => Done self
        end
  | Returns (Read _ _ _) => Failed self (cannot_execute READ)
  end.

(** [registry[me].execute_expression(expression, registry)] *)
Definition execute_registered (reg : registry) (me : string)
           (expression : string) : run registry :=
  match Dict.get reg me with
  | Some self =>
      match execute_expression self expression (fun s => Dict.set reg me s) with
      | Done s => Done (Dict.set reg me s)
      | Failed s msg => Failed (Dict.set reg me s) msg
      | Unknown => Unknown
      end
  | None => Unknown
  end.

(** [registry[me].get_variable(name).get_computed_value(registry)]:
    the registry after the call and the value returned. *)
Definition recompute (reg : registry) (me name_or_alias : string)
  : outcome (registry * pyval) :=
  match Dict.get reg me with
  | Some self =>
      match variable_key self name_or_alias with
      | Some key =>
          match Dict.get (V2Solution.variables self) key with
          | Some var =>
              match get_computed_value var (Some reg) with
              | Returns (var', v) =>
                  Returns (Dict.set reg me (V2Solution.store self key var'), v)
              | Raises msg => Raises msg
              | Unmodelled => Unmodelled
              end
          | None => Unmodelled
          end
      | None => Unmodelled
      end
  | None => Unmodelled
  end.

End V2.

(** ** [visual_solving_advanced_v2.py]

    The import of the V2 system succeeds ([V2_AVAILABLE] is true); the
    metadata of a solution (its uuid, attributes, parents, children
    and space), which no operation below reads, is left out. *)

Module Hybrid.

Import PyStr V2.

Inductive VariableType : Set := CONTROLLABLE | CALCULATED | AUXILIARY | REFERENCE.

Module HybridVariable.

Record t : Set := mk {
  name : string;
  solution_name : string;
  variable_id : Z;
  var_type : VariableType;
  aliases : list string;
  v2_variable : V2Variable.t
}.

(** [HybridVariable(name, value, var_type, solution_name,
    variable_id, aliases)]: it makes a V2 variable of its own. *)
Definition init (name : string) (value : pyval) (var_type : VariableType)
           (solution_name : string) (variable_id : Z) (aliases : list string)
  : t :=
  mk name solution_name variable_id var_type aliases
     (V2Variable.init name value solution_name InHybrid).

Definition value (self : t) : pyval := V2Variable.value (v2_variable self).

Definition set_value (self : t) (new_value : pyval) : t :=
  mk (name self) (solution_name self) (variable_id self) (var_type self)
     (aliases self) (V2Variable.set_value (v2_variable self) new_value).

Definition legacy_id (self : t) : string :=
  "#" ++ PyInt.str_of_Z (variable_id self).

Definition legacy_full_id (self : t) : string :=
  "#" ++ PyInt.str_of_Z (variable_id self) ++ "." ++ name self.

Definition new_write_id (self : t) : string :=
  name self ++ "@" ++ solution_name self.

Definition new_read_id (self : t) : string :=
  name self ++ "." ++ solution_name self.

(** The V2 variable of a hybrid variable is in no solution of the
    registry: the registry does not change with it. *)
Definition set_formula (self : t) (formula : string)
           (solution_registry : registry) : outcome t :=
  match V2.set_formula (v2_variable self) formula (fun _ => solution_registry) with
  | Returns v =>
      Returns (mk (name self) (solution_name self) (variable_id self)
                  (var_type self) (aliases self) v)
  | Raises msg => Raises msg
  | Unmodelled => Unmodelled
  end.

Definition get_computed_value (self : t) (solution_registry : option registry)
  : outcome (t * pyval) :=
  match V2.get_computed_value (v2_variable self) solution_registry with
  | Returns (v, result) =>
      Returns (mk (name self) (solution_name self) (variable_id self)
                  (var_type self) (aliases self) v, result)
  | Raises msg => Raises msg
  | Unmodelled => Unmodelled
  end.

End HybridVariable.

Module V2DependencyTracker.

Record t : Type := mk {
  dependency_graph : Dict.t StrSet.t;
  reverse_dependencies : Dict.t StrSet.t
}.

Definition init : t := mk [] [].

Definition add_dependency (self : t) (variable_id : string)
           (dependencies : StrSet.t) : t :=
  mk (Dict.set (dependency_graph self) variable_id dependencies)
     (fold_left
        (fun reverse dep =>
           let dependents :=
             match Dict.get reverse dep with
             | Some ds => ds
             | None => []
             end in
           Dict.set reverse dep (StrSet.add variable_id dependents))
        dependencies (reverse_dependencies self)).

Definition get_dependencies (self : t) (variable_id : string) : StrSet.t :=
  match Dict.get (dependency_graph self) variable_id with
  | Some ds => ds
  | None => []
  end.

Definition get_dependent_variables (self : t) (variable_id : string)
  : StrSet.t :=
  match Dict.get (reverse_dependencies self) variable_id with
  | Some ds => ds
  | None => []
  end.

(** The local function [check_circular]: the answer and the set
    [visited] it leaves.  [path] is restored by every call that
    answers [False]; a call that answers [True] ends the search.
    [fuel] bounds the depth of the recursion. *)
Fixpoint check_circular (fuel : nat) (graph : Dict.t StrSet.t)
         (var_id : string) (path visited : StrSet.t)
  : option (bool * StrSet.t) :=
  match fuel with
  | O => None
  | S fuel' =>
      if StrSet.mem var_id path then Some (true, visited)
      else if StrSet.mem var_id visited then Some (false, visited)
      else
        let visited := StrSet.add var_id visited in
        let path := StrSet.add var_id path in
        let var_deps :=
          match Dict.get graph var_id with
          | Some ds => ds
          | None => []
          end in
        (fix each (deps : list string) (visited : StrSet.t)
           : option (bool * StrSet.t) :=
           match deps with
           | [] => Some (false, visited)
           | dep :: deps' =>
               match check_circular fuel' graph dep path visited with
               | Some (true, visited') => Some (true, visited')
               | Some (false, visited') => each deps' visited'
               | None => None
               end
           end) var_deps visited
  end.

(** Every call but the first marks a variable not yet visited,
    and a variable is a key or a member of a stored set. *)
Definition enough_fuel (graph : Dict.t StrSet.t) : nat :=
  2 + fold_left (fun n kv => n + 1 + List.length (snd kv)) graph 0.

(** [has_circular_dependency(variable_id, dependencies)]: the
    search runs on the stored graph from [variable_id]; the
    argument [dependencies] is not used. *)
Definition has_circular_dependency (self : t) (variable_id : string)
           (dependencies : StrSet.t) : option bool :=
  match check_circular (enough_fuel (dependency_graph self))
          (dependency_graph self) variable_id [] [] with
  | Some (answer, _) => Some answer
  | None => None
  end.

End V2DependencyTracker.

Module HybridSolution.

Record t : Type := mk {
  name : string;
  variables : Dict.t HybridVariable.t;
  next_variable_id : Z
}.

Definition get_all_variables (self : t) : list HybridVariable.t :=
  Dict.values (variables self).

End HybridSolution.

(** The three global objects: the two tables of the solution manager
    and the dependency tracker.  The V2 solution of the hybrid
    solution [solutions[n]] is [v2_solutions[n]], the one object the
    manager registers under that name. *)
Record world : Type := mkWorld {
  solutions : Dict.t HybridSolution.t;
  v2_solutions : registry;
  tracker : V2DependencyTracker.t
}.

Definition empty_world : world := mkWorld [] [] V2DependencyTracker.init.

(** [HybridSolution(name)] *)
Definition new_solution (w : world) (name : string) : world :=
  mkWorld (Dict.set (solutions w) name (HybridSolution.mk name [] 1))
          (Dict.set (v2_solutions w) name (V2Solution.init name))
          (tracker w).

(** The aliases of a new variable, set one by one; a refusal is
    reported and passed over. *)
Definition set_aliases (v2 : V2Solution.t) (vname : string)
           (aliases : list string) : V2Solution.t :=
  fold_left (fun v2 alias => fst (V2Solution.set_alias v2 alias vname))
            aliases v2.

(** [solutions[me].create_variable(name, value, var_type, aliases)] *)
Definition create_variable (w : world) (me vname : string) (value : pyval)
           (var_type : VariableType) (aliases : list string)
  : option (world * HybridVariable.t) :=
  match Dict.get (solutions w) me, Dict.get (v2_solutions w) me with
  | Some self, Some v2 =>
      let v2 := fst (V2Solution.create_variable v2 vname value) in
      let hybrid_var :=
        HybridVariable.init vname value var_type (HybridSolution.name self)
          (HybridSolution.next_variable_id self) aliases in
      let self :=
        HybridSolution.mk (HybridSolution.name self)
          (Dict.set (HybridSolution.variables self) vname hybrid_var)
          (HybridSolution.next_variable_id self + 1) in
      let v2 := set_aliases v2 vname aliases in
      Some (mkWorld (Dict.set (solutions w) me self)
                    (Dict.set (v2_solutions w) me v2) (tracker w),
            hybrid_var)
  | _, _ => None
  end.

Definition by_id (self : HybridSolution.t) (var_id : Z)
  : option HybridVariable.t :=
  find (fun var => Z.eqb (HybridVariable.variable_id var) var_id)
       (HybridSolution.get_all_variables self).

(** [get_variable_by_reference], from its second test on: the
    reference is stripped and is no name of a variable. *)
Definition by_other_reference (self : HybridSolution.t)
           (v2_solution : V2Solution.t) (reference : string)
  : option HybridVariable.t :=
  let legacy_number :=
    if startswith "#" reference then
      match PyInt.py_int (tail reference) with
      | Some var_id => by_id self var_id
      | None => None
      end
    else None in
  match legacy_number with
  | Some var => Some var
  | None =>
      let legacy_full :=
        if contains "." reference && startswith "#" reference then
          match PyInt.py_int (tail (hd EmptyString (split "." reference))) with
          | Some var_id => by_id self var_id
          | None => None
          end
        else None in
      match legacy_full with
      | Some var => Some var
      | None =>
          let v2_alias :=
            match V2Solution.get_variable v2_solution reference with
            | Some v2_var =>
                find (fun var =>
                        V2Variable.same_object
                          (HybridVariable.v2_variable var) v2_var)
                     (HybridSolution.get_all_variables self)
            | None => None
            end in
          match v2_alias with
          | Some var => Some var
          | None =>
              find (fun var => StrSet.mem reference (HybridVariable.aliases var))
                   (HybridSolution.get_all_variables self)
          end
      end
  end.

Definition get_variable_by_reference (self : HybridSolution.t)
           (v2_solution : V2Solution.t) (reference : string)
  : option HybridVariable.t :=
  let reference := strip reference in
  if Dict.mem (HybridSolution.variables self) reference
  then Dict.get (HybridSolution.variables self) reference
  else by_other_reference self v2_solution reference.

(** [solutions[me].execute_v2_expression(expression)] *)
Definition execute_v2_expression (w : world) (me expression : string)
  : run world :=
  match Dict.get (solutions w) me with
  | None => Unknown
  | Some self =>
      match execute_registered (v2_solutions w) me expression with
      | Unknown => Unknown
      | Failed reg msg => Failed (mkWorld (solutions w) reg (tracker w)) msg
      | Done reg =>
          let w' := mkWorld (solutions w) reg (tracker w) in
          match parse_expression expression, Dict.get reg me with
          | Returns (Formula var_name _ _ dependencies), Some v2_solution =>
              match get_variable_by_reference self v2_solution var_name with
              | Some var =>
                  Done (mkWorld (solutions w) reg
                          (V2DependencyTracker.add_dependency (tracker w)
                             (HybridVariable.new_read_id var) dependencies))
              | None => Done w'
              end
          | _, _ => Done w'
          end
      end
  end.

(** [v2_solution_manager.reset()]: the tracker is another object and
    keeps what it holds. *)
Definition reset (w : world) : world := mkWorld [] [] (tracker w).

(** [solutions[me].variables[key].value = new_value] *)
Definition assign_value (w : world) (me key : string) (new_value : pyval)
  : run world :=
  match Dict.get (solutions w) me with
  | Some self =>
      match Dict.get (HybridSolution.variables self) key with
      | Some var =>
          Done (mkWorld
                  (Dict.set (solutions w) me
                     (HybridSolution.mk (HybridSolution.name self)
                        (Dict.set (HybridSolution.variables self) key
                           (HybridVariable.set_value var new_value))
                        (HybridSolution.next_variable_id self)))
                  (v2_solutions w) (tracker w))
      | None => Unknown
      end
  | None => Unknown
  end.

(** One call after another: the first that does not return ends
    the run. *)
Definition and_then (r : run world) (next : world -> run world) : run world :=
  match r with
  | Done w => next w
  | other => other
  end.

(** A call of [create_variable] whose result is not used. *)
Definition created (r : option (world * HybridVariable.t)) : run world :=
  match r with
  | Some (w, _) => Done w
  | None => Unknown
  end.

(** [HybridBoxSolution]: the solution registered under [me]. *)
Module HybridBoxSolution.

(** [_set_dimension_value(var, value, dimension_name)], where [var]
    is the variable [create_variable] returned for the name
    [dimension_name]. *)
Definition _set_dimension_value (w : world) (me : string) (value : pyval)
           (dimension_name : string) : run world :=
  match value with
  | VInt z =>
      match PyFloat.float_of_int z with
      | Some f => assign_value w me dimension_name (VFloat f)
      | None => Failed w "int too large to convert to float"
      end
  | VFloat f => assign_value w me dimension_name (VFloat f)
  | VStr text =>
      match Dict.get (solutions w) me with
      | Some self =>
          execute_v2_expression w me
            (dimension_name ++ "@" ++ HybridSolution.name self ++ "=" ++ text)
      | None => Unknown
      end
  | VNone => Done w
  end.

Definition volume_statement (name : string) : string :=
  "volume@" ++ name ++ "=length." ++ name ++ " * width." ++ name
  ++ " * height." ++ name.

Definition _setup_variables (w : world) (me : string)
           (length width height : pyval) : run world :=
  and_then (created (create_variable w me "length" (VInt 0) CONTROLLABLE
                       ["L"; "len"])) (fun w =>
  and_then (created (create_variable w me "width" (VInt 0) CONTROLLABLE
                       ["W"; "wid"])) (fun w =>
  and_then (created (create_variable w me "height" (VInt 0) CONTROLLABLE
                       ["H"; "hei"])) (fun w =>
  and_then (_set_dimension_value w me length "length") (fun w =>
  and_then (_set_dimension_value w me width "width") (fun w =>
  and_then (_set_dimension_value w me height "height") (fun w =>
  and_then (created (create_variable w me "volume" (VInt 0) CALCULATED
                       ["vol"])) (fun w =>
  match Dict.get (solutions w) me with
  | Some self =>
      execute_v2_expression w me (volume_statement (HybridSolution.name self))
  | None => Unknown
  end))))))).

(** [HybridBoxSolution(name, length, width, height)] *)
Definition init (w : world) (name : string) (length width height : pyval)
  : run world :=
  _setup_variables (new_solution w name) name length width height.

(** The properties [length], [width], [height] and [volume], by the
    name of the variable they read. *)
Definition dimension (w : world) (me key : string) : outcome pyval :=
  match Dict.get (solutions w) me, Dict.get (v2_solutions w) me with
  | Some self, Some v2_solution =>
      match get_variable_by_reference self v2_solution key with
      | Some var =>
          match HybridVariable.get_computed_value var None with
          | Returns (_, result) => Returns result
          | Raises msg => Raises msg
          | Unmodelled => Unmodelled
          end
      | None => Returns (VFloat (S754_zero false))
      end
  | _, _ => Unmodelled
  end.

End HybridBoxSolution.

(** [Part3DSpace]: a space knows its solutions by their identity,
    here a number: [in] and [list.remove] compare with [==], which
    for a solution is [is]. *)
Module Part3DSpace.

Record t : Set := mk {
  name : string;
  solutions : list nat
}.

Definition init (name : string) : t := mk name [].

(** [list.remove(x)] where [x] is in the list: the first occurrence
    goes. *)
Fixpoint remove_first (x : nat) (l : list nat) : list nat :=
  match l with
  | [] => []
  | y :: l' => if Nat.eqb x y then l' else y :: remove_first x l'
  end.

Definition add_solution (self : t) (solution : nat) : t :=
  if negb (existsb (Nat.eqb solution) (solutions self))
  then mk (name self) (solutions self ++ [solution])%list
  else self.

Definition remove_solution (self : t) (solution : nat) : t :=
  if existsb (Nat.eqb solution) (solutions self)
  then mk (name self) (remove_first solution (solutions self))
  else self.

End Part3DSpace.

End Hybrid.


(** * Statements

    The inputs of the scenarios and the predicates the properties
    below are stated with. *)

Module Statements.

Import PyStr PyInt V2 V2FormulaEvaluator Hybrid.

(** The name grammar in the words of the specification: non-empty,
    first character a letter or a digit, every character a letter, a
    digit or an underscore, neither [@] nor [.] anywhere. *)
Definition name_grammar (name : string) : bool :=
  match name with
  | EmptyString => false
  | String c0 _ =>
      (is_ascii_letter c0 || is_ascii_digit c0)
      && forallb ident_char name
      && negb (contains "@" name) && negb (contains "." name)
  end.

(** A name of the grammar followed by a newline. *)
Definition abc_newline : string := "abc" ++ String NL "".

(** A V2 solution with the variables [length] and [width] and the
    alias [L] of [length]. *)
Definition box : V2.V2Solution.t :=
  V2.V2Solution.mk "box"
    [("length", V2.V2Variable.init "length" (VInt 600) "box" V2.InSolution);
     ("width", V2.V2Variable.init "width" (VInt 400) "box" V2.InSolution)]
    [("L", "length")].

(** The same in the first variable system. *)
Definition box_v1 : V1.Solution.t :=
  V1.Solution.mk "box"
    [("length", V1.V1Variable.mk "length" (VInt 600) V1.CONTROLLABLE [] []);
     ("width", V1.V1Variable.mk "width" (VInt 400) V1.CONTROLLABLE [] [])]
    [("L", "length")].

Definition panel_and_result : registry :=
  [("panel", V2Solution.init "panel"); ("result", V2Solution.init "result")].

(** The variable when the evaluation of a new formula begins: the
    formula and its references are stored, the cache is the old one. *)
Definition with_formula (self : V2Variable.t) (formula : string) : V2Variable.t :=
  V2Variable.mk (V2Variable.name self) (V2Variable.solution_name self)
    (V2Variable._value self) true (Some formula)
    (extract_variable_references formula)
    (V2Variable.last_computed_value self) (V2Variable.computation_error self)
    (V2Variable.lives self).

(** A registry where [a.p] is 5. *)
Definition five_in_p : registry :=
  [("p", V2Solution.mk "p" [("a", V2Variable.init "a" (VInt 5) "p" InSolution)] [])].

Definition new_variable : V2Variable.t := V2Variable.init "r" VNone "res" InHybrid.

(** [new_variable] after [set_formula("a.p", five_in_p)]: evaluated to 5.0. *)
Definition holds_five : V2Variable.t :=
  V2Variable.mk "r" "res" VNone true (Some "a.p") ["a.p"]
    (Some (PyFloat.of_Z 5)) None InHybrid.

Definition unknown_solution_error : string :=
  "Error evaluating formula 'x.nosuch': Solution 'nosuch' not found".

(** Statements executed one after the other, each on the solution
    registered under the given name; the first that does not return
    ends the run. *)
Fixpoint execute_all (reg : registry) (steps : list (string * string))
  : run registry :=
  match steps with
  | [] => Done reg
  | (me, expression) :: steps' =>
      match execute_registered reg me expression with
      | Done reg' => execute_all reg' steps'
      | other => other
      end
  end.

(** [registry[solution].get_variable(name).value] *)
Definition read (reg : registry) (solution name : string) : option pyval :=
  match Dict.get reg solution with
  | Some s => option_map V2Variable.value (V2Solution.get_variable s name)
  | None => None
  end.

Definition workshop : registry :=
  [("panel", V2Solution.init "panel"); ("edge", V2Solution.init "edge");
   ("result", V2Solution.init "result")].

Definition dimensions : list (string * string) :=
  [("panel", "length@panel=600"); ("panel", "width@panel=400");
   ("panel", "thickness@panel=18"); ("edge", "thickness@edge=2")].

(** The stored graph has an edge from a variable to each member of
    its dependency set; it is cyclic when some variable reaches itself
    along one edge or more. *)
Definition edge (graph : Dict.t StrSet.t) (u v : string) : Prop :=
  exists ds, Dict.get graph u = Some ds /\ In v ds.

Definition cyclic (graph : Dict.t StrSet.t) : Prop :=
  exists u, clos_trans string (edge graph) u u.

Fixpoint execute_v2_all (w : world) (steps : list (string * string)) : run world :=
  match steps with
  | [] => Done w
  | (me, expression) :: steps' =>
      match execute_v2_expression w me expression with
      | Done w' => execute_v2_all w' steps'
      | other => other
      end
  end.

(** [v2_solutions[solution].variables[name].formula] *)
Definition formula_of (w : world) (solution name : string) : option string :=
  match Dict.get (v2_solutions w) solution with
  | Some s =>
      match Dict.get (V2Solution.variables s) name with
      | Some v => V2Variable.formula v
      | None => None
      end
  | None => None
  end.

(** The solutions [X] and [Y], new. *)
Definition new_X_Y : world := new_solution (new_solution empty_world "X") "Y".

(** The same with the variables [a] of [X] and [b] of [Y] created
    first, the way the box solutions create theirs. *)
Definition declared_X_Y : world :=
  match create_variable new_X_Y "X" "a" (VInt 0) CONTROLLABLE [] with
  | Some (w, _) =>
      match create_variable w "Y" "b" (VInt 0) CONTROLLABLE [] with
      | Some (w', _) => w'
      | None => w
      end
  | None => new_X_Y
  end.

Definition fourteen : list string :=
  ["sqrt"; "sin"; "cos"; "tan"; "abs"; "min"; "max"; "pow"; "exp"; "log";
   "log10"; "ceil"; "floor"; "round"].

Definition eight : list string :=
  ["sin"; "cos"; "tan"; "sqrt"; "abs"; "min"; "max"; "round"].

(** [name] is bound to a function in the dictionary [globals]. *)
Definition callable (globals : Dict.t pyobj) (name : string) : Prop :=
  exists b, Dict.get globals name = Some (Func b).

(** The reference [m], a match of the pattern, is replaced by a text. *)
Definition resolves (reg : registry) (m : string * string) : Prop :=
  exists text, replace_reference reg (fst m) (snd m) = Returns text.

(** A registry that holds [p], with [w] = 400 and no [a], and no
    solution [nosuch]. *)
Definition only_p : registry :=
  [("p", V2Solution.mk "p" [("w", V2Variable.init "w" (VInt 400) "p" InSolution)] [])].

Definition seven : PyFloat.pyfloat := PyFloat.of_Z 7.

Definition holds_seven (formula : string) : V2Variable.t :=
  V2Variable.mk "r" "res" VNone true (Some formula)
    (extract_variable_references formula) (Some seven) None InSolution.

(** The number the digits of [u] denote, after the digits that gave
    [acc]. *)
Fixpoint uint_val (acc : Z) (u : Decimal.uint) : Z :=
  match u with
  | Decimal.Nil => acc
  | Decimal.D0 u' => uint_val (10 * acc + 0)%Z u'
  | Decimal.D1 u' => uint_val (10 * acc + 1)%Z u'
  | Decimal.D2 u' => uint_val (10 * acc + 2)%Z u'
  | Decimal.D3 u' => uint_val (10 * acc + 3)%Z u'
  | Decimal.D4 u' => uint_val (10 * acc + 4)%Z u'
  | Decimal.D5 u' => uint_val (10 * acc + 5)%Z u'
  | Decimal.D6 u' => uint_val (10 * acc + 6)%Z u'
  | Decimal.D7 u' => uint_val (10 * acc + 7)%Z u'
  | Decimal.D8 u' => uint_val (10 * acc + 8)%Z u'
  | Decimal.D9 u' => uint_val (10 * acc + 9)%Z u'
  end.

(** A digit part ends before [rest]. *)
Definition ends_digits (rest : string) : Prop :=
  match rest with
  | EmptyString => True
  | String c _ => is_ascii_digit c = false /\ is_code 95 c = false
  end.

(** The characters [str] writes are digits and the sign. *)
Definition written (c : ascii) : bool := is_ascii_digit c || Ascii.eqb c "-".

(** The identifiers of the variables of a solution are below its
    counter, and no two variables share one. *)
Definition well_formed (self : HybridSolution.t) : Prop :=
  (forall v, In v (HybridSolution.get_all_variables self) ->
             (HybridVariable.variable_id v < HybridSolution.next_variable_id self)%Z)
  /\ (forall v w,
         In v (HybridSolution.get_all_variables self) ->
         In w (HybridSolution.get_all_variables self) ->
         HybridVariable.variable_id v = HybridVariable.variable_id w -> v = w).

Definition all_well_formed (w : world) : Prop :=
  forall n s, Dict.get (solutions w) n = Some s -> well_formed s.

(** The solution [panel] with the variable [length], of aliases [L]
    and [len], as the box solutions create it. *)
Definition panel_world : world :=
  match create_variable (new_solution empty_world "panel") "panel" "length"
          (VInt 600) CONTROLLABLE ["L"; "len"] with
  | Some (w, _) => w
  | None => empty_world
  end.

Definition panel : HybridSolution.t :=
  HybridSolution.mk "panel"
    [("length", HybridVariable.init "length" (VInt 600) CONTROLLABLE "panel" 1
                  ["L"; "len"])] 2.

Definition panel_v2 : V2Solution.t :=
  V2Solution.mk "panel"
    [("length", V2Variable.init "length" (VInt 600) "panel" InSolution)]
    [("L", "length"); ("len", "length")].

Definition length_var : HybridVariable.t :=
  HybridVariable.init "length" (VInt 600) CONTROLLABLE "panel" 1 ["L"; "len"].

(** A registry with the solution [box], of volume 42, and the
    solution [me]. *)
Definition box_and_me : registry :=
  [("box", V2Solution.mk "box"
             [("volume", V2Variable.init "volume" (VInt 42) "box" InSolution)] []);
   ("me", V2Solution.init "me")].

(** The hybrid solutions [X], which holds the V2 variable [a] = 1 but
    no hybrid variable, and [Y]. *)
Definition x_and_y : world :=
  mkWorld [("X", HybridSolution.mk "X" [] 1); ("Y", HybridSolution.mk "Y" [] 1)]
          [("X", V2Solution.mk "X"
                   [("a", V2Variable.init "a" (VInt 1) "X" InSolution)] []);
           ("Y", V2Solution.init "Y")]
          V2DependencyTracker.init.


(** ** The dependency graphs *)

(** The loop of [search] over the dependencies of a variable. *)
Fixpoint search_each (fuel : nat) (graph : Dict.t StrSet.t) (target : string)
         (visited : StrSet.t) (deps : list string) : option bool :=
  match deps with
  | [] => Some false
  | dependency :: deps' =>
      match V1.DependencyTracker.search fuel graph dependency target visited with
      | Some true => Some true
      | Some false => search_each fuel graph target visited deps'
      | None => None
      end
  end.

(** The first tracker told that [c] depends on [a], [a] on [b] and
    [b] on [a]. *)
Definition c_a_b : V1.DependencyTracker.t :=
  V1.DependencyTracker.add_dependency
    (V1.DependencyTracker.add_dependency
       (V1.DependencyTracker.add_dependency V1.DependencyTracker.init "c" "a")
       "a" "b")
    "b" "a".

(** The entries of the graph whose key is not in [visited]. *)
Definition unvisited (graph : Dict.t StrSet.t) (visited : StrSet.t) : nat :=
  List.length (filter (fun kv => negb (StrSet.mem (fst kv) visited)) graph).

(** [v] is reached from [u] along edges that leave variables out of
    [visited]. *)
Inductive avoids (graph : Dict.t StrSet.t) (visited : StrSet.t)
  : string -> string -> Prop :=
| avoids_edge u v :
    ~ In u visited -> edge graph u v -> avoids graph visited u v
| avoids_step u x v :
    ~ In u visited -> edge graph u x ->
    avoids graph visited x v -> avoids graph visited u v.

(** The loop of [check_circular] over the dependencies of a
    variable. *)
Fixpoint check_each (fuel : nat) (graph : Dict.t StrSet.t)
         (path visited : StrSet.t) (deps : list string)
  : option (bool * StrSet.t) :=
  match deps with
  | [] => Some (false, visited)
  | dep :: deps' =>
      match V2DependencyTracker.check_circular fuel graph dep path visited with
      | Some (true, visited') => Some (true, visited')
      | Some (false, visited') => check_each fuel graph path visited' deps'
      | None => None
      end
  end.

(** [graph.get(v, set())] *)
Definition deps_of (graph : Dict.t StrSet.t) (v : string) : StrSet.t :=
  match Dict.get graph v with
  | Some ds => ds
  | None => []
  end.

(** The members of the stored sets. *)
Definition targets (graph : Dict.t StrSet.t) : list string :=
  concat (Dict.values graph).

(** The variables visited and no longer on the path have all their
    dependencies among them, and none lies on a cycle. *)
Definition finished (graph : Dict.t StrSet.t) (path visited : StrSet.t) : Prop :=
  forall v, In v visited -> ~ In v path ->
    (forall d, edge graph v d -> In d visited /\ ~ In d path)
    /\ ~ clos_trans string (edge graph) v v.

(** A cycle can be reached from [v]. *)
Definition reaches_cycle (graph : Dict.t StrSet.t) (v : string) : Prop :=
  exists c, clos_refl_trans string (edge graph) v c
            /\ clos_trans string (edge graph) c c.

(** Every dependency recorded for a variable knows the variable as
    one of its dependents. *)
Definition reverse_complete (self : V2DependencyTracker.t) : Prop :=
  forall u d,
    In d (V2DependencyTracker.get_dependencies self u) ->
    In u (V2DependencyTracker.get_dependent_variables self d).


(** ** Statements and their parts *)

(** A name of the patterns of the second parser:
    [[a-zA-Z_][a-zA-Z0-9_]*]. *)
Definition is_identifier (s : string) : bool :=
  match s with
  | String c r => ident_start c && PyStr.forallb ident_char r
  | EmptyString => false
  end.

(** Made of the characters [strip] removes. *)
Definition blank (s : string) : bool := PyStr.forallb isspace s.

(** The names [parse_expression] returns. *)
Definition names_of (p : V2.parsed) : list string :=
  match p with
  | V2.Assignment variable solution _ => [variable; solution]
  | V2.Formula variable solution _ _ => [variable; solution]
  | V2.Read target source_variable source_solution =>
      [target; source_variable; source_solution]
  | V2.Alias alias _ => [alias]
  end.


(** What [replace_reference] looks up for the reference [m]: the
    solution, and in it the variable. *)
Definition referenced (reg : registry) (m : string * string)
  : option (option V2Variable.t) :=
  match Dict.get reg (snd m) with
  | Some solution => Some (V2Solution.get_variable solution (fst m))
  | None => None
  end.

(** The formula of the variable [registry[me]] finds under [name]
    refers to that variable. *)
Definition reads_itself (reg : registry) (me name : string) : bool :=
  match Dict.get reg me with
  | Some self =>
      match variable_key self name with
      | Some key =>
          match Dict.get (V2Solution.variables self) key with
          | Some var =>
              match V2Variable.formula var with
              | Some formula =>
                  existsb
                    (fun m =>
                       String.eqb (snd m) me
                       && match variable_key self (fst m) with
                          | Some k => String.eqb k key
                          | None => false
                          end)
                    (Regex.findall_refs 0 formula)
              | None => false
              end
          | None => false
          end
      | None => false
      end
  | None => false
  end.

(** A registry where [d.q] is twice [a.p], not yet evaluated. *)
Definition twice_a : registry :=
  [("p", V2Solution.mk "p" [("a", V2Variable.init "a" (VInt 5) "p" InSolution)] []);
   ("q", V2Solution.mk "q"
           [("d", V2Variable.mk "d" "q" VNone true (Some "a.p * 2") ["a.p"]
                    None None InSolution)] [])].

Definition twice_a_evaluated : registry :=
  [("p", V2Solution.mk "p" [("a", V2Variable.init "a" (VInt 5) "p" InSolution)] []);
   ("q", V2Solution.mk "q"
           [("d", V2Variable.mk "d" "q" VNone true (Some "a.p * 2") ["a.p"]
                    (Some (PyFloat.of_Z 10)) None InSolution)] [])].

(** ** The worlds of the hybrid layer *)

(** The worlds the calls of the hybrid layer build. *)
Inductive built : world -> Prop :=
| built_empty : built empty_world
| built_reset w : built w -> built (reset w)
| built_solution w name : built w -> built (new_solution w name)
| built_variable w me vname value var_type aliases w' hv :
    built w ->
    create_variable w me vname value var_type aliases = Some (w', hv) ->
    built w'
| built_assigned w me key value w' :
    built w -> assign_value w me key value = Done w' -> built w'
| built_executed w me expression w' :
    built w -> execute_v2_expression w me expression = Done w' -> built w'
| built_refused w me expression w' msg :
    built w -> execute_v2_expression w me expression = Failed w' msg -> built w'.

(** The V2 solution registered under [n] bears that name; its
    variables bear the names they are stored under and live in it;
    its aliases lead to variables it holds. *)
Definition v2_sound (n : string) (v2 : V2Solution.t) : Prop :=
  V2Solution.name v2 = n
  /\ (forall k x, Dict.get (V2Solution.variables v2) k = Some x ->
        V2Variable.name x = k /\ V2Variable.solution_name x = n
        /\ V2Variable.lives x = InSolution)
  /\ (forall a r, Dict.get (V2Solution.aliases v2) a = Some r ->
        Dict.mem (V2Solution.variables v2) r = true).

(** The same for the hybrid solution registered under [n]: each of
    its variables has a V2 variable of its own and a namesake in the
    V2 solution. *)
Definition hybrid_sound (w : world) (n : string) (s : HybridSolution.t) : Prop :=
  HybridSolution.name s = n
  /\ NoDup (Dict.keys (HybridSolution.variables s))
  /\ forall k hv, In (k, hv) (HybridSolution.variables s) ->
       HybridVariable.name hv = k /\ HybridVariable.solution_name hv = n
       /\ V2Variable.lives (HybridVariable.v2_variable hv) = InHybrid
       /\ exists v2, Dict.get (v2_solutions w) n = Some v2
                     /\ Dict.mem (V2Solution.variables v2) k = true.

Definition coherent (w : world) : Prop :=
  all_well_formed w
  /\ (forall n, Dict.mem (solutions w) n = Dict.mem (v2_solutions w) n)
  /\ (forall n s, Dict.get (solutions w) n = Some s -> hybrid_sound w n s)
  /\ (forall n v2, Dict.get (v2_solutions w) n = Some v2 -> v2_sound n v2).

(** ** Boxes *)

(** What a property of a box returns for a dimension the box was
    built with: the number as a float, and zero for a formula. *)
Definition reported (value : pyval) : pyval :=
  match value with
  | VInt z =>
      match PyFloat.float_of_int z with
      | Some f => VFloat f
      | None => VInt 0
      end
  | VFloat f => VFloat f
  | VStr _ | VNone => VInt 0
  end.

(** The hybrid solution of a box once built. *)
Definition built_box (name : string) (length width height : pyval)
  : HybridSolution.t :=
  HybridSolution.mk name
    [("length", HybridVariable.init "length" (reported length) CONTROLLABLE name 1
                  ["L"; "len"]);
     ("width", HybridVariable.init "width" (reported width) CONTROLLABLE name 2
                 ["W"; "wid"]);
     ("height", HybridVariable.init "height" (reported height) CONTROLLABLE name 3
                  ["H"; "hei"]);
     ("volume", HybridVariable.init "volume" (VInt 0) CALCULATED name 4 ["vol"])]
    5.

(** The box [panel] of the demonstration, built in an empty world. *)
Definition panel_box : world :=
  match HybridBoxSolution.init empty_world "panel" (VInt 600) (VInt 400) (VInt 18) with
  | Done w => w
  | _ => empty_world
  end.

(** A dimension given as a number [float] converts. *)
Definition is_number (value : pyval) : bool :=
  match value with
  | VInt z =>
      match PyFloat.float_of_int z with
      | Some _ => true
      | None => false
      end
  | VFloat _ => true
  | VStr _ | VNone => false
  end.

(** One result after another, for the texts that replace references. *)
Definition then_text (r : outcome string) (next : string -> outcome string)
  : outcome string :=
  match r with
  | Returns text => next text
  | Raises msg => Raises msg
  | Unmodelled => Unmodelled
  end.

(** The formula of the volume of the box [name]. *)
Definition volume_formula (name : string) : string :=
  "length." ++ name ++ " * width." ++ name ++ " * height." ++ name.

(** The V2 solution of a box built from numbers. *)
Definition box_v2 (name : string) : V2Solution.t :=
  V2Solution.mk name
    [("length", V2Variable.init "length" (VInt 0) name InSolution);
     ("width", V2Variable.init "width" (VInt 0) name InSolution);
     ("height", V2Variable.init "height" (VInt 0) name InSolution);
     ("volume", V2Variable.mk "volume" name (VInt 0) true
                  (Some (volume_formula name))
                  (extract_variable_references (volume_formula name))
                  (Some (S754_zero false)) None InSolution)]
    [("L", "length"); ("len", "length"); ("W", "width"); ("wid", "width");
     ("H", "height"); ("hei", "height"); ("vol", "volume")].

End Statements.

(** * Properties *)

(** ** Dictionaries *)

Module DictFacts.

Section Facts.
Context {V : Type}.

Lemma get_set_same (d : Dict.t V) k v : Dict.get (Dict.set d k v) k = Some v.
Proof.
  induction d as [|[k' v'] d IH]; simpl.
  - now rewrite String.eqb_refl.
  - destruct (String.eqb k k') eqn:E; simpl; rewrite E; auto.
Qed.

Lemma get_set_other (d : Dict.t V) k k' v :
  k' <> k -> Dict.get (Dict.set d k v) k' = Dict.get d k'.
Proof.
  intros Hne. induction d as [|[k0 v0] d IH]; simpl.
  - destruct (String.eqb k' k) eqn:E; auto.
    apply String.eqb_eq in E. contradiction.
  - destruct (String.eqb k k0) eqn:E; simpl.
    + apply String.eqb_eq in E. subst k0.
      destruct (String.eqb k' k) eqn:E'; auto.
      apply String.eqb_eq in E'. contradiction.
    + now rewrite IH.
Qed.

Lemma mem_set_same (d : Dict.t V) k v : Dict.mem (Dict.set d k v) k = true.
Proof. unfold Dict.mem. now rewrite get_set_same. Qed.

(** Storing again what a key holds changes nothing. *)
Lemma set_get_same (d : Dict.t V) k v :
  Dict.get d k = Some v -> Dict.set d k v = d.
Proof.
  induction d as [|[k' v'] d IH]; simpl; [discriminate|].
  destruct (String.eqb k k') eqn:E.
  - now intros [= ->].
  - intros H. now rewrite IH.
Qed.

Lemma get_In (d : Dict.t V) k v : Dict.get d k = Some v -> In (k, v) d.
Proof.
  induction d as [|[k' v'] d IH]; simpl; [discriminate|].
  destruct (String.eqb k k') eqn:E.
  - apply String.eqb_eq in E. intros [= ->]. subst. now left.
  - intros H. right. auto.
Qed.

Lemma get_In_values (d : Dict.t V) k v :
  Dict.get d k = Some v -> In v (Dict.values d).
Proof.
  intros H. apply get_In in H. unfold Dict.values.
  change v with (snd (k, v)). now apply in_map.
Qed.

Lemma get_In_keys (d : Dict.t V) k v :
  Dict.get d k = Some v -> In k (Dict.keys d).
Proof.
  intros H. apply get_In in H. unfold Dict.keys.
  change k with (fst (k, v)). now apply in_map.
Qed.

Lemma mem_In_keys (d : Dict.t V) k :
  Dict.mem d k = true -> In k (Dict.keys d).
Proof.
  unfold Dict.mem. destruct (Dict.get d k) eqn:E; [|discriminate].
  intros _. eapply get_In_keys; eauto.
Qed.

End Facts.

End DictFacts.

(** ** Strings *)

Module StrFacts.

Import PyStr.

Lemma span_app p s a b : span p s = (a, b) -> s = a ++ b.
Proof.
  revert a b. induction s as [|c r IH]; simpl; intros a b.
  - now intros [= <- <-].
  - destruct (p c).
    + destruct (span p r) as [a' b'] eqn:E. intros [= <- <-].
      simpl. f_equal. now apply IH.
    + now intros [= <- <-].
Qed.

Lemma span_all p s a b : span p s = (a, b) -> forallb p a = true.
Proof.
  revert a b. induction s as [|c r IH]; simpl; intros a b.
  - now intros [= <- <-].
  - destruct (p c) eqn:Hc.
    + destruct (span p r) as [a' b'] eqn:E. intros [= <- <-].
      simpl. rewrite Hc. simpl. eapply IH; eauto.
    + now intros [= <- <-].
Qed.

(** Where a greedy run stops, the next character is not of the class. *)
Lemma span_rest p s a b :
  span p s = (a, b) ->
  match b with
  | EmptyString => True
  | String c _ => p c = false
  end.
Proof.
  revert a b. induction s as [|c r IH]; simpl; intros a b.
  - now intros [= <- <-].
  - destruct (p c) eqn:Hc.
    + destruct (span p r) as [a' b'] eqn:E. intros [= <- <-].
      eapply IH; eauto.
    + now intros [= <- <-].
Qed.

Lemma span_stop p a b :
  forallb p a = true ->
  match b with
  | EmptyString => True
  | String c _ => p c = false
  end ->
  span p (a ++ b) = (a, b).
Proof.
  intros Ha Hb. induction a as [|c r IH]; simpl in *.
  - destruct b as [|c r]; [reflexivity|]. simpl. now rewrite Hb.
  - apply andb_prop in Ha. destruct Ha as [Hc Hr].
    rewrite Hc. now rewrite IH.
Qed.

Lemma append_empty_r s : s ++ "" = s.
Proof. induction s; simpl; congruence. Qed.

Lemma contains_app c a b : contains c (a ++ b) = contains c a || contains c b.
Proof.
  induction a as [|d r IH]; simpl; [reflexivity|].
  rewrite IH. now rewrite orb_assoc.
Qed.

Lemma forallb_app p a b : forallb p (a ++ b) = forallb p a && forallb p b.
Proof.
  induction a as [|d r IH]; simpl; [reflexivity|].
  rewrite IH. now rewrite andb_assoc.
Qed.

(** A string of characters of a class holds no character outside it. *)
Lemma forallb_contains p c s :
  forallb p s = true -> p c = false -> contains c s = false.
Proof.
  intros Hs Hc. induction s as [|d r IH]; simpl in *; [reflexivity|].
  apply andb_prop in Hs. destruct Hs as [Hd Hr].
  rewrite IH by assumption. rewrite orb_false_r.
  destruct (Ascii.eqb c d) eqn:E; [|reflexivity].
  apply Ascii.eqb_eq in E. subst. congruence.
Qed.

End StrFacts.

(** ** The name validator *)

Module NameValidator.

Import Statements.

Import PyStr V1 StrFacts.

(** On the characters of the class [[a-zA-Z0-9_]], [isalpha] and
    [isdigit] are the tests for an ASCII letter and an ASCII digit. *)
Lemma alpha_or_digit_on_class c :
  ident_char c = true ->
  isalpha c || isdigit c = is_ascii_letter c || is_ascii_digit c.
Proof.
  destruct c as [[] [] [] [] [] [] [] []]; vm_compute; congruence.
Qed.

(** The name validator accepts exactly the names of the grammar and
    these names followed by one newline. *)
Lemma validate_name_language (name : string) :
  validate_name name = true <->
  name_grammar name = true
  \/ exists w, name = w ++ String NL "" /\ name_grammar w = true.
Proof.
  split.
  - destruct name as [|c0 r]; [discriminate|].
    unfold validate_name.
    destruct (isalpha c0 || isdigit c0) eqn:Hfirst; [|discriminate]. simpl negb.
    cbv iota.
    destruct (contains "@" (String c0 r) || contains "." (String c0 r)) eqn:Hat;
      [discriminate|].
    apply orb_false_elim in Hat. destruct Hat as [Hat Hdot].
    unfold match_word_plus.
    destruct (span ident_char (String c0 r)) as [run rest] eqn:Hspan.
    destruct run as [|c1 run']; [discriminate|].
    pose proof (span_app _ _ _ _ Hspan) as Happ.
    pose proof (span_all _ _ _ _ Hspan) as Hall.
    simpl in Happ. injection Happ as <- Hr.
    assert (Hc0 : ident_char c0 = true).
    { simpl in Hall. now apply andb_prop in Hall. }
    rewrite (alpha_or_digit_on_class _ Hc0) in Hfirst.
    destruct (at_dollar rest) eqn:Hend; [|discriminate]. intros _.
    destruct rest as [|n rest'].
    + left. rewrite append_empty_r in Hr. subst r.
      unfold name_grammar. rewrite Hfirst, Hall, Hat, Hdot. reflexivity.
    + destruct rest'; [|discriminate]. simpl in Hend.
      apply Ascii.eqb_eq in Hend. subst n.
      right. exists (String c0 run'). split.
      * simpl. now f_equal.
      * subst r. change (String c0 (run' ++ String NL ""))
          with (String c0 run' ++ String NL "") in Hat, Hdot.
        rewrite contains_app in Hat, Hdot.
        apply orb_false_elim in Hat. apply orb_false_elim in Hdot.
        destruct Hat as [Hat _]. destruct Hdot as [Hdot _].
        unfold name_grammar. rewrite Hfirst, Hall, Hat, Hdot. reflexivity.
  - assert (Hgood : forall w tail_,
               name_grammar w = true ->
               (tail_ = "" \/ tail_ = String NL "") ->
               validate_name (w ++ tail_) = true).
    { intros w tail_ Hw Htail. destruct w as [|c0 r]; [discriminate|].
      unfold name_grammar in Hw.
      apply andb_prop in Hw. destruct Hw as [Hw Hdot].
      apply andb_prop in Hw. destruct Hw as [Hw Hat].
      apply andb_prop in Hw. destruct Hw as [Hfirst Hall].
      apply negb_true_iff in Hat, Hdot.
      assert (Hc0 : ident_char c0 = true).
      { simpl in Hall. now apply andb_prop in Hall. }
      change (String c0 r ++ tail_) with (String c0 (r ++ tail_)).
      unfold validate_name.
      rewrite (alpha_or_digit_on_class _ Hc0), Hfirst. simpl negb. cbv iota.
      change (String c0 (r ++ tail_)) with (String c0 r ++ tail_).
      rewrite !contains_app, Hat, Hdot.
      assert (Htail' : contains "@" tail_ = false /\ contains "." tail_ = false).
      { destruct Htail as [-> | ->]; split; reflexivity. }
      destruct Htail' as [-> ->]. simpl orb. cbv iota.
      unfold match_word_plus. rewrite (span_stop ident_char (String c0 r) tail_).
      - destruct Htail as [-> | ->]; reflexivity.
      - exact Hall.
      - destruct Htail as [-> | ->]; [exact I | reflexivity]. }
    intros [Hw | [w [-> Hw]]].
    + rewrite <- (append_empty_r name). apply Hgood; auto.
    + apply Hgood; auto.
Qed.

(** C9: the validator is not the name grammar.  On the name "abc"
    followed by a newline, which the grammar excludes (a newline is
    no letter, digit or underscore), [validate_name] returns true:
    [$] also matches before a final newline. *)
Theorem validate_name_accepts_trailing_newline :
  validate_name abc_newline = true /\ name_grammar abc_newline = false.
Proof. split; reflexivity. Qed.

End NameValidator.

(** ** The alias table *)

Module AliasTable.

Import Statements.

Import PyStr StrFacts.

(** An alias that is the name of a variable, and an alias that is
    already one, are accepted: the first shadows nothing but is
    stored, the second is bound anew. *)
Lemma set_alias_accepts_collisions :
  Dict.mem (V2.V2Solution.variables box) "length" = true
  /\ V2.V2Solution.set_alias box "length" "width"
     = (V2.V2Solution.mk "box" (V2.V2Solution.variables box)
          [("L", "length"); ("length", "width")], None)
  /\ Dict.get (V2.V2Solution.aliases box) "L" = Some "length"
  /\ V2.V2Solution.set_alias box "L" "width"
     = (V2.V2Solution.mk "box" (V2.V2Solution.variables box) [("L", "width")],
        None)
  /\ snd (V1.Solution.set_alias box_v1 "length" "width") = true
  /\ snd (V1.Solution.set_alias box_v1 "L" "width") = true.
Proof. repeat split; reflexivity. Qed.

(** A name the validator accepts holds neither [@] nor [.]. *)
Lemma validate_name_no_at_dot alias :
  contains "@" alias = true \/ contains "." alias = true ->
  V1.validate_name alias = false.
Proof.
  intros H. destruct alias as [|c r]; [reflexivity|].
  unfold V1.validate_name.
  destruct (negb (PyStr.isalpha c || PyStr.isdigit c)); [reflexivity|].
  destruct H as [-> | ->]; [reflexivity | now rewrite orb_true_r].
Qed.

(** C6, as the code has it: [set_alias] refuses an alias that holds
    [@] or [.] and a target that is no variable of the solution, and
    then leaves the solution as it was; it refuses nothing else, and
    binds the alias otherwise.  The first variable system refuses in
    the same two cases (its test of the alias is the name validator)
    and answers [False]. *)
Theorem set_alias_refuses_exactly :
  (forall (self : V2.V2Solution.t) (alias variable_name : string),
      (snd (V2.V2Solution.set_alias self alias variable_name) <> None
       <-> contains "@" alias = true \/ contains "." alias = true
           \/ Dict.mem (V2.V2Solution.variables self) variable_name = false)
      /\ (snd (V2.V2Solution.set_alias self alias variable_name) <> None ->
          fst (V2.V2Solution.set_alias self alias variable_name) = self)
      /\ (snd (V2.V2Solution.set_alias self alias variable_name) = None ->
          fst (V2.V2Solution.set_alias self alias variable_name)
          = V2.V2Solution.mk (V2.V2Solution.name self)
              (V2.V2Solution.variables self)
              (Dict.set (V2.V2Solution.aliases self) alias variable_name)))
  /\ (forall (self : V1.Solution.t) (alias var_name : string),
         (snd (V1.Solution.set_alias self alias var_name) = false
          <-> V1.validate_name alias = false
              \/ Dict.mem (V1.Solution.variables self) var_name = false)
         /\ (contains "@" alias = true \/ contains "." alias = true ->
             snd (V1.Solution.set_alias self alias var_name) = false)
         /\ (snd (V1.Solution.set_alias self alias var_name) = false ->
             fst (V1.Solution.set_alias self alias var_name) = self)
         /\ (snd (V1.Solution.set_alias self alias var_name) = true ->
             fst (V1.Solution.set_alias self alias var_name)
             = V1.Solution.mk (V1.Solution.name self) (V1.Solution.variables self)
                 (Dict.set (V1.Solution.aliases self) alias var_name))).
Proof.
  split.
  - intros self alias variable_name. unfold V2.V2Solution.set_alias, V2._is_valid_alias.
    destruct (contains "@" alias) eqn:Hat; simpl.
    { repeat split; auto; try discriminate. }
    destruct (contains "." alias) eqn:Hdot; simpl.
    { repeat split; auto; try discriminate. }
    destruct (Dict.mem (V2.V2Solution.variables self) variable_name) eqn:Hmem; simpl.
    + repeat split; try congruence.
      intros [H | [H | H]]; discriminate.
    + repeat split; auto; try discriminate.
  - intros self alias var_name. unfold V1.Solution.set_alias.
    destruct (V1.validate_name alias) eqn:Hvalid; simpl.
    + destruct (Dict.mem (V1.Solution.variables self) var_name) eqn:Hmem; simpl.
      * repeat split; try congruence.
        -- intros [H | H]; discriminate.
        -- intros H. apply validate_name_no_at_dot in H. congruence.
      * repeat split; auto; try discriminate.
    + repeat split; auto; try discriminate.
Qed.

Lemma set_alias_refuses_example :
  (snd (V2.V2Solution.set_alias box "a.b" "width") <> None
   <-> contains "@" "a.b" = true \/ contains "." "a.b" = true
       \/ Dict.mem (V2.V2Solution.variables box) "width" = false)
  /\ fst (V2.V2Solution.set_alias box "a.b" "width") = box
  /\ fst (V2.V2Solution.set_alias box "W" "width")
     = V2.V2Solution.mk (V2.V2Solution.name box) (V2.V2Solution.variables box)
         (Dict.set (V2.V2Solution.aliases box) "W" "width")
  /\ snd (V1.Solution.set_alias box_v1 "a.b" "width") = false.
Proof.
  split; [exact (proj1 (proj1 set_alias_refuses_exactly box "a.b" "width"))|].
  split.
  { apply (proj1 (proj2 (proj1 set_alias_refuses_exactly box "a.b" "width"))).
    discriminate. }
  split.
  { apply (proj2 (proj2 (proj1 set_alias_refuses_exactly box "W" "width"))).
    reflexivity. }
  apply (proj1 (proj2 (proj2 set_alias_refuses_exactly box_v1 "a.b" "width"))).
  right. reflexivity.
Defined.

End AliasTable.

(** ** Writes into another solution *)

Module CrossSolution.

Import Statements.

Import V2 DictFacts.

(** C10: a statement [name@other=rhs], whether classified as an
    assignment or as a formula, executed on a solution whose name is
    not [other], raises "Cannot assign to variable in different
    solution" and leaves the solution, and with it the whole registry,
    as it was. *)
Theorem cross_solution_write_rejected :
  forall (reg : registry) (me expression variable solution : string)
         (self : V2Solution.t),
    Dict.get reg me = Some self ->
    (exists value,
        parse_expression expression = Returns (Assignment variable solution value))
    \/ (exists formula dependencies,
           parse_expression expression
           = Returns (Formula variable solution formula dependencies)) ->
    solution <> V2Solution.name self ->
    (forall registry_with,
        execute_expression self expression registry_with
        = Failed self (different_solution solution))
    /\ execute_registered reg me expression
       = Failed reg (different_solution solution).
Proof.
  intros reg me expression variable solution self Hme Hparse Hother.
  assert (Hneq : String.eqb solution (V2Solution.name self) = false).
  { apply String.eqb_neq. exact Hother. }
  assert (Hexec : forall registry_with,
             execute_expression self expression registry_with
             = Failed self (different_solution solution)).
  { intros registry_with. unfold execute_expression.
    destruct Hparse as [[value ->] | [formula [dependencies ->]]];
      now rewrite Hneq. }
  split; [exact Hexec|].
  unfold execute_registered. rewrite Hme, Hexec.
  now rewrite (set_get_same reg me self Hme).
Qed.

Lemma cross_solution_write_rejected_example :
  Dict.get panel_and_result "result" = Some (V2Solution.init "result")
  /\ parse_expression "length@panel=600"
     = Returns (Assignment "length" "panel" (VInt 600))
  /\ parse_expression "length@panel=width.panel"
     = Returns (Formula "length" "panel" "width.panel" ["width.panel"])
  /\ execute_registered panel_and_result "result" "length@panel=600"
     = Failed panel_and_result (different_solution "panel")
  /\ execute_registered panel_and_result "result" "length@panel=width.panel"
     = Failed panel_and_result (different_solution "panel").
Proof.
  split; [reflexivity|]. split; [reflexivity|]. split; [reflexivity|]. split.
  - apply (cross_solution_write_rejected panel_and_result "result"
             "length@panel=600" "length" "panel" (V2Solution.init "result")).
    + reflexivity.
    + left. exists (VInt 600). reflexivity.
    + discriminate.
  - apply (cross_solution_write_rejected panel_and_result "result"
             "length@panel=width.panel" "length" "panel" (V2Solution.init "result")).
    + reflexivity.
    + right. exists "width.panel", ["width.panel"]. reflexivity.
    + discriminate.
Defined.

End CrossSolution.

(** ** Setting a formula *)

Module SetFormula.

Import Statements.

Import V2.

(** C2, as the code has it: when the first evaluation of a new
    formula fails, [set_formula] records the error and sets the cached
    value to 0.0, whatever it was; when it succeeds, the result is
    cached and the error cleared. *)
Theorem set_formula_failure_resets_cache :
  forall (self : V2Variable.t) (formula : string)
         (registry_with : V2Variable.t -> registry),
    (forall msg,
        V2FormulaEvaluator.evaluate_formula formula
          (registry_with (with_formula self formula)) = Raises msg ->
        exists self',
          set_formula self formula registry_with = Returns self'
          /\ V2Variable.computation_error self' = Some msg
          /\ V2Variable.last_computed_value self' = Some (S754_zero false)
          /\ V2Variable.is_formula self' = true
          /\ V2Variable.formula self' = Some formula)
    /\ (forall computed,
           V2FormulaEvaluator.evaluate_formula formula
             (registry_with (with_formula self formula)) = Returns computed ->
           exists self',
             set_formula self formula registry_with = Returns self'
             /\ V2Variable.computation_error self' = None
             /\ V2Variable.last_computed_value self' = Some computed
             /\ V2Variable.is_formula self' = true
             /\ V2Variable.formula self' = Some formula).
Proof.
  intros self formula registry_with. unfold set_formula.
  fold (with_formula self formula). split.
  - intros msg ->. eexists. split; [reflexivity|]. simpl. auto.
  - intros computed ->. eexists. split; [reflexivity|]. simpl. auto.
Qed.

(** A variable whose formula evaluated to 5.0 is given a formula that
    refers to a solution that does not exist: the error is recorded
    and the cached value is 0.0, no longer 5.0. *)
Lemma failed_set_formula_forgets_value :
  set_formula new_variable "a.p" (fun _ => five_in_p) = Returns holds_five
  /\ V2Variable.last_computed_value holds_five = Some (PyFloat.of_Z 5)
  /\ V2Variable.computation_error holds_five = None
  /\ set_formula holds_five "x.nosuch" (fun _ => five_in_p)
     = Returns (V2Variable.mk "r" "res" VNone true (Some "x.nosuch") ["x.nosuch"]
                  (Some (S754_zero false)) (Some unknown_solution_error) InHybrid)
  /\ Some (S754_zero false) <> Some (PyFloat.of_Z 5).
Proof.
  split; [reflexivity|]. split; [reflexivity|]. split; [reflexivity|].
  split; [reflexivity|]. discriminate.
Qed.

Lemma set_formula_failure_example :
  V2FormulaEvaluator.evaluate_formula "x.nosuch"
    (five_in_p) = Raises unknown_solution_error
  /\ exists self',
      set_formula holds_five "x.nosuch" (fun _ => five_in_p) = Returns self'
      /\ V2Variable.computation_error self' = Some unknown_solution_error
      /\ V2Variable.last_computed_value self' = Some (S754_zero false)
      /\ V2Variable.is_formula self' = true
      /\ V2Variable.formula self' = Some "x.nosuch".
Proof.
  split; [reflexivity|].
  apply (proj1 (set_formula_failure_resets_cache holds_five "x.nosuch"
                  (fun _ => five_in_p))).
  reflexivity.
Defined.

End SetFormula.

(** ** The panel, the edge and the result *)

Module PanelScenario.

Import Statements.

Import V2.

(** C8: with the four dimensions in the registry, the formula
    [width.panel - 2*thickness.edge] gives the result the width 396;
    and a result defined as [length.panel], read again with the
    registry after the panel's length became 800, is 800 (its cached
    value was 600 until then). *)
Theorem panel_edge_result_scenario :
  exists reg1 reg2 reg3,
    execute_all workshop
      (dimensions ++ [("result", "width@result=width.panel - 2*thickness.edge")])
    = Done reg1
    /\ read reg1 "result" "width" = Some (VFloat (PyFloat.of_Z 396))
    /\ execute_all reg1
         [("result", "length@result=length.panel"); ("panel", "length@panel=800")]
       = Done reg2
    /\ read reg2 "panel" "length" = Some (VInt 800)
    /\ read reg2 "result" "length" = Some (VFloat (PyFloat.of_Z 600))
    /\ recompute reg2 "result" "length" = Returns (reg3, VFloat (PyFloat.of_Z 800))
    /\ read reg3 "result" "length" = Some (VFloat (PyFloat.of_Z 800)).
Proof.
  do 3 eexists.
  split; [vm_compute; reflexivity|].
  split; [vm_compute; reflexivity|].
  split; [vm_compute; reflexivity|].
  split; [vm_compute; reflexivity|].
  split; [vm_compute; reflexivity|].
  split; vm_compute; reflexivity.
Qed.

End PanelScenario.

(** ** Cycles of dependencies *)

Module DependencyCycle.

Import Statements.

Import V2 Hybrid.

(** The cycle check does not look at the dependencies it is given. *)
Lemma has_circular_dependency_ignores_its_argument
      (self : V2DependencyTracker.t) (variable_id : string) (d1 d2 : StrSet.t) :
  V2DependencyTracker.has_circular_dependency self variable_id d1
  = V2DependencyTracker.has_circular_dependency self variable_id d2.
Proof. reflexivity. Qed.

(** C1: the cycle is committed.  After [a@X=1] and [b@Y=a.X], the
    statement [a@X=b.Y] returns normally and [a] holds the formula
    [b.Y]; nothing checks for a cycle.  The check itself, asked about
    [a.X] and its new dependencies just before, answers [False].
    With [a] and [b] created as hybrid variables, the stored graph
    ends up with the cycle [a.X -> b.Y -> a.X]; with the statements
    alone the tracker records no edge at all. *)
Theorem cyclic_formula_is_committed :
  exists w2 w3 w3',
    execute_v2_all declared_X_Y [("X", "a@X=1"); ("Y", "b@Y=a.X")] = Done w2
    /\ V2DependencyTracker.has_circular_dependency (tracker w2) "a.X" ["b.Y"]
       = Some false
    /\ execute_v2_expression w2 "X" "a@X=b.Y" = Done w3
    /\ formula_of w3 "X" "a" = Some "b.Y"
    /\ V2DependencyTracker.dependency_graph (tracker w3)
       = [("b.Y", ["a.X"]); ("a.X", ["b.Y"])]
    /\ cyclic (V2DependencyTracker.dependency_graph (tracker w3))
    /\ V2DependencyTracker.has_circular_dependency (tracker w3) "a.X" []
       = Some true
    /\ execute_v2_all new_X_Y
         [("X", "a@X=1"); ("Y", "b@Y=a.X"); ("X", "a@X=b.Y")] = Done w3'
    /\ formula_of w3' "X" "a" = Some "b.Y"
    /\ V2DependencyTracker.dependency_graph (tracker w3') = [].
Proof.
  do 3 eexists.
  split; [vm_compute; reflexivity|].
  split; [vm_compute; reflexivity|].
  split; [vm_compute; reflexivity|].
  split; [vm_compute; reflexivity|].
  split; [vm_compute; reflexivity|].
  split.
  { exists "a.X". apply t_trans with (y := "b.Y"); apply t_step.
    - exists ["b.Y"]. split; [reflexivity | now left].
    - exists ["a.X"]. split; [reflexivity | now left]. }
  split; [vm_compute; reflexivity|].
  split; [vm_compute; reflexivity|].
  split; vm_compute; reflexivity.
Qed.

End DependencyCycle.

(** ** The functions a formula may call *)

Module FunctionTables.

Import Statements.

Import PyStr V2.

Lemma replace_caret_no_caret s : contains "^" (replace_caret s) = false.
Proof.
  induction s as [|c r IH]; [reflexivity|].
  cbn [replace_caret]. destruct (Ascii.eqb c "^") eqn:E; cbn [contains].
  - rewrite IH. reflexivity.
  - rewrite IH, Ascii.eqb_sym, E. reflexivity.
Qed.

(** The second evaluator has no [pow]: a formula that calls it fails
    on the name; so it is with [exp], [log], [log10], [ceil] and
    [floor].  The first evaluator computes the same call. *)
Lemma pow_is_not_in_the_second_table :
  V2FormulaEvaluator.evaluate_formula "pow(2, 3)" []
  = Raises "Error evaluating formula 'pow(2, 3)': name 'pow' is not defined"
  /\ V1.evaluate_substituted "pow(2, 3)" = Returns (PyFloat.of_Z 8)
  /\ V2FormulaEvaluator.evaluate_formula "floor(7)" []
     = Raises "Error evaluating formula 'floor(7)': name 'floor' is not defined"
  /\ V1.evaluate_substituted "floor(7)" = Returns (PyFloat.of_Z 7)
  /\ Dict.get V2FormulaEvaluator.safe_dict "pow" = None
  /\ Dict.get V2FormulaEvaluator.safe_dict "exp" = None
  /\ Dict.get V2FormulaEvaluator.safe_dict "log" = None
  /\ Dict.get V2FormulaEvaluator.safe_dict "log10" = None
  /\ Dict.get V2FormulaEvaluator.safe_dict "ceil" = None
  /\ Dict.get V2FormulaEvaluator.safe_dict "floor" = None.
Proof. repeat split; vm_compute; reflexivity. Qed.

Ltac by_cases_on_name name :=
  repeat
    match goal with
    | |- context [String.eqb name ?k] =>
        let E := fresh "E" in
        destruct (String.eqb name k) eqn:E;
        [apply String.eqb_eq in E; subst name | ]
    end.

Lemma callable_first_table name :
  callable V1.eval_context name <-> In name fourteen.
Proof.
  split.
  - intros [b Hb]. revert Hb. unfold V1.eval_context, V1.math_functions.
    simpl Dict.get. by_cases_on_name name; intros Hb;
      try discriminate Hb; simpl; tauto.
  - intros Hin. simpl in Hin.
    repeat (destruct Hin as [<- | Hin]; [eexists; reflexivity|]).
    contradiction.
Qed.

Lemma callable_second_table name :
  callable V2FormulaEvaluator.safe_dict name <-> In name eight.
Proof.
  split.
  - intros [b Hb]. revert Hb.
    unfold V2FormulaEvaluator.safe_dict, V2FormulaEvaluator.FUNCTIONS.
    simpl Dict.get. by_cases_on_name name; intros Hb;
      try discriminate Hb; simpl; tauto.
  - intros Hin. simpl in Hin.
    repeat (destruct Hin as [<- | Hin]; [eexists; reflexivity|]).
    contradiction.
Qed.

(** The only other name of either dictionary is [__builtins__]. *)
Lemma bound_names globals name :
  globals = V1.eval_context \/ globals = V2FormulaEvaluator.safe_dict ->
  Dict.get globals name <> None ->
  callable globals name \/ name = "__builtins__".
Proof.
  intros [-> | ->]; unfold callable;
    unfold V1.eval_context, V1.math_functions,
      V2FormulaEvaluator.safe_dict, V2FormulaEvaluator.FUNCTIONS;
    simpl Dict.get; by_cases_on_name name; intros Hb;
    try (now right); try (left; eexists; reflexivity); now elim Hb.
Qed.

(** C5, as the code has it.  A formula is evaluated, once its
    references are replaced, by rewriting every [^] into [**] and
    calling [eval] with a dictionary of globals whose built-ins are
    empty.  In the first variable system the functions of that
    dictionary are the fourteen of the list; in the second they are
    the eight [sin, cos, tan, sqrt, abs, min, max, round].  A name the
    dictionary does not bind raises a name error, so does a call of
    it. *)
Theorem formula_functions :
  (forall s, contains "^" (replace_caret s) = false)
  /\ (forall formula reg resolved,
         V2FormulaEvaluator._resolve_variable_references formula reg
         = Returns resolved ->
         V2FormulaEvaluator.evaluate_formula formula reg
         = match PyEval.py_eval (replace_caret resolved)
                   V2FormulaEvaluator.safe_dict with
           | Returns result =>
               match PyEval.float_of_result result with
               | Returns f => Returns f
               | Raises msg =>
                   Raises (V2FormulaEvaluator.error_evaluating formula msg)
               | Unmodelled => Unmodelled
               end
           | Raises msg => Raises (V2FormulaEvaluator.error_evaluating formula msg)
           | Unmodelled => Unmodelled
           end)
  /\ (forall name, callable V1.eval_context name <-> In name fourteen)
  /\ (forall name, callable V2FormulaEvaluator.safe_dict name <-> In name eight)
  /\ (forall globals name args,
         Dict.get globals name = None ->
         PyEval.eval_expr globals (PyEval.EName name)
         = Raises (PyEval.name_error name)
         /\ PyEval.eval_expr globals (PyEval.ECall (PyEval.EName name) args)
            = Raises (PyEval.name_error name)).
Proof.
  split; [exact replace_caret_no_caret|].
  split.
  { intros formula reg resolved H.
    unfold V2FormulaEvaluator.evaluate_formula. now rewrite H. }
  split; [exact callable_first_table|].
  split; [exact callable_second_table|].
  intros globals name args H. simpl. now rewrite H.
Qed.

Lemma formula_functions_example :
  V2FormulaEvaluator._resolve_variable_references "2^3 + sqrt(16)" []
  = Returns "2^3 + sqrt(16)"
  /\ V2FormulaEvaluator.evaluate_formula "2^3 + sqrt(16)" []
     = Returns (PyFloat.of_Z 12)
  /\ callable V2FormulaEvaluator.safe_dict "sqrt"
  /\ Dict.get V2FormulaEvaluator.safe_dict "pow" = None
  /\ PyEval.eval_expr V2FormulaEvaluator.safe_dict
       (PyEval.ECall (PyEval.EName "pow")
          [PyEval.ENum (VInt 2); PyEval.ENum (VInt 3)])
     = Raises (PyEval.name_error "pow").
Proof.
  split; [reflexivity|].
  split.
  { rewrite (proj1 (proj2 formula_functions) "2^3 + sqrt(16)" []
               "2^3 + sqrt(16)" eq_refl).
    vm_compute. reflexivity. }
  split.
  { apply (proj2 (proj1 (proj2 (proj2 (proj2 formula_functions))) "sqrt")).
    simpl. tauto. }
  split; [reflexivity|].
  apply (proj2 (proj2 (proj2 (proj2 (proj2 formula_functions)))
                  V2FormulaEvaluator.safe_dict "pow"
                  [PyEval.ENum (VInt 2); PyEval.ENum (VInt 3)] eq_refl)).
Defined.

End FunctionTables.

(** ** References to solutions that do not exist *)

Module MissingSolution.

Import Statements.

Import V2 V2FormulaEvaluator.

Section Registry.
Variable reg : registry.

Lemma replace_reference_total variable_name solution_name :
  (exists text, replace_reference reg variable_name solution_name = Returns text)
  \/ (exists msg, replace_reference reg variable_name solution_name = Raises msg).
Proof.
  unfold replace_reference.
  destruct (Dict.get reg solution_name) as [solution|]; [|right; eauto].
  destruct (V2Solution.get_variable solution variable_name) as [variable|];
    [|right; eauto].
  destruct (if V2Variable.is_formula variable
            then V2Variable.get_cached_value variable
            else V2Variable.value variable); eauto.
Qed.

Lemma replace_reference_missing variable_name solution_name :
  Dict.get reg solution_name = None ->
  replace_reference reg variable_name solution_name
  = Raises (solution_not_found solution_name).
Proof. intros H. unfold replace_reference. now rewrite H. Qed.

(** The substitution raises what the first reference that is not
    replaced raises. *)
Lemma sub_refs_first_failure s :
  forall skip pre v sol post msg,
    Regex.findall_refs skip s = (pre ++ (v, sol) :: post)%list ->
    Forall (resolves reg) pre ->
    replace_reference reg v sol = Raises msg ->
    Regex.sub_refs (replace_reference reg) skip s = Raises msg.
Proof.
  induction s as [|c r IH]; intros skip pre v sol post msg Hall Hpre Hfail.
  - destruct pre; discriminate.
  - cbn [Regex.findall_refs Regex.sub_refs] in *.
    destruct skip as [|k]; [|eapply IH; eauto].
    destruct (Regex.ref_at (String c r)) as [[v0 sol0]|] eqn:Href.
    + destruct pre as [|m pre'].
      * simpl in Hall. injection Hall as -> -> _. now rewrite Hfail.
      * simpl in Hall. injection Hall as <- Hall.
        inversion Hpre as [|? ? [text Htext] Hpre']; subst. simpl in Htext.
        rewrite Htext. erewrite IH; eauto.
    + erewrite IH; eauto.
Qed.

(** A list of references is replaced throughout, or has a first
    reference that raises. *)
Lemma first_failure (l : list (string * string)) :
  Forall (resolves reg) l
  \/ exists pre m post msg,
      l = (pre ++ m :: post)%list /\ Forall (resolves reg) pre
      /\ replace_reference reg (fst m) (snd m) = Raises msg.
Proof.
  induction l as [|m l IH]; [left; constructor|].
  destruct (replace_reference_total (fst m) (snd m)) as [Hok | [msg Hmsg]].
  - destruct IH as [Hall | (pre & m' & post & msg & -> & Hpre & Hfail)].
    + left. now constructor.
    + right. exists (m :: pre), m', post, msg. repeat split; auto.
  - right. exists [], m, l, msg. repeat split; auto.
Qed.

Lemma resolves_known m : resolves reg m -> Dict.get reg (snd m) <> None.
Proof.
  intros [text H] Hnone. rewrite replace_reference_missing in H by assumption.
  discriminate.
Qed.

(** With a reference to a solution the registry does not hold, the
    substitution raises. *)
Lemma sub_refs_missing_solution formula :
  Exists (fun m => Dict.get reg (snd m) = None) (Regex.findall_refs 0 formula) ->
  exists msg,
    _resolve_variable_references formula reg = Raises msg.
Proof.
  intros Hex. unfold _resolve_variable_references.
  destruct (first_failure (Regex.findall_refs 0 formula))
    as [Hall | (pre & [v sol] & post & msg & Heq & Hpre & Hfail)].
  - exfalso. apply Exists_exists in Hex. destruct Hex as [m [Hin Hnone]].
    rewrite Forall_forall in Hall. now apply (resolves_known m (Hall m Hin)).
  - exists msg. eapply sub_refs_first_failure; eauto.
Qed.

End Registry.

(** C7, as the code has it: a formula variable with a cached value,
    read again with a registry that lacks a solution its formula
    refers to, records an error and keeps the cached value, which is
    what this read and the next one return.  The error is the one of
    the first reference, from the left, that is not replaced by a
    number: it is "Solution ... not found" when the references before
    the missing one all are. *)
Theorem missing_solution_keeps_cache :
  forall (self : V2Variable.t) (formula : string) (cached : PyFloat.pyfloat)
         (reg : registry),
    V2Variable.is_formula self = true ->
    V2Variable.formula self = Some formula ->
    V2Variable.last_computed_value self = Some cached ->
    Exists (fun m => Dict.get reg (snd m) = None) (Regex.findall_refs 0 formula) ->
    exists msg self',
      get_computed_value self (Some reg) = Returns (self', VFloat cached)
      /\ V2Variable.computation_error self' = Some (error_evaluating formula msg)
      /\ V2Variable.last_computed_value self' = Some cached
      /\ get_computed_value self' None = Returns (self', VFloat cached)
      /\ (forall pre v sol post,
             Regex.findall_refs 0 formula = (pre ++ (v, sol) :: post)%list ->
             Forall (resolves reg) pre ->
             Dict.get reg sol = None ->
             msg = solution_not_found sol).
Proof.
  intros self formula cached reg Hisf Hformula Hcached Hex.
  destruct (sub_refs_missing_solution reg formula Hex) as [msg Hmsg].
  exists msg.
  exists (V2Variable.mk (V2Variable.name self) (V2Variable.solution_name self)
            (V2Variable._value self) (V2Variable.is_formula self)
            (V2Variable.formula self) (V2Variable.dependencies self)
            (V2Variable.last_computed_value self)
            (Some (error_evaluating formula msg)) (V2Variable.lives self)).
  split.
  { unfold get_computed_value. rewrite Hisf, Hformula. simpl negb. cbv iota.
    unfold evaluate_formula. rewrite Hmsg.
    unfold V2Variable.cached. rewrite Hcached. reflexivity. }
  split; [reflexivity|]. split; [exact Hcached|].
  split.
  - unfold get_computed_value. cbn [V2Variable.is_formula]. rewrite Hisf.
    simpl negb. cbv iota. unfold V2Variable.cached.
    cbn [V2Variable.last_computed_value]. rewrite Hcached. reflexivity.
  - intros pre v sol post Heq Hpre Hnone.
    unfold _resolve_variable_references in Hmsg.
    rewrite (sub_refs_first_failure reg formula 0 pre v sol post
               (solution_not_found sol) Heq Hpre
               (replace_reference_missing reg v sol Hnone)) in Hmsg.
    now injection Hmsg as <-.
Qed.

(** The formula refers to the missing solution [nosuch], but first to
    [a.p], and [p] has no [a]: the error recorded is about the
    variable, not about the solution.  The cache is kept. *)
Lemma earlier_reference_fails_first :
  Exists (fun m => Dict.get only_p (snd m) = None)
         (Regex.findall_refs 0 "a.p + b.nosuch")
  /\ get_computed_value (holds_seven "a.p + b.nosuch") (Some only_p)
     = Returns
         (V2Variable.mk "r" "res" VNone true (Some "a.p + b.nosuch")
            ["a.p"; "b.nosuch"] (Some seven)
            (Some "Error evaluating formula 'a.p + b.nosuch': Variable 'a' not found in solution 'p'")
            InSolution,
          VFloat seven).
Proof.
  split; [|reflexivity].
  apply Exists_cons_tl. apply Exists_cons_hd. reflexivity.
Qed.

Lemma missing_solution_example :
  Exists (fun m => Dict.get only_p (snd m) = None)
         (Regex.findall_refs 0 "w.p - x.nosuch")
  /\ exists msg self',
      get_computed_value (holds_seven "w.p - x.nosuch") (Some only_p)
      = Returns (self', VFloat seven)
      /\ V2Variable.computation_error self'
         = Some (error_evaluating "w.p - x.nosuch" msg)
      /\ V2Variable.last_computed_value self' = Some seven
      /\ get_computed_value self' None = Returns (self', VFloat seven)
      /\ (forall pre v sol post,
             Regex.findall_refs 0 "w.p - x.nosuch" = (pre ++ (v, sol) :: post)%list ->
             Forall (resolves only_p) pre ->
             Dict.get only_p sol = None ->
             msg = solution_not_found sol).
Proof.
  assert (H : Exists (fun m => Dict.get only_p (snd m) = None)
                     (Regex.findall_refs 0 "w.p - x.nosuch")).
  { apply Exists_cons_tl. apply Exists_cons_hd. reflexivity. }
  split; [exact H|].
  apply (missing_solution_keeps_cache (holds_seven "w.p - x.nosuch")
           "w.p - x.nosuch" seven only_p);
    [reflexivity | reflexivity | reflexivity | exact H].
Defined.

End MissingSolution.

(** ** Integers and their decimal writing *)

Module IntFacts.

Import Statements.

Import PyStr PyInt.
Open Scope Z_scope.

Lemma digit_run_digit acc cnt c r :
  is_ascii_digit c = true ->
  digit_run acc cnt (String c r) = digit_run (10 * acc + digit_val c) (cnt + 1) r.
Proof. intros H. simpl. now rewrite H. Qed.

Lemma digit_run_end acc cnt rest :
  ends_digits rest -> digit_run acc cnt rest = (acc, cnt, rest).
Proof.
  destruct rest as [|c r]; [reflexivity|]. intros [Hd Hu]. simpl.
  now rewrite Hd, Hu.
Qed.

Lemma digit_run_uint u :
  forall acc cnt rest,
    ends_digits rest ->
    exists cnt',
      digit_run acc cnt (NilEmpty.string_of_uint u ++ rest)%string
      = (uint_val acc u, cnt', rest).
Proof.
  induction u; intros acc cnt rest Hrest;
    cbn [NilEmpty.string_of_uint String.append uint_val];
    try (rewrite digit_run_digit by reflexivity; apply IHu; exact Hrest).
  exists cnt. now apply digit_run_end.
Qed.

Lemma of_uint_acc_val u :
  forall acc, Z.pos (Pos.of_uint_acc u acc) = uint_val (Z.pos acc) u.
Proof.
  induction u; intros acc; cbn [Pos.of_uint_acc uint_val];
    try reflexivity; rewrite IHu; f_equal; lia.
Qed.

Lemma of_uint_val u : Z.of_N (Pos.of_uint u) = uint_val 0 u.
Proof.
  induction u; cbn [Pos.of_uint uint_val]; try reflexivity;
    try exact IHu; cbn [Z.of_N]; rewrite of_uint_acc_val; reflexivity.
Qed.

Lemma to_uint_val p : uint_val 0 (Pos.to_uint p) = Z.pos p.
Proof. rewrite <- of_uint_val. now rewrite DecimalPos.Unsigned.of_to. Qed.

(** What [str] writes: a sign for a negative number, and digits that
    denote its absolute value. *)
Lemma str_of_Z_shape z :
  exists (negative : bool) (u : Decimal.uint),
    u <> Decimal.Nil
    /\ str_of_Z z
       = ((if negative then "-" else "") ++ NilEmpty.string_of_uint u)%string
    /\ z = if negative then - uint_val 0 u else uint_val 0 u.
Proof.
  destruct z as [|p|p].
  - exists false, (Decimal.D0 Decimal.Nil). repeat split. discriminate.
  - exists false, (Pos.to_uint p).
    pose proof (DecimalPos.Unsigned.to_uint_nonnil p) as Hnil.
    repeat split; [exact Hnil | | now rewrite to_uint_val].
    unfold str_of_Z. cbn [Z.to_int NilZero.string_of_int].
    unfold NilZero.string_of_uint.
    destruct (Pos.to_uint p); try reflexivity; congruence.
  - exists true, (Pos.to_uint p).
    pose proof (DecimalPos.Unsigned.to_uint_nonnil p) as Hnil.
    repeat split; [exact Hnil | | now rewrite to_uint_val].
    unfold str_of_Z. cbn [Z.to_int NilZero.string_of_int].
    unfold NilZero.string_of_uint.
    destruct (Pos.to_uint p); try reflexivity; congruence.
Qed.

Lemma digit_is_plain c :
  is_ascii_digit c = true ->
  num_space c = false /\ Ascii.eqb c "+" = false /\ Ascii.eqb c "-" = false
  /\ isspace c = false /\ Ascii.eqb "." c = false.
Proof.
  destruct c as [[] [] [] [] [] [] [] []]; vm_compute; intros H;
    try discriminate H; repeat split.
Qed.

Lemma string_of_uint_head u :
  u <> Decimal.Nil ->
  exists c r, NilEmpty.string_of_uint u = String c r /\ is_ascii_digit c = true.
Proof.
  destruct u; intros H; try congruence; cbn [NilEmpty.string_of_uint];
    eexists; eexists; split; reflexivity.
Qed.

(** [int] reads a written integer followed by [rest]: the integer
    when [rest] is white space, nothing otherwise. *)
Lemma py_int_written z rest :
  ends_digits rest ->
  py_int (str_of_Z z ++ rest)
  = if only_space rest then Some z else None.
Proof.
  intros Hrest.
  destruct (str_of_Z_shape z) as (negative & u & Hnil & -> & ->).
  destruct (string_of_uint_head u Hnil) as (c & r & Hu & Hc).
  destruct (digit_is_plain c Hc) as (Hsp & Hplus & Hminus & _).
  destruct (digit_run_uint u 0 0 rest Hrest) as [cnt' Hrun].
  unfold py_int. destruct negative.
  - cbn [String.append skip_space]. change (num_space "-") with false.
    cbn iota. unfold take_sign. change (Ascii.eqb "-" "+") with false.
    change (Ascii.eqb "-" "-") with true. cbn iota.
    assert (Hpart : digitpart 0 0 (NilEmpty.string_of_uint u ++ rest)
                    = Some (uint_val 0 u, cnt', rest)).
    { rewrite <- Hrun. rewrite Hu. cbn [String.append]. unfold digitpart.
      rewrite Hc. now rewrite digit_run_digit. }
    rewrite Hpart. reflexivity.
  - cbn [String.append]. rewrite Hu. cbn [String.append skip_space].
    rewrite Hsp. unfold take_sign. rewrite Hplus, Hminus.
    assert (Hpart : digitpart 0 0 (String c (r ++ rest))
                    = Some (uint_val 0 u, cnt', rest)).
    { rewrite <- Hrun. rewrite Hu. cbn [String.append]. unfold digitpart.
      rewrite Hc. now rewrite digit_run_digit. }
    rewrite Hpart. reflexivity.
Qed.

(** What [str] writes, [int] reads back; and [int] refuses it when a
    point follows. *)
Lemma py_int_str_of_Z z : py_int (str_of_Z z) = Some z.
Proof.
  rewrite <- (StrFacts.append_empty_r (str_of_Z z)).
  now rewrite py_int_written.
Qed.

Lemma py_int_before_point z rest :
  py_int (str_of_Z z ++ String "." rest) = None.
Proof. rewrite py_int_written; [reflexivity | split; reflexivity]. Qed.

Lemma string_of_uint_written u :
  PyStr.forallb written (NilEmpty.string_of_uint u) = true.
Proof. induction u; cbn [NilEmpty.string_of_uint PyStr.forallb]; auto. Qed.

Lemma str_of_Z_written z : PyStr.forallb written (str_of_Z z) = true.
Proof.
  destruct (str_of_Z_shape z) as (negative & u & _ & -> & _).
  rewrite StrFacts.forallb_app, string_of_uint_written.
  now destruct negative.
Qed.

Lemma written_plain c :
  written c = true -> isspace c = false /\ Ascii.eqb "." c = false.
Proof.
  destruct c as [[] [] [] [] [] [] [] []]; vm_compute; intros H;
    try discriminate H; repeat split.
Qed.

End IntFacts.

(** ** The three addresses of a hybrid variable *)

Module AddressForms.

Import Statements.

Import PyStr V2 Hybrid StrFacts IntFacts DictFacts.

Lemma rstrip_cons c r :
  isspace c = false -> rstrip (String c r) = String c (rstrip r).
Proof.
  intros H. cbn [rstrip]. rewrite H. now destruct (rstrip r).
Qed.

Lemma rstrip_app a b :
  PyStr.forallb (fun c => negb (isspace c)) a = true ->
  rstrip (a ++ b) = a ++ rstrip b.
Proof.
  induction a as [|c r IH]; intros H; [reflexivity|].
  cbn [PyStr.forallb] in H. apply andb_prop in H. destruct H as [Hc Hr].
  apply negb_true_iff in Hc. cbn [String.append].
  rewrite rstrip_cons by assumption. now rewrite IH.
Qed.

Lemma split_head c a b :
  contains c a = false -> split c (a ++ String c b) = a :: split c b.
Proof.
  induction a as [|d r IH]; intros H; cbn [String.append split].
  - now rewrite Ascii.eqb_refl.
  - cbn [contains] in H. apply orb_false_elim in H. destruct H as [Hd Hr].
    rewrite Hd. now rewrite IH.
Qed.

Lemma forallb_impl (p q : ascii -> bool) s :
  (forall c, p c = true -> q c = true) ->
  PyStr.forallb p s = true -> PyStr.forallb q s = true.
Proof.
  intros Hpq. induction s as [|c r IH]; [reflexivity|].
  cbn [PyStr.forallb]. intros H. apply andb_prop in H. destruct H as [Hc Hr].
  now rewrite (Hpq c Hc), IH.
Qed.

(** The legacy reference survives [strip] but for white space at the
    end of the name. *)
Lemma strip_legacy_full_id z name :
  strip ("#" ++ PyInt.str_of_Z z ++ "." ++ name)
  = String "#" (PyInt.str_of_Z z ++ String "." (rstrip name)).
Proof.
  unfold strip. cbn [String.append lstrip]. change (isspace "#") with false.
  cbn iota. rewrite rstrip_cons by reflexivity. f_equal.
  rewrite rstrip_app.
  - now rewrite rstrip_cons by reflexivity.
  - eapply forallb_impl; [|apply str_of_Z_written].
    intros c Hc. now rewrite (proj1 (written_plain c Hc)).
Qed.

Lemma no_point_in_written z : contains "." (PyInt.str_of_Z z) = false.
Proof.
  eapply forallb_contains; [apply str_of_Z_written|].
  destruct (written ".") eqn:E; [discriminate E | reflexivity].
Qed.

Lemma values_set {V : Type} (d : Dict.t V) k x v :
  In v (Dict.values (Dict.set d k x)) -> v = x \/ In v (Dict.values d).
Proof.
  unfold Dict.values. induction d as [|[k' v'] d IH]; cbn [Dict.set map In].
  - intros [<- | []]. now left.
  - destruct (String.eqb k k'); cbn [map In].
    + intros [<- | H]; auto.
    + intros [<- | H]; auto. destruct (IH H); auto.
Qed.

Lemma empty_world_well_formed : all_well_formed empty_world.
Proof. intros n s H. discriminate H. Qed.

Lemma new_solution_well_formed w name :
  all_well_formed w -> all_well_formed (new_solution w name).
Proof.
  intros Hw n s. unfold new_solution. cbn [solutions].
  destruct (String.eqb n name) eqn:E.
  - apply String.eqb_eq in E. subst n. rewrite get_set_same.
    intros [= <-]. split; [intros v Hv | intros v v' Hv]; destruct Hv.
  - apply String.eqb_neq in E. rewrite get_set_other by assumption. apply Hw.
Qed.

Lemma create_variable_well_formed w me vname value var_type aliases w' hv :
  create_variable w me vname value var_type aliases = Some (w', hv) ->
  all_well_formed w -> all_well_formed w'.
Proof.
  unfold create_variable.
  destruct (Dict.get (solutions w) me) as [self|] eqn:Hself; [|discriminate].
  destruct (Dict.get (v2_solutions w) me) as [v2|]; [|discriminate].
  intros [= <- <-] Hw n s. cbn [solutions].
  destruct (String.eqb n me) eqn:E.
  - apply String.eqb_eq in E. subst n. rewrite get_set_same. intros [= <-].
    destruct (Hw me self Hself) as [Hlt Hdistinct].
    unfold well_formed, HybridSolution.get_all_variables.
    cbn [HybridSolution.variables HybridSolution.next_variable_id]. split.
    + intros v Hv. apply values_set in Hv. destruct Hv as [-> | Hv].
      * cbn. lia.
      * specialize (Hlt v Hv). lia.
    + intros v v' Hv Hv' Hid.
      apply values_set in Hv. apply values_set in Hv'.
      destruct Hv as [-> | Hv], Hv' as [-> | Hv']; auto.
      * specialize (Hlt v' Hv'). cbn in Hid. lia.
      * specialize (Hlt v Hv). cbn in Hid. lia.
  - apply String.eqb_neq in E. rewrite get_set_other by assumption. apply Hw.
Qed.

Lemma execute_v2_expression_solutions w me expression :
  match execute_v2_expression w me expression with
  | Done w' | Failed w' _ => solutions w' = solutions w
  | Unknown => True
  end.
Proof.
  unfold execute_v2_expression.
  destruct (Dict.get (solutions w) me) as [self|]; [|exact I].
  destruct (execute_registered (v2_solutions w) me expression) as [reg|reg msg|];
    try exact I; try reflexivity.
  destruct (parse_expression expression) as [[| | |]| |]; try reflexivity.
  destruct (Dict.get reg me); try reflexivity.
  destruct (get_variable_by_reference self t variable); reflexivity.
Qed.

Lemma by_id_found self var :
  well_formed self ->
  In var (HybridSolution.get_all_variables self) ->
  by_id self (HybridVariable.variable_id var) = Some var.
Proof.
  intros [_ Hdistinct] Hin. unfold by_id.
  destruct (find _ _) as [x|] eqn:Hfind.
  - apply find_some in Hfind. destruct Hfind as [Hx Hid].
    apply Z.eqb_eq in Hid. f_equal. now apply Hdistinct.
  - apply (find_none _ _ Hfind) in Hin. now rewrite Z.eqb_refl in Hin.
Qed.

(** C3, as the code has it: the legacy reference [#id.name] of a
    variable stored in a solution resolves to that variable, whatever
    its name, provided no variable of the solution has a name that
    begins with [#].  (The write id and the read id are no forms the
    resolver knows.) *)
Theorem legacy_reference_resolves :
  forall (self : HybridSolution.t) (v2_solution : V2Solution.t)
         (key : string) (var : HybridVariable.t),
    well_formed self ->
    Forall (fun k => startswith "#" k = false)
           (Dict.keys (HybridSolution.variables self)) ->
    Dict.get (HybridSolution.variables self) key = Some var ->
    get_variable_by_reference self v2_solution (HybridVariable.legacy_full_id var)
    = Some var.
Proof.
  intros self v2_solution key var Hwf Hnames Hvar.
  unfold get_variable_by_reference, HybridVariable.legacy_full_id.
  rewrite strip_legacy_full_id.
  set (ds := PyInt.str_of_Z (HybridVariable.variable_id var)).
  set (nm := rstrip (HybridVariable.name var)).
  assert (Hmem : Dict.mem (HybridSolution.variables self)
                   (String "#" (ds ++ String "." nm)) = false).
  { destruct (Dict.mem _ _) eqn:E; [|reflexivity].
    apply mem_In_keys in E. rewrite Forall_forall in Hnames.
    specialize (Hnames _ E). discriminate Hnames. }
  rewrite Hmem. unfold by_other_reference.
  cbn [startswith tail]. change (Ascii.eqb "#" "#") with true. cbn iota.
  unfold ds at 1. rewrite py_int_before_point. fold ds.
  assert (Hpoint : contains "." (String "#" (ds ++ String "." nm)) = true).
  { cbn [contains]. rewrite contains_app. cbn [contains].
    rewrite Ascii.eqb_refl. now rewrite !orb_true_r. }
  rewrite Hpoint. cbn [andb].
  change (String "#" (ds ++ String "." nm))
    with (String "#" ds ++ String "." nm).
  rewrite split_head.
  - cbn [hd tail]. unfold ds. rewrite py_int_str_of_Z.
    rewrite (by_id_found self var Hwf); [reflexivity|].
    eapply get_In_values; eauto.
  - cbn [contains]. unfold ds. now rewrite no_point_in_written.
Qed.

(** The write id and the read id of [length] resolve to nothing; its
    name, its aliases and its legacy forms resolve to it. *)
Lemma write_and_read_id_do_not_resolve :
  Dict.get (solutions panel_world) "panel" = Some panel
  /\ Dict.get (v2_solutions panel_world) "panel" = Some panel_v2
  /\ Dict.get (HybridSolution.variables panel) "length" = Some length_var
  /\ HybridVariable.new_write_id length_var = "length@panel"
  /\ get_variable_by_reference panel panel_v2 "length@panel" = None
  /\ HybridVariable.new_read_id length_var = "length.panel"
  /\ get_variable_by_reference panel panel_v2 "length.panel" = None
  /\ HybridVariable.legacy_full_id length_var = "#1.length"
  /\ get_variable_by_reference panel panel_v2 "#1.length" = Some length_var
  /\ get_variable_by_reference panel panel_v2 "#1" = Some length_var
  /\ get_variable_by_reference panel panel_v2 "length" = Some length_var
  /\ get_variable_by_reference panel panel_v2 "len" = Some length_var.
Proof. repeat split; vm_compute; reflexivity. Qed.

Lemma panel_well_formed : well_formed panel.
Proof.
  assert (H : all_well_formed panel_world).
  { unfold panel_world.
    destruct (create_variable (new_solution empty_world "panel") "panel" "length"
                (VInt 600) CONTROLLABLE ["L"; "len"]) as [[w hv]|] eqn:E.
    - eapply create_variable_well_formed; [exact E|].
      apply new_solution_well_formed, empty_world_well_formed.
    - apply empty_world_well_formed. }
  apply (H "panel"). reflexivity.
Defined.

Lemma legacy_reference_resolves_example :
  get_variable_by_reference panel panel_v2 (HybridVariable.legacy_full_id length_var)
  = Some length_var.
Proof.
  apply (legacy_reference_resolves panel panel_v2 "length" length_var).
  - exact panel_well_formed.
  - repeat constructor.
  - reflexivity.
Defined.

End AddressForms.

(** ** What [execute] does with each kind of statement *)

Module Dispatch.

Import Statements.

Import PyStr V2 Hybrid DictFacts.

(** The classifier returns an alias only if it is a valid one. *)
Lemma parsed_alias_is_valid expression alias value :
  parse_expression expression = Returns (Alias alias value) ->
  _is_valid_alias alias = true.
Proof.
  unfold parse_expression.
  destruct (Regex.match_assignment (strip expression)) as [[[? ?] ?]|].
  { destruct (_contains_variable_references s1); discriminate. }
  destruct (Regex.match_read (strip expression)) as [[[? ?] ?]|];
    [discriminate|].
  destruct (Regex.match_alias (strip expression)) as [[al ve]|]; [|discriminate].
  destruct (_is_valid_alias al) eqn:E; [|discriminate].
  cbn [negb]. now intros [= <- _].
Qed.

(** The dependencies the classifier returns are the references of the
    formula. *)
Lemma parsed_formula_dependencies expression variable solution formula deps :
  parse_expression expression = Returns (Formula variable solution formula deps) ->
  deps = extract_variable_references formula.
Proof.
  unfold parse_expression.
  destruct (Regex.match_assignment (strip expression)) as [[[? ?] ?]|].
  { destruct (_contains_variable_references s1); [|discriminate].
    now intros [= _ _ <- <-]. }
  destruct (Regex.match_read (strip expression)) as [[[? ?] ?]|];
    [discriminate|].
  destruct (Regex.match_alias (strip expression)) as [[al ve]|]; [|discriminate].
  destruct (negb (_is_valid_alias al)); discriminate.
Qed.

Lemma ensure_variable_holds self var_name :
  exists v,
    Dict.get (V2Solution.variables (ensure_variable self var_name)) var_name
    = Some v
    /\ V2Solution.aliases (ensure_variable self var_name) = V2Solution.aliases self
    /\ V2Solution.name (ensure_variable self var_name) = V2Solution.name self.
Proof.
  unfold ensure_variable, Dict.mem.
  destruct (Dict.get (V2Solution.variables self) var_name) as [v|] eqn:E;
    cbn [negb].
  - exists v. auto.
  - cbn [fst V2Solution.create_variable V2Solution.variables
         V2Solution.aliases V2Solution.name].
    rewrite get_set_same. eauto.
Qed.

(** An assignment to the executing solution leaves the variable a
    literal holding the value. *)
Lemma execute_assignment self expression registry_with var_name value :
  parse_expression expression
  = Returns (Assignment var_name (V2Solution.name self) value) ->
  exists self' v,
    execute_expression self expression registry_with = Done self'
    /\ Dict.get (V2Solution.variables self') var_name = Some v
    /\ V2Variable._value v = value
    /\ V2Variable.value v = value
    /\ V2Variable.is_formula v = false
    /\ V2Variable.computation_error v = None
    /\ V2Solution.aliases self' = V2Solution.aliases self.
Proof.
  intros Hparse. unfold execute_expression. rewrite Hparse.
  rewrite String.eqb_refl. cbn [negb].
  destruct (ensure_variable_holds self var_name) as (v & Hv & Hal & _).
  rewrite Hv. eexists. eexists. split; [reflexivity|].
  cbn [V2Solution.store V2Solution.variables V2Solution.aliases].
  rewrite get_set_same. split; [reflexivity|]. cbn. auto.
Qed.

(** A formula for the executing solution leaves the variable a
    formula with the text and its references, unless its evaluation
    leaves the modelled fragment; it never raises. *)
Lemma execute_formula self expression registry_with var_name formula deps :
  parse_expression expression
  = Returns (Formula var_name (V2Solution.name self) formula deps) ->
  match execute_expression self expression registry_with with
  | Done self' =>
      exists v,
        Dict.get (V2Solution.variables self') var_name = Some v
        /\ V2Variable.is_formula v = true
        /\ V2Variable.formula v = Some formula
        /\ V2Variable.dependencies v = deps
        /\ (V2Variable.computation_error v = None
            \/ V2Variable.last_computed_value v = Some (S754_zero false))
        /\ V2Solution.aliases self' = V2Solution.aliases self
  | Failed _ _ => False
  | Unknown => True
  end.
Proof.
  intros Hparse. pose proof (parsed_formula_dependencies _ _ _ _ _ Hparse) as ->.
  unfold execute_expression. rewrite Hparse.
  rewrite String.eqb_refl. cbn [negb].
  destruct (ensure_variable_holds self var_name) as (v & Hv & Hal & _).
  rewrite Hv. unfold set_formula.
  destruct (V2FormulaEvaluator.evaluate_formula _ _); [| |exact I].
  - eexists. cbn [V2Solution.store V2Solution.variables V2Solution.aliases].
    rewrite get_set_same. split; [reflexivity|]. cbn. auto 10.
  - eexists. cbn [V2Solution.store V2Solution.variables V2Solution.aliases].
    rewrite get_set_same. split; [reflexivity|]. cbn. auto 10.
Qed.

(** An alias that is neither a variable nor an alias yet: the variable
    [_alias_<alias>] is created with the value and the alias bound to
    it. *)
Lemma execute_new_alias self expression registry_with alias value :
  parse_expression expression = Returns (Alias alias value) ->
  Dict.mem (V2Solution.variables self) alias = false ->
  Dict.mem (V2Solution.aliases self) alias = false ->
  exists self' v,
    execute_expression self expression registry_with = Done self'
    /\ Dict.get (V2Solution.variables self') ("_alias_" ++ alias) = Some v
    /\ V2Variable.value v = value
    /\ V2Solution.aliases self'
       = Dict.set (V2Solution.aliases self) alias ("_alias_" ++ alias)
    /\ V2Solution.get_variable self' alias = Some v.
Proof.
  intros Hparse Hvar Hal. pose proof (parsed_alias_is_valid _ _ _ Hparse) as Hvalid.
  unfold execute_expression. rewrite Hparse, Hvar, Hal. cbn [negb andb].
  unfold V2Solution.create_variable, V2Solution.store, V2Solution.set_alias,
    V2Variable.init, V2Variable.set_value.
  cbn [V2Variable.name V2Variable.solution_name V2Variable.lives
       V2Variable.last_computed_value V2Solution.variables V2Solution.name
       V2Solution.aliases].
  rewrite Hvalid. cbn [negb]. rewrite mem_set_same. cbn [negb].
  eexists. eexists. split; [reflexivity|].
  cbn [V2Solution.variables V2Solution.aliases].
  rewrite get_set_same. split; [reflexivity|]. split; [reflexivity|].
  split; [reflexivity|].
  unfold V2Solution.get_variable. cbn [V2Solution.variables V2Solution.aliases].
  assert (Hother : alias <> "_alias_" ++ alias).
  { intros Hsame. apply (f_equal String.length) in Hsame. cbn in Hsame. lia. }
  unfold Dict.mem at 1. rewrite !get_set_other by assumption.
  unfold Dict.mem in Hvar.
  destruct (Dict.get (V2Solution.variables self) alias); [discriminate|].
  rewrite get_set_same. now rewrite get_set_same.
Qed.

(** An alias that is a variable or an alias already: the value goes
    to the variable it stands for; the alias table is not touched. *)
Lemma execute_known_alias self expression registry_with alias value :
  parse_expression expression = Returns (Alias alias value) ->
  Dict.mem (V2Solution.variables self) alias = true
  \/ Dict.mem (V2Solution.aliases self) alias = true ->
  exists self',
    execute_expression self expression registry_with = Done self'
    /\ V2Solution.aliases self' = V2Solution.aliases self
    /\ (forall key,
           variable_key self alias = Some key ->
           exists v,
             Dict.get (V2Solution.variables self') key = Some v
             /\ V2Variable.value v = value).
Proof.
  intros Hparse Hknown. unfold execute_expression. rewrite Hparse.
  assert (Htest : negb (Dict.mem (V2Solution.variables self) alias)
                  && negb (Dict.mem (V2Solution.aliases self) alias) = false).
  { destruct Hknown as [-> | ->]; [reflexivity | now rewrite andb_false_r]. }
  rewrite Htest.
  destruct (variable_key self alias) as [key|] eqn:Hkey.
  - destruct (Dict.get (V2Solution.variables self) key) as [var|] eqn:Hvar.
    + eexists. split; [reflexivity|]. split; [reflexivity|].
      intros key' [= <-]. eexists.
      cbn [V2Solution.store V2Solution.variables]. rewrite get_set_same.
      split; reflexivity.
    + exfalso. unfold variable_key in Hkey.
      destruct (Dict.mem (V2Solution.variables self) alias) eqn:E.
      * injection Hkey as <-. unfold Dict.mem in E. now rewrite Hvar in E.
      * destruct (Dict.get (V2Solution.aliases self) alias); [|discriminate].
        destruct (Dict.mem (V2Solution.variables self) s) eqn:E'; [|discriminate].
        injection Hkey as <-. unfold Dict.mem in E'. now rewrite Hvar in E'.
  - eexists. split; [reflexivity|]. split; [reflexivity|]. discriminate.
Qed.

Lemma execute_read self expression registry_with target source_var source_solution :
  parse_expression expression = Returns (Read target source_var source_solution) ->
  execute_expression self expression registry_with
  = Failed self "Cannot execute expression type: ExpressionType.READ".
Proof. intros Hparse. unfold execute_expression. now rewrite Hparse. Qed.

Lemma execute_registered_keeps_me reg me expression reg' :
  execute_registered reg me expression = Done reg' ->
  exists v2, Dict.get reg' me = Some v2.
Proof.
  unfold execute_registered. destruct (Dict.get reg me); [|discriminate].
  destruct (execute_expression _ _ _); try discriminate.
  intros [= <-]. rewrite get_set_same. eauto.
Qed.

(** The hybrid solution registers the references of a formula under
    the read id of the hybrid variable the name resolves to, when it
    resolves to one; else the tracker is left as it was. *)
Lemma execute_v2_formula_registers w me expression self var_name solution formula
      deps reg' :
  Dict.get (solutions w) me = Some self ->
  parse_expression expression = Returns (Formula var_name solution formula deps) ->
  execute_registered (v2_solutions w) me expression = Done reg' ->
  exists v2,
    Dict.get reg' me = Some v2
    /\ execute_v2_expression w me expression
       = Done (mkWorld (solutions w) reg'
                 match get_variable_by_reference self v2 var_name with
                 | Some var =>
                     V2DependencyTracker.add_dependency (tracker w)
                       (HybridVariable.new_read_id var) deps
                 | None => tracker w
                 end).
Proof.
  intros Hself Hparse Hexec.
  destruct (execute_registered_keeps_me _ _ _ _ Hexec) as [v2 Hv2].
  exists v2. split; [exact Hv2|].
  unfold execute_v2_expression. rewrite Hself, Hexec, Hparse, Hv2.
  now destruct (get_variable_by_reference self v2 var_name).
Qed.

Lemma add_dependency_stored t variable_id deps :
  V2DependencyTracker.get_dependencies
    (V2DependencyTracker.add_dependency t variable_id deps) variable_id = deps.
Proof.
  unfold V2DependencyTracker.get_dependencies, V2DependencyTracker.add_dependency.
  cbn [V2DependencyTracker.dependency_graph]. now rewrite get_set_same.
Qed.

(** C4, as the code has it.  [execute_expression] treats a statement
    by its type: an assignment or a formula for the executing solution
    creates or updates the variable; an alias that is new creates the
    variable [_alias_<alias>] and binds the alias to it, an alias that
    is known only passes the value to the variable it stands for; a
    read statement is refused.  Nothing is registered with the
    dependency tracker there: the hybrid solution does it after a
    formula, under the read id of the hybrid variable the name
    resolves to, when there is one. *)
Theorem execute_dispatches_by_type :
  (forall self expression registry_with var_name value,
      parse_expression expression
      = Returns (Assignment var_name (V2Solution.name self) value) ->
      exists self' v,
        execute_expression self expression registry_with = Done self'
        /\ Dict.get (V2Solution.variables self') var_name = Some v
        /\ V2Variable._value v = value
        /\ V2Variable.value v = value
        /\ V2Variable.is_formula v = false
        /\ V2Variable.computation_error v = None
        /\ V2Solution.aliases self' = V2Solution.aliases self)
  /\ (forall self expression registry_with var_name formula deps,
         parse_expression expression
         = Returns (Formula var_name (V2Solution.name self) formula deps) ->
         match execute_expression self expression registry_with with
         | Done self' =>
             exists v,
               Dict.get (V2Solution.variables self') var_name = Some v
               /\ V2Variable.is_formula v = true
               /\ V2Variable.formula v = Some formula
               /\ V2Variable.dependencies v = deps
               /\ (V2Variable.computation_error v = None
                   \/ V2Variable.last_computed_value v = Some (S754_zero false))
               /\ V2Solution.aliases self' = V2Solution.aliases self
         | Failed _ _ => False
         | Unknown => True
         end)
  /\ (forall self expression registry_with alias value,
         parse_expression expression = Returns (Alias alias value) ->
         Dict.mem (V2Solution.variables self) alias = false ->
         Dict.mem (V2Solution.aliases self) alias = false ->
         exists self' v,
           execute_expression self expression registry_with = Done self'
           /\ Dict.get (V2Solution.variables self') ("_alias_" ++ alias) = Some v
           /\ V2Variable.value v = value
           /\ V2Solution.aliases self'
              = Dict.set (V2Solution.aliases self) alias ("_alias_" ++ alias)
           /\ V2Solution.get_variable self' alias = Some v)
  /\ (forall self expression registry_with alias value,
         parse_expression expression = Returns (Alias alias value) ->
         Dict.mem (V2Solution.variables self) alias = true
         \/ Dict.mem (V2Solution.aliases self) alias = true ->
         exists self',
           execute_expression self expression registry_with = Done self'
           /\ V2Solution.aliases self' = V2Solution.aliases self
           /\ (forall key,
                  variable_key self alias = Some key ->
                  exists v,
                    Dict.get (V2Solution.variables self') key = Some v
                    /\ V2Variable.value v = value))
  /\ (forall self expression registry_with target source_var source_solution,
         parse_expression expression
         = Returns (Read target source_var source_solution) ->
         execute_expression self expression registry_with
         = Failed self "Cannot execute expression type: ExpressionType.READ")
  /\ (forall w me expression self var_name solution formula deps reg',
         Dict.get (solutions w) me = Some self ->
         parse_expression expression
         = Returns (Formula var_name solution formula deps) ->
         execute_registered (v2_solutions w) me expression = Done reg' ->
         exists v2,
           Dict.get reg' me = Some v2
           /\ execute_v2_expression w me expression
              = Done (mkWorld (solutions w) reg'
                        match get_variable_by_reference self v2 var_name with
                        | Some var =>
                            V2DependencyTracker.add_dependency (tracker w)
                              (HybridVariable.new_read_id var) deps
                        | None => tracker w
                        end))
  /\ (forall t variable_id deps,
         V2DependencyTracker.get_dependencies
           (V2DependencyTracker.add_dependency t variable_id deps) variable_id
         = deps).
Proof.
  split; [exact execute_assignment|].
  split; [exact execute_formula|].
  split; [exact execute_new_alias|].
  split; [exact execute_known_alias|].
  split; [exact execute_read|].
  split; [exact execute_v2_formula_registers|].
  exact add_dependency_stored.
Qed.

(** A read statement copies nothing: it is classified, and refused,
    and no variable [a] appears.  And a formula executed on a hybrid
    solution that has no hybrid variable of that name registers
    nothing with the tracker. *)
Lemma read_statement_is_refused :
  parse_expression "a=volume.box" = Returns (Read "a" "volume" "box")
  /\ execute_registered box_and_me "me" "a=volume.box"
     = Failed box_and_me "Cannot execute expression type: ExpressionType.READ"
  /\ parse_expression "b@Y=a.X" = Returns (Formula "b" "Y" "a.X" ["a.X"])
  /\ (exists w',
         execute_v2_expression x_and_y "Y" "b@Y=a.X" = Done w'
         /\ tracker w' = V2DependencyTracker.init
         /\ option_map V2Variable.formula
              (match Dict.get (v2_solutions w') "Y" with
               | Some s => Dict.get (V2Solution.variables s) "b"
               | None => None
               end) = Some (Some "a.X")).
Proof.
  split; [reflexivity|]. split; [reflexivity|]. split; [reflexivity|].
  eexists. split; [vm_compute; reflexivity|]. split; reflexivity.
Qed.

Lemma execute_dispatches_example :
  (exists self' v,
      execute_expression (V2Solution.init "me") "length@me=600"
        (fun s => Dict.set box_and_me "me" s) = Done self'
      /\ Dict.get (V2Solution.variables self') "length" = Some v
      /\ V2Variable._value v = VInt 600
      /\ V2Variable.value v = VInt 600
      /\ V2Variable.is_formula v = false
      /\ V2Variable.computation_error v = None
      /\ V2Solution.aliases self' = V2Solution.aliases (V2Solution.init "me"))
  /\ execute_expression (V2Solution.init "me") "a=volume.box"
       (fun s => Dict.set box_and_me "me" s)
     = Failed (V2Solution.init "me")
         "Cannot execute expression type: ExpressionType.READ"
  /\ (exists self' v,
         execute_expression (V2Solution.init "me") "L=600"
           (fun s => Dict.set box_and_me "me" s) = Done self'
         /\ Dict.get (V2Solution.variables self') ("_alias_" ++ "L") = Some v
         /\ V2Variable.value v = VInt 600
         /\ V2Solution.aliases self'
            = Dict.set (V2Solution.aliases (V2Solution.init "me")) "L"
                ("_alias_" ++ "L")
         /\ V2Solution.get_variable self' "L" = Some v).
Proof.
  split.
  { apply (proj1 execute_dispatches_by_type (V2Solution.init "me")
             "length@me=600" (fun s => Dict.set box_and_me "me" s)
             "length" (VInt 600)).
    reflexivity. }
  split.
  { apply (proj1 (proj2 (proj2 (proj2 (proj2 execute_dispatches_by_type))))
             (V2Solution.init "me") "a=volume.box"
             (fun s => Dict.set box_and_me "me" s) "a" "volume" "box").
    reflexivity. }
  apply (proj1 (proj2 (proj2 execute_dispatches_by_type))
           (V2Solution.init "me") "L=600"
           (fun s => Dict.set box_and_me "me" s) "L" (VInt 600));
    reflexivity.
Defined.

End Dispatch.

(** ** Sets *)

Module SetFacts.

Lemma mem_In x s : StrSet.mem x s = true <-> In x s.
Proof.
  induction s as [|y s IH]; simpl.
  - split; [discriminate | tauto].
  - rewrite orb_true_iff, IH, String.eqb_eq. split; intros [H | H]; auto.
Qed.

Lemma mem_not_In x s : StrSet.mem x s = false <-> ~ In x s.
Proof.
  rewrite <- mem_In. destruct (StrSet.mem x s); split; congruence.
Qed.

Lemma In_add x y s : In x (StrSet.add y s) <-> x = y \/ In x s.
Proof.
  unfold StrSet.add. destruct (StrSet.mem y s) eqn:E.
  - apply mem_In in E. split; [auto | intros [-> | H]; auto].
  - rewrite in_app_iff. simpl. split; intros H; intuition.
Qed.

Lemma add_new x s : StrSet.mem x s = false -> StrSet.add x s = (s ++ [x])%list.
Proof. intros H. unfold StrSet.add. rewrite H. reflexivity. Qed.

End SetFacts.

(** ** The cycle search of the first tracker *)

Module V1Cycles.

Import Statements SetFacts V1.DependencyTracker.

Section Graph.
Variable graph : Dict.t StrSet.t.

Lemma search_step fuel start target visited :
  search (S fuel) graph start target visited =
  if StrSet.mem start visited then Some (String.eqb start target)
  else match Dict.get graph start with
       | Some deps =>
           search_each fuel graph target (StrSet.add start visited) deps
       | None => Some false
       end.
Proof.
  cbn [search]. destruct (StrSet.mem start visited); [reflexivity|].
  destruct (Dict.get graph start) as [deps|]; [|reflexivity].
  induction deps as [|d deps IH]; [reflexivity|].
  cbn [search_each]. rewrite <- IH. reflexivity.
Qed.

Lemma unvisited_add start visited deps :
  Dict.get graph start = Some deps -> ~ In start visited ->
  unvisited graph (StrSet.add start visited) < unvisited graph visited.
Proof.
  unfold unvisited. intros Hget Hnot.
  induction graph as [|[k v] g IH]; [discriminate|].
  assert (Hle : forall g',
             List.length (filter (fun kv : string * StrSet.t =>
                        negb (StrSet.mem (fst kv) (StrSet.add start visited))) g')
             <= List.length (filter (fun kv : string * StrSet.t =>
                        negb (StrSet.mem (fst kv) visited)) g')).
  { induction g' as [|[k' v'] g' IH']; [simpl; lia|].
    cbn [filter fst].
    destruct (StrSet.mem k' visited) eqn:E.
    - assert (E' : StrSet.mem k' (StrSet.add start visited) = true)
        by (apply mem_In, In_add; right; apply mem_In; exact E).
      rewrite E'. simpl. exact IH'.
    - destruct (StrSet.mem k' (StrSet.add start visited)); simpl; lia. }
  cbn [Dict.get] in Hget. cbn [filter fst].
  destruct (String.eqb start k) eqn:E.
  - apply String.eqb_eq in E. subst k.
    assert (E1 : StrSet.mem start (StrSet.add start visited) = true)
      by (apply mem_In, In_add; left; reflexivity).
    assert (E2 : StrSet.mem start visited = false) by (apply mem_not_In; exact Hnot).
    rewrite E1, E2. simpl. specialize (Hle g). lia.
  - specialize (IH Hget).
    destruct (StrSet.mem k visited) eqn:E1.
    + assert (E' : StrSet.mem k (StrSet.add start visited) = true)
        by (apply mem_In, In_add; right; apply mem_In; exact E1).
      rewrite E'. simpl. exact IH.
    + destruct (StrSet.mem k (StrSet.add start visited)); simpl; lia.
Qed.

Lemma search_answers target fuel :
  forall start visited,
    unvisited graph visited < fuel ->
    exists b, search fuel graph start target visited = Some b.
Proof.
  induction fuel as [|fuel IH]; intros start visited Hfuel; [lia|].
  rewrite search_step.
  destruct (StrSet.mem start visited) eqn:E; [eauto|].
  destruct (Dict.get graph start) as [deps|] eqn:Hget; [|eauto].
  assert (Hlt : unvisited graph (StrSet.add start visited) < fuel).
  { apply mem_not_In in E. pose proof (unvisited_add _ _ _ Hget E). lia. }
  clear Hget.
  induction deps as [|d deps IHd]; [simpl; eauto|].
  cbn [search_each].
  destruct (IH d _ Hlt) as [[|] ->]; [eauto|].
  apply IHd.
Qed.

(** The loop answers [True] when one of the calls does and none runs
    out of fuel. *)
Lemma search_each_true fuel target visited deps :
  (forall d, In d deps ->
             exists b, search fuel graph d target visited = Some b) ->
  (exists d, In d deps /\ search fuel graph d target visited = Some true) ->
  search_each fuel graph target visited deps = Some true.
Proof.
  induction deps as [|d deps IH]; intros Hall [x [Hin Hx]]; [destruct Hin|].
  cbn [search_each].
  destruct (Hall d (or_introl eq_refl)) as [[|] Hd]; rewrite Hd; [reflexivity|].
  apply IH.
  - intros d' Hd'. apply Hall. right. exact Hd'.
  - destruct Hin as [-> | Hin]; [congruence|]. exists x. split; assumption.
Qed.

Lemma search_each_sound fuel target visited deps :
  search_each fuel graph target visited deps = Some true ->
  exists d, In d deps /\ search fuel graph d target visited = Some true.
Proof.
  induction deps as [|d deps IH]; [discriminate|].
  cbn [search_each].
  destruct (search fuel graph d target visited) as [[|]|] eqn:E;
    [| |discriminate].
  - intros _. exists d. split; [left; reflexivity | exact E].
  - intros H. destruct (IH H) as [x [Hin Hx]]. exists x. split; [right|]; assumption.
Qed.

(** A search that answers [True] has come back to [target]: when
    every variable visited reaches [start], [target] lies on a
    cycle. *)
Lemma search_sound target fuel :
  forall start visited,
    (forall p, In p visited -> clos_trans string (edge graph) p start) ->
    search fuel graph start target visited = Some true ->
    clos_refl_trans string (edge graph) start target
    /\ clos_trans string (edge graph) target target.
Proof.
  induction fuel as [|fuel IH]; intros start visited Hvisited; [discriminate|].
  rewrite search_step.
  destruct (StrSet.mem start visited) eqn:E.
  - intros H. injection H as H. apply String.eqb_eq in H. subst.
    split; [apply rt_refl | apply Hvisited, mem_In, E].
  - destruct (Dict.get graph start) as [deps|] eqn:Hget; [|discriminate].
    intros H. apply search_each_sound in H. destruct H as [d [Hin Hd]].
    assert (Hedge : edge graph start d) by (exists deps; split; assumption).
    destruct (IH d (StrSet.add start visited)) as [Hreach Hcycle]; [|exact Hd|].
    + intros p Hp. apply In_add in Hp. destruct Hp as [-> | Hp].
      * apply t_step. exact Hedge.
      * eapply t_trans; [apply Hvisited; exact Hp | apply t_step; exact Hedge].
    + split; [|exact Hcycle].
      eapply rt_trans; [apply rt_step; exact Hedge | exact Hreach].
Qed.

Lemma avoids_weaken visited visited' u v :
  (forall x, In x visited' -> In x visited) ->
  avoids graph visited u v -> avoids graph visited' u v.
Proof.
  intros Hsub H. induction H as [u v Hu He | u x v Hu He _ IH].
  - apply avoids_edge; [intros Hin; apply Hu, Hsub, Hin | exact He].
  - eapply avoids_step; [intros Hin; apply Hu, Hsub, Hin | exact He | exact IH].
Qed.

Lemma avoids_head visited u v : avoids graph visited u v -> ~ In u visited.
Proof. intros H. destruct H; assumption. Qed.

(** The walk from the last time it leaves [n]. *)
Lemma avoids_after_last visited u v n :
  avoids graph visited u v ->
  avoids graph (n :: visited) u v
  \/ exists y, edge graph n y /\ (y = v \/ avoids graph (n :: visited) y v).
Proof.
  intros H. induction H as [u v Hu He | u x v Hu He _ IH].
  - destruct (string_dec n u) as [-> | Hne].
    + right. exists v. split; [exact He | left; reflexivity].
    + left. apply avoids_edge; [intros [Hin | Hin]; [apply Hne | apply Hu]; assumption | exact He].
  - destruct IH as [IH | IH]; [|right; exact IH].
    destruct (string_dec n u) as [-> | Hne].
    + right. exists x. split; [exact He | right; exact IH].
    + left. eapply avoids_step;
        [intros [Hin | Hin]; [apply Hne | apply Hu]; assumption | exact He | exact IH].
Qed.

Lemma search_complete target fuel :
  forall start visited,
    unvisited graph visited < fuel ->
    (In start visited /\ start = target)
    \/ (avoids graph visited start target /\ In target (start :: visited)) ->
    search fuel graph start target visited = Some true.
Proof.
  induction fuel as [|fuel IH]; intros start visited Hfuel Hwalk; [lia|].
  rewrite search_step.
  destruct Hwalk as [[Hin ->] | [Hwalk Htarget]].
  - apply mem_In in Hin. rewrite Hin, String.eqb_refl. reflexivity.
  - pose proof (avoids_head _ _ _ Hwalk) as Hnot.
    destruct (avoids_after_last _ _ _ start Hwalk) as [Habs | [y [[deps [Hget Hy]] Hrest]]].
    { apply avoids_head in Habs. exfalso. apply Habs. left. reflexivity. }
    apply mem_not_In in Hnot. rewrite Hnot, Hget. apply mem_not_In in Hnot.
    assert (Hlt : unvisited graph (StrSet.add start visited) < fuel)
      by (pose proof (unvisited_add _ _ _ Hget Hnot); lia).
    apply search_each_true.
    + intros d _. apply search_answers. exact Hlt.
    + exists y. split; [exact Hy|]. apply IH; [exact Hlt|].
      destruct Hrest as [-> | Hrest].
      * left. split; [apply In_add; destruct Htarget; auto | reflexivity].
      * right. split.
        -- eapply avoids_weaken; [|exact Hrest].
           intros x Hx. apply In_add in Hx. destruct Hx; [left; congruence | right; assumption].
        -- destruct Htarget as [<- | Ht]; [right; apply In_add; auto|].
           right. apply In_add. auto.
Qed.

Lemma reach_avoids u v :
  clos_trans string (edge graph) u v -> avoids graph [] u v.
Proof.
  intros H. apply clos_trans_t1n in H.
  induction H as [u v He | u x v He _ IH].
  - apply avoids_edge; [intros [] | exact He].
  - eapply avoids_step; [intros [] | exact He | exact IH].
Qed.

End Graph.

Lemma unvisited_nil (graph : Dict.t StrSet.t) : unvisited graph [] = List.length graph.
Proof.
  unfold unvisited. induction graph as [|[k v] g IH]; [reflexivity|].
  cbn [filter fst StrSet.mem negb List.length]. f_equal. exact IH.
Qed.

(** X1: the search of the first tracker always ends, and asked
    whether a variable depends on itself it answers [True] exactly
    when the variable lies on a cycle of the graph. *)
Theorem self_dependency_is_detected (self : t) (a : string) :
  exists b, has_circular_dependency self a a = Some b
            /\ (b = true <-> clos_trans string (edge (dependency_graph self)) a a).
Proof.
  unfold has_circular_dependency, enough_fuel.
  destruct (search_answers (dependency_graph self) a
              (2 + List.length (dependency_graph self)) a [])
    as [b Hb]; [rewrite unvisited_nil; lia|].
  exists b. split; [exact Hb|]. split.
  - intros ->. apply search_sound in Hb; [apply Hb | intros p []].
  - intros Hcycle. rewrite search_complete in Hb.
    + congruence.
    + rewrite unvisited_nil. lia.
    + right. split; [apply reach_avoids; exact Hcycle | left; reflexivity].
Qed.

(** X2: whatever the two variables, an answer [True] is right:
    [start] reaches [target], and [target] lies on a cycle. *)
Theorem circular_answer_is_sound (self : t) (start target : string) :
  has_circular_dependency self start target = Some true ->
  clos_refl_trans string (edge (dependency_graph self)) start target
  /\ clos_trans string (edge (dependency_graph self)) target target.
Proof.
  unfold has_circular_dependency. apply search_sound. intros p [].
Qed.

Lemma circular_answer_example :
  clos_refl_trans string (edge (dependency_graph c_a_b)) "c" "a"
  /\ clos_trans string (edge (dependency_graph c_a_b)) "a" "a".
Proof.
  apply (circular_answer_is_sound c_a_b "c" "a"). reflexivity.
Defined.

End V1Cycles.

(** ** The cycle check of the second tracker *)

Module V2Cycles.

Import Statements SetFacts Hybrid Hybrid.V2DependencyTracker.

Section Graph.
Variable graph : Dict.t StrSet.t.

Lemma edge_deps u v : edge graph u v <-> In v (deps_of graph u).
Proof.
  unfold edge, deps_of. destruct (Dict.get graph u) as [ds|].
  - split; [intros [ds' [H Hin]]; congruence | intros H; eauto].
  - split; [intros [ds' [H _]]; discriminate | intros []].
Qed.

Lemma check_step fuel var_id path visited :
  check_circular (S fuel) graph var_id path visited =
  if StrSet.mem var_id path then Some (true, visited)
  else if StrSet.mem var_id visited then Some (false, visited)
  else check_each fuel graph (StrSet.add var_id path)
         (StrSet.add var_id visited) (deps_of graph var_id).
Proof.
  cbn [check_circular]. destruct (StrSet.mem var_id path); [reflexivity|].
  destruct (StrSet.mem var_id visited); [reflexivity|].
  fold (deps_of graph var_id). generalize (StrSet.add var_id visited).
  induction (deps_of graph var_id) as [|d deps IH]; intros visited'; [reflexivity|].
  cbn [check_each].
  destruct (check_circular fuel graph d (StrSet.add var_id path) visited')
    as [[[|] v']|]; try reflexivity.
  apply IH.
Qed.

Lemma check_each_true fuel path visited deps visited' :
  check_each fuel graph path visited deps = Some (true, visited') ->
  exists d visited0,
    In d deps /\ check_circular fuel graph d path visited0 = Some (true, visited').
Proof.
  revert visited. induction deps as [|d deps IH]; intros visited; [discriminate|].
  cbn [check_each].
  destruct (check_circular fuel graph d path visited) as [[[|] v']|] eqn:E;
    [| |discriminate].
  - intros H. injection H as <-. exists d, visited. split; [left; reflexivity | exact E].
  - intros H. destruct (IH _ H) as [x [v0 [Hin Hx]]].
    exists x, v0. split; [right|]; assumption.
Qed.

(** An answer [True]: the variable met again is on the path, and
    every variable of the path reaches the one the call is at. *)
Lemma check_sound fuel :
  forall var_id path visited visited',
    (forall p, In p path -> clos_trans string (edge graph) p var_id) ->
    check_circular fuel graph var_id path visited = Some (true, visited') ->
    reaches_cycle graph var_id.
Proof.
  induction fuel as [|fuel IH]; intros var_id path visited visited' Hpath;
    [discriminate|].
  rewrite check_step.
  destruct (StrSet.mem var_id path) eqn:E.
  - intros _. exists var_id. split; [apply rt_refl | apply Hpath, mem_In, E].
  - destruct (StrSet.mem var_id visited); [discriminate|].
    intros H. apply check_each_true in H. destruct H as [d [v0 [Hin Hd]]].
    apply edge_deps in Hin.
    assert (Hpath' : forall p, In p (StrSet.add var_id path) ->
                            clos_trans string (edge graph) p d).
    { intros p Hp. apply In_add in Hp. destruct Hp as [-> | Hp].
      - apply t_step. exact Hin.
      - eapply t_trans; [apply Hpath; exact Hp | apply t_step; exact Hin]. }
    destruct (IH d _ _ _ Hpath' Hd) as [c [Hreach Hcycle]].
    exists c. split; [|exact Hcycle].
    eapply rt_trans; [apply rt_step; exact Hin | exact Hreach].
Qed.


Lemma check_each_false fuel path deps :
  (forall d visited visited',
      In d deps ->
      check_circular fuel graph d path visited = Some (false, visited') ->
      finished graph path visited ->
      finished graph path visited' /\ incl visited visited'
      /\ In d visited' /\ ~ In d path) ->
  forall visited visited',
    check_each fuel graph path visited deps = Some (false, visited') ->
    finished graph path visited ->
    finished graph path visited' /\ incl visited visited'
    /\ forall d, In d deps -> In d visited' /\ ~ In d path.
Proof.
  induction deps as [|d deps IH]; intros Hcall visited visited'.
  - cbn [check_each]. intros H Hfin. injection H as <-.
    split; [exact Hfin|]. split; [apply incl_refl | intros d []].
  - cbn [check_each].
    destruct (check_circular fuel graph d path visited) as [[[|] v1]|] eqn:E;
      [discriminate| |discriminate].
    intros H Hfin.
    destruct (Hcall d _ _ (or_introl eq_refl) E Hfin) as [Hfin1 [Hincl1 [Hd1 Hd2]]].
    destruct (IH (fun x v v' Hx => Hcall x v v' (or_intror Hx)) _ _ H Hfin1)
      as [Hfin2 [Hincl2 Hall]].
    split; [exact Hfin2|]. split; [eapply incl_tran; eassumption|].
    intros x [<- | Hx]; [split; [apply Hincl2, Hd1 | exact Hd2] | apply Hall, Hx].
Qed.

(** A set closed under the edges holds whatever its members reach. *)
Lemma closed_reach (S : string -> Prop) :
  (forall v d, S v -> edge graph v d -> S d) ->
  forall u v, clos_refl_trans string (edge graph) u v -> S u -> S v.
Proof.
  intros Hclosed u v H. induction H as [u v He | u | u x v _ IH1 _ IH2]; eauto.
Qed.

(** An answer [False]: the variable is finished, and so is all that
    was. *)
Lemma check_complete fuel :
  forall var_id path visited visited',
    check_circular fuel graph var_id path visited = Some (false, visited') ->
    finished graph path visited ->
    finished graph path visited' /\ incl visited visited'
    /\ In var_id visited' /\ ~ In var_id path.
Proof.
  induction fuel as [|fuel IH]; intros var_id path visited visited';
    [discriminate|].
  rewrite check_step.
  destruct (StrSet.mem var_id path) eqn:Epath; [discriminate|].
  apply mem_not_In in Epath.
  destruct (StrSet.mem var_id visited) eqn:Evisited.
  - intros H Hfin. injection H as <-. apply mem_In in Evisited.
    split; [exact Hfin|]. split; [apply incl_refl|]. split; assumption.
  - apply mem_not_In in Evisited. intros H Hfin.
    assert (Hfin0 : finished graph (StrSet.add var_id path)
                      (StrSet.add var_id visited)).
    { intros v Hv Hvp. rewrite In_add in Hv, Hvp.
      destruct Hv as [-> | Hv]; [tauto|].
      destruct (Hfin v Hv ltac:(tauto)) as [Hsucc Hacyclic].
      split; [|exact Hacyclic]. intros d Hd. destruct (Hsucc d Hd) as [Hdv Hdp].
      rewrite !In_add. split; [tauto|]. intros [-> | Hin]; tauto. }
    destruct (check_each_false fuel _ _ (fun d v v' _ => IH d _ v v') _ _ H Hfin0)
      as [Hfin1 [Hincl Hdeps]].
    assert (Hself : In var_id visited') by (apply Hincl, In_add; tauto).
    split; [|split; [|split; [exact Hself | exact Epath]]].
    + intros v Hv Hvp.
      destruct (string_dec v var_id) as [-> | Hne].
      * split.
        -- intros d Hd. apply edge_deps in Hd. destruct (Hdeps d Hd) as [H1 H2].
           split; [exact H1|]. intros Hin. apply H2, In_add. tauto.
        -- intros Hcycle. apply clos_trans_t1n in Hcycle.
           assert (Hback : exists d, edge graph var_id d
                                     /\ clos_refl_trans string (edge graph) d var_id).
           { inversion Hcycle as [y He | y z He Hrest]; subst.
             - exists var_id. split; [exact He | apply rt_refl].
             - exists y. split; [exact He|].
               apply clos_t1n_trans in Hrest.
               apply clos_t_clos_rt. exact Hrest. }
           destruct Hback as [d [He Hreach]].
           pose proof He as Hd. apply edge_deps in Hd. destruct (Hdeps d Hd) as [H1 H2].
           assert (Hin : In var_id visited' /\ ~ In var_id (StrSet.add var_id path)).
           { apply (closed_reach (fun x => In x visited'
                                           /\ ~ In x (StrSet.add var_id path)))
               with (u := d); [|exact Hreach|split; assumption].
             intros x y [Hx1 Hx2] Hxy. apply (Hfin1 x Hx1 Hx2). exact Hxy. }
           apply (proj2 Hin), In_add. tauto.
      * assert (Hvp' : ~ In v (StrSet.add var_id path))
          by (rewrite In_add; tauto).
        destruct (Hfin1 v Hv Hvp') as [Hsucc Hacyclic].
        split; [|exact Hacyclic]. intros d Hd. destruct (Hsucc d Hd) as [H1 H2].
        split; [exact H1|]. intros Hin. apply H2, In_add. tauto.
    + intros x Hx. apply Hincl, In_add. tauto.
Qed.

Lemma deps_in_targets v d : In d (deps_of graph v) -> In d (targets graph).
Proof.
  unfold deps_of, targets. destruct (Dict.get graph v) as [ds|] eqn:E; [|intros []].
  intros Hd. apply in_concat. exists ds.
  split; [eapply DictFacts.get_In_values; exact E | exact Hd].
Qed.

(** The path holds no variable twice, and only variables the search
    can meet: with fuel for one call more than there are of those,
    every call answers. *)
Lemma check_answers start fuel :
  forall var_id path visited,
    NoDup path -> incl path (start :: targets graph) ->
    In var_id (start :: targets graph) ->
    List.length (start :: targets graph) < fuel + List.length path ->
    exists r, check_circular fuel graph var_id path visited = Some r.
Proof.
  induction fuel as [|fuel IH]; intros var_id path visited Hnodup Hincl Hin Hfuel.
  - pose proof (NoDup_incl_length Hnodup Hincl). lia.
  - rewrite check_step.
    destruct (StrSet.mem var_id path) eqn:Epath; [eauto|].
    destruct (StrSet.mem var_id visited); [eauto|].
    rewrite (add_new _ _ Epath). apply mem_not_In in Epath.
    assert (Hnodup' : NoDup (path ++ [var_id])).
    { apply NoDup_app; [exact Hnodup | repeat constructor; intros [] |].
      intros x Hx [<- | []]. exact (Epath Hx). }
    assert (Hincl' : incl (path ++ [var_id]) (start :: targets graph)).
    { intros x Hx. apply in_app_iff in Hx.
      destruct Hx as [Hx | [<- | []]]; [apply Hincl, Hx | exact Hin]. }
    assert (Hfuel' : List.length (start :: targets graph)
                     < fuel + List.length (path ++ [var_id]))
      by (rewrite length_app; cbn [List.length] in *; lia).
    pose proof (deps_in_targets var_id) as Hdeps.
    generalize (StrSet.add var_id visited).
    induction (deps_of graph var_id) as [|d deps IHd]; intros visited0;
      [simpl; eauto|].
    cbn [check_each].
    destruct (IH d _ visited0 Hnodup' Hincl'
                (or_intror (Hdeps d (or_introl eq_refl))) Hfuel')
      as [[[|] v1] ->]; [eauto|].
    apply IHd. intros x Hx. apply Hdeps. right. exact Hx.
Qed.

Lemma targets_counted n :
  n + List.length (targets graph)
  <= fold_left (fun n (kv : string * list string) => n + 1 + List.length (snd kv))
       graph n.
Proof.
  unfold targets. revert n. induction graph as [|[k v] g IH]; intros n; simpl.
  - lia.
  - rewrite length_app. specialize (IH (n + 1 + List.length v)). lia.
Qed.

End Graph.

(** X3: the cycle check of the second tracker always ends, and it
    answers [True] exactly when a cycle of the stored graph can be
    reached from the variable; the set passed with the variable has
    no part in it. *)
Theorem cycle_check_is_exact (self : t) (variable_id : string)
        (dependencies : StrSet.t) :
  exists b,
    has_circular_dependency self variable_id dependencies = Some b
    /\ (b = true <-> reaches_cycle (dependency_graph self) variable_id).
Proof.
  unfold has_circular_dependency.
  destruct (check_answers (dependency_graph self) variable_id
              (enough_fuel (dependency_graph self)) variable_id [] [])
    as [[b visited] Hb].
  - constructor.
  - intros x [].
  - left. reflexivity.
  - pose proof (targets_counted (dependency_graph self) 0) as Hsize.
    unfold enough_fuel. cbn [List.length]. lia.
  - rewrite Hb. exists b. split; [reflexivity|].
    destruct b.
    + split; [intros _ | reflexivity].
      eapply check_sound; [|exact Hb]. intros p [].
    + split; [discriminate|]. intros [c [Hreach Hcycle]]. exfalso.
      destruct (check_complete _ _ _ _ _ _ Hb) as [Hfin [_ [Hstart _]]].
      { intros v []. }
      assert (Hc : In c visited).
      { apply (closed_reach (dependency_graph self) (fun x => In x visited))
          with (u := variable_id); [|exact Hreach|exact Hstart].
        intros x y Hx Hxy. apply (Hfin x Hx (fun H => H)). exact Hxy. }
      apply (Hfin c Hc (fun H => H)). exact Hcycle.
Qed.

End V2Cycles.

(** ** The tables of the second tracker *)

Module TrackerTables.

Import Statements SetFacts Hybrid Hybrid.V2DependencyTracker.

Lemma deps_of_set graph k ds v :
  deps_of (Dict.set graph k ds) v = if String.eqb v k then ds else deps_of graph v.
Proof.
  unfold deps_of. destruct (String.eqb v k) eqn:E.
  - apply String.eqb_eq in E. subst. rewrite DictFacts.get_set_same. reflexivity.
  - apply String.eqb_neq in E. rewrite DictFacts.get_set_other by exact E. reflexivity.
Qed.

(** The loop of [add_dependency] over the dependencies. *)
Lemma reverse_after variable_id dependencies :
  forall reverse d x,
    In x (deps_of
            (fold_left
               (fun reverse dep =>
                  let dependents :=
                    match Dict.get reverse dep with
                    | Some ds => ds
                    | None => []
                    end in
                  Dict.set reverse dep (StrSet.add variable_id dependents))
               dependencies reverse) d)
    <-> In x (deps_of reverse d) \/ (x = variable_id /\ In d dependencies).
Proof.
  induction dependencies as [|dep deps IH]; intros reverse d x.
  - simpl. tauto.
  - cbn [fold_left]. rewrite IH. cbv zeta.
    fold (deps_of reverse dep). rewrite deps_of_set.
    destruct (String.eqb d dep) eqn:E.
    + apply String.eqb_eq in E. subst dep. rewrite In_add. simpl. tauto.
    + apply String.eqb_neq in E. simpl. split; [tauto|].
      intros [H | [H [H' | H']]]; [tauto | congruence | tauto].
Qed.

(** X4: [add_dependency] replaces the dependencies of the variable
    and adds the variable to the dependents of each of them; no other
    entry of the two tables changes, and no dependent is ever
    removed. *)
Theorem add_dependency_effect (self : t) (variable_id : string)
        (dependencies : StrSet.t) (u d x : string) :
  get_dependencies (add_dependency self variable_id dependencies) u
  = (if String.eqb u variable_id then dependencies else get_dependencies self u)
  /\ (In x (get_dependent_variables
              (add_dependency self variable_id dependencies) d)
      <-> In x (get_dependent_variables self d)
          \/ (x = variable_id /\ In d dependencies)).
Proof.
  split.
  - unfold get_dependencies, add_dependency. cbn [dependency_graph].
    apply (deps_of_set (dependency_graph self) variable_id dependencies u).
  - unfold get_dependent_variables, add_dependency. cbn [reverse_dependencies].
    apply (reverse_after variable_id dependencies (reverse_dependencies self) d x).
Qed.

(** X5: a tracker in which every dependency knows its dependents
    stays so when dependencies are added. *)
Theorem add_dependency_keeps_reverse (self : t) (variable_id : string)
        (dependencies : StrSet.t) :
  reverse_complete self ->
  reverse_complete (add_dependency self variable_id dependencies).
Proof.
  intros Hinv u d.
  unfold get_dependencies, get_dependent_variables, add_dependency.
  cbn [dependency_graph reverse_dependencies].
  fold (deps_of (Dict.set (dependency_graph self) variable_id dependencies) u).
  rewrite deps_of_set. intros Hd.
  apply (reverse_after variable_id dependencies (reverse_dependencies self) d u).
  destruct (String.eqb u variable_id) eqn:E.
  - apply String.eqb_eq in E. subst. right. split; [reflexivity | exact Hd].
  - left. apply Hinv. exact Hd.
Qed.

Lemma add_dependency_keeps_reverse_example :
  reverse_complete (add_dependency init "width.result" ["width.panel"; "t.edge"]).
Proof.
  apply (add_dependency_keeps_reverse init "width.result" ["width.panel"; "t.edge"]).
  intros u d H. destruct H.
Defined.

End TrackerTables.

(** ** The graph of the first tracker *)

Module V1Graph.

Import Statements SetFacts V1.DependencyTracker.

(** X6: [add_dependency] of the first tracker adds one edge to the
    graph and keeps the others. *)
Theorem add_dependency_adds_one_edge (self : t) (dependent dependency x y : string) :
  edge (dependency_graph (add_dependency self dependent dependency)) x y
  <-> edge (dependency_graph self) x y \/ (x = dependent /\ y = dependency).
Proof.
  unfold add_dependency. cbn [dependency_graph].
  remember (if negb (Dict.mem (dependency_graph self) dependent)
            then Dict.set (dependency_graph self) dependent []
            else dependency_graph self) as graph eqn:Hg.
  assert (Hgraph : forall v, deps_of graph v = deps_of (dependency_graph self) v).
  { intros v. subst graph. unfold Dict.mem.
    destruct (Dict.get (dependency_graph self) dependent) as [ds|] eqn:E;
      [reflexivity|].
    cbn [negb]. rewrite TrackerTables.deps_of_set.
    destruct (String.eqb v dependent) eqn:Ev; [|reflexivity].
    apply String.eqb_eq in Ev. subst. unfold deps_of. rewrite E. reflexivity. }
  assert (Hedge : forall g u v, edge g u v <-> In v (deps_of g u)).
  { intros g u v. unfold edge, deps_of. destruct (Dict.get g u) as [ds|].
    - split; [intros [ds' [H Hin]]; congruence | intros H; eauto].
    - split; [intros [ds' [H _]]; discriminate | intros []]. }
  rewrite !Hedge. fold (deps_of graph dependent).
  rewrite TrackerTables.deps_of_set.
  destruct (String.eqb x dependent) eqn:E.
  - apply String.eqb_eq in E. subst x. rewrite In_add, Hgraph. tauto.
  - apply String.eqb_neq in E. rewrite Hgraph. tauto.
Qed.

End V1Graph.

(** ** Names and white space *)

Module RegexFacts.

Import PyStr PyInt Regex StrFacts Statements V2 AddressForms.

Lemma ident_start_char c : ident_start c = true -> ident_char c = true.
Proof.
  unfold ident_start, ident_char. intros H. apply orb_prop in H.
  destruct H as [-> | ->]; [reflexivity | apply orb_true_r].
Qed.

Lemma ident_char_plain c :
  ident_char c = true ->
  isspace c = false /\ Ascii.eqb c NL = false /\ Ascii.eqb "@" c = false
  /\ Ascii.eqb "." c = false /\ Ascii.eqb "=" c = false.
Proof.
  destruct c as [[] [] [] [] [] [] [] []]; vm_compute; intros H;
    try discriminate H; repeat split.
Qed.

Lemma identifier_chars s :
  is_identifier s = true -> PyStr.forallb ident_char s = true.
Proof.
  destruct s as [|c r]; [discriminate|]. cbn [is_identifier PyStr.forallb].
  intros H. apply andb_prop in H. destruct H as [Hc Hr].
  now rewrite (ident_start_char _ Hc), Hr.
Qed.

(** The pattern of a name takes a name whole when no character of
    the class follows it. *)
Lemma ident_app v rest :
  is_identifier v = true ->
  match rest with
  | EmptyString => True
  | String c _ => ident_char c = false
  end ->
  ident (v ++ rest) = Some (v, rest).
Proof.
  destruct v as [|c r]; [discriminate|]. cbn [is_identifier].
  intros H Hrest. apply andb_prop in H. destruct H as [Hc Hr].
  cbn [String.append ident]. rewrite Hc.
  now rewrite (span_stop ident_char r rest Hr Hrest).
Qed.

(** What it takes is a name, and the rest begins with no character
    of the class. *)
Lemma ident_inv s a b :
  ident s = Some (a, b) ->
  is_identifier a = true /\ s = a ++ b
  /\ match b with
     | EmptyString => True
     | String c _ => ident_char c = false
     end.
Proof.
  destruct s as [|c r]; [discriminate|]. cbn [ident].
  destruct (ident_start c) eqn:Hc; [|discriminate].
  destruct (span ident_char r) as [x y] eqn:E. intros [= <- <-].
  cbn [is_identifier]. rewrite Hc, (span_all _ _ _ _ E).
  split; [reflexivity|]. split.
  - cbn [String.append]. f_equal. eapply span_app; eauto.
  - eapply span_rest; eauto.
Qed.

Lemma lit_inv c s r : lit c s = Some r -> s = String c r.
Proof.
  destruct s as [|d s']; [discriminate|]. cbn [lit].
  destruct (Ascii.eqb c d) eqn:E; [|discriminate].
  apply Ascii.eqb_eq in E. now intros [= <-]; subst.
Qed.

Lemma lstrip_blank a s : blank a = true -> lstrip (a ++ s) = lstrip s.
Proof.
  unfold blank. induction a as [|c r IH]; [reflexivity|].
  cbn [PyStr.forallb String.append lstrip]. intros H.
  apply andb_prop in H. destruct H as [-> Hr]. auto.
Qed.

Lemma rstrip_all_blank b : blank b = true -> rstrip b = "".
Proof.
  unfold blank. induction b as [|c r IH]; [reflexivity|].
  cbn [PyStr.forallb rstrip]. intros H.
  apply andb_prop in H. destruct H as [-> Hr]. now rewrite IH.
Qed.

Lemma rstrip_blank s b : blank b = true -> rstrip (s ++ b) = rstrip s.
Proof.
  intros Hb. induction s as [|c r IH].
  - cbn [String.append rstrip]. now apply rstrip_all_blank.
  - cbn [String.append rstrip]. now rewrite IH.
Qed.

Lemma lstrip_all_blank b : blank b = true -> lstrip b = "".
Proof.
  unfold blank. induction b as [|c r IH]; [reflexivity|].
  cbn [PyStr.forallb lstrip]. intros H.
  apply andb_prop in H. destruct H as [-> Hr]. auto.
Qed.

Lemma strip_blank_after e b : blank b = true -> strip (e ++ b) = strip e.
Proof.
  intros Hb. unfold strip. induction e as [|c r IH].
  - cbn [String.append]. now rewrite (lstrip_all_blank _ Hb).
  - cbn [String.append lstrip]. destruct (isspace c); [exact IH|].
    now apply (rstrip_blank (String c r)).
Qed.

Lemma strip_pad a e b :
  blank a = true -> blank b = true -> strip (a ++ e ++ b) = strip e.
Proof.
  intros Ha Hb. unfold strip. rewrite (lstrip_blank _ _ Ha).
  now apply strip_blank_after.
Qed.


Lemma no_newline s :
  contains NL s = false ->
  PyStr.forallb (fun c => negb (Ascii.eqb c NL)) s = true.
Proof.
  induction s as [|c r IH]; [reflexivity|]. cbn [contains PyStr.forallb].
  intros H. apply orb_false_elim in H. destruct H as [Hc Hr].
  rewrite Ascii.eqb_sym, Hc. cbn [negb andb]. auto.
Qed.

(** [(.+)$] takes a text whole when it is not empty and holds no
    newline. *)
Lemma dot_plus_end_whole s :
  s <> "" -> contains NL s = false -> dot_plus_end s = Some s.
Proof.
  intros Hne Hnl. unfold dot_plus_end.
  rewrite <- (append_empty_r s) at 1.
  rewrite (span_stop _ s "" (no_newline _ Hnl) I).
  destruct s; [contradiction | reflexivity].
Qed.

Lemma identifier_no_space s :
  is_identifier s = true ->
  PyStr.forallb (fun c => negb (isspace c)) s = true.
Proof.
  intros H. apply identifier_chars in H.
  eapply forallb_impl; [|exact H].
  intros c Hc. now destruct (ident_char_plain c Hc) as [-> _].
Qed.

Lemma lstrip_identifier s rest :
  is_identifier s = true -> lstrip (s ++ rest) = s ++ rest.
Proof.
  destruct s as [|c r]; [discriminate|]. cbn [is_identifier].
  intros H. apply andb_prop in H. destruct H as [Hc _].
  apply ident_start_char in Hc.
  destruct (ident_char_plain c Hc) as [Hs _].
  cbn [String.append lstrip]. now rewrite Hs.
Qed.

(** A write statement put together from its parts, as the text the
    parser works on. *)
Lemma strip_write v n e :
  is_identifier v = true -> is_identifier n = true ->
  strip (v ++ "@" ++ n ++ "=" ++ e) = v ++ "@" ++ n ++ "=" ++ rstrip e.
Proof.
  intros Hv Hn. unfold strip. rewrite (lstrip_identifier _ _ Hv).
  rewrite (rstrip_app v) by now apply identifier_no_space.
  cbn [String.append]. rewrite rstrip_cons by reflexivity.
  rewrite (rstrip_app n) by now apply identifier_no_space.
  cbn [String.append]. now rewrite rstrip_cons by reflexivity.
Qed.

Lemma match_assignment_write v n e :
  is_identifier v = true -> is_identifier n = true ->
  e <> "" -> contains NL e = false ->
  match_assignment (v ++ "@" ++ n ++ "=" ++ e) = Some (v, n, e).
Proof.
  intros Hv Hn He Hnl. unfold match_assignment.
  rewrite (ident_app v) by (assumption || reflexivity).
  cbn [String.append lit Ascii.eqb Bool.eqb].
  rewrite (ident_app n) by (assumption || reflexivity).
  cbn [String.append lit Ascii.eqb Bool.eqb].
  now rewrite (dot_plus_end_whole e He Hnl).
Qed.

Lemma ident_whole n : is_identifier n = true -> ident n = Some (n, "").
Proof.
  intros H. pose proof (ident_app n "" H I) as E.
  now rewrite append_empty_r in E.
Qed.

Lemma rstrip_plain s :
  PyStr.forallb (fun c => negb (isspace c)) s = true -> rstrip s = s.
Proof.
  intros H. pose proof (rstrip_app s "" H) as E.
  now rewrite !append_empty_r in E.
Qed.

End RegexFacts.

(** ** The classifier of statements *)

Module Classifier.

Import PyStr PyInt Regex StrFacts RegexFacts Statements V2 AddressForms.

(** X7: white space around a statement changes nothing: the
    statement is classified, and executed, as without it. *)
Theorem surrounding_blanks_are_ignored (a e b : string) :
  blank a = true -> blank b = true ->
  parse_expression (a ++ e ++ b) = parse_expression e
  /\ forall self registry_with,
       execute_expression self (a ++ e ++ b) registry_with
       = execute_expression self e registry_with.
Proof.
  intros Ha Hb.
  assert (H : parse_expression (a ++ e ++ b) = parse_expression e)
    by (unfold parse_expression; now rewrite (strip_pad a e b Ha Hb)).
  split; [exact H|]. intros self registry_with.
  unfold execute_expression. now rewrite H.
Qed.

Lemma surrounding_blanks_example :
  parse_expression ("  " ++ "L=600" ++ " ") = parse_expression "L=600"
  /\ forall self registry_with,
       execute_expression self ("  " ++ "L=600" ++ " ") registry_with
       = execute_expression self "L=600" registry_with.
Proof.
  apply (surrounding_blanks_are_ignored "  " "L=600" " "); reflexivity.
Defined.

Lemma match_assignment_names s v n e :
  match_assignment s = Some (v, n, e) ->
  is_identifier v = true /\ is_identifier n = true.
Proof.
  unfold match_assignment.
  destruct (ident s) as [[v0 s1]|] eqn:E1; [|discriminate].
  destruct (lit "@" s1) as [s2|]; [|discriminate].
  destruct (ident s2) as [[n0 s3]|] eqn:E2; [|discriminate].
  destruct (lit "=" s3) as [s4|]; [|discriminate].
  destruct (dot_plus_end s4); [|discriminate].
  intros [= <- <- _].
  split; [apply (ident_inv _ _ _ E1) | apply (ident_inv _ _ _ E2)].
Qed.

Lemma match_read_names s t v n :
  match_read s = Some (t, v, n) ->
  is_identifier t = true /\ is_identifier v = true /\ is_identifier n = true.
Proof.
  unfold match_read.
  destruct (ident s) as [[t0 s1]|] eqn:E1; [|discriminate].
  destruct (lit "=" s1) as [s2|]; [|discriminate].
  destruct (ident s2) as [[v0 s3]|] eqn:E2; [|discriminate].
  destruct (lit "." s3) as [s4|]; [|discriminate].
  destruct (ident s4) as [[n0 s5]|] eqn:E3; [|discriminate].
  destruct (at_dollar s5); [|discriminate].
  intros [= <- <- <-].
  split; [apply (ident_inv _ _ _ E1)|].
  split; [apply (ident_inv _ _ _ E2) | apply (ident_inv _ _ _ E3)].
Qed.

Lemma match_alias_names s a e :
  match_alias s = Some (a, e) -> is_identifier a = true.
Proof.
  unfold match_alias.
  destruct (ident s) as [[a0 s1]|] eqn:E1; [|discriminate].
  destruct (lit "=" s1) as [s2|]; [|discriminate].
  destruct (dot_plus_end s2); [|discriminate].
  intros [= <- _]. apply (ident_inv _ _ _ E1).
Qed.

(** X8: whatever the statement, the names the classifier returns
    are names of the pattern: not empty, a letter or an underscore
    first, then letters, digits and underscores. *)
Theorem classified_names_are_identifiers (expression : string) (p : parsed) :
  parse_expression expression = Returns p ->
  Forall (fun name => is_identifier name = true) (names_of p).
Proof.
  unfold parse_expression.
  destruct (match_assignment (strip expression)) as [[[v n] e]|] eqn:Ea.
  - destruct (match_assignment_names _ _ _ _ Ea) as [Hv Hn].
    destruct (_contains_variable_references e); intros [= <-];
      cbn [names_of]; repeat constructor; assumption.
  - destruct (match_read (strip expression)) as [[[t v] n]|] eqn:Er.
    + destruct (match_read_names _ _ _ _ Er) as [Ht [Hv Hn]].
      intros [= <-]. cbn [names_of]. repeat constructor; assumption.
    + destruct (match_alias (strip expression)) as [[a e]|] eqn:El; [|discriminate].
      destruct (negb (_is_valid_alias a)); [discriminate|].
      intros [= <-]. cbn [names_of]. repeat constructor.
      apply (match_alias_names _ _ _ El).
Qed.

Lemma classified_names_example :
  Forall (fun name => is_identifier name = true)
         (names_of (Read "a" "volume" "box")).
Proof.
  apply (classified_names_are_identifiers "a=volume.box"). reflexivity.
Defined.


(** X9: a write statement put together from a variable, a solution
    and a text is split into the same parts: it is a formula when the
    text holds a reference, and else an assignment of the value the
    text denotes. *)
Theorem write_statement_is_split (v n e : string) :
  is_identifier v = true -> is_identifier n = true ->
  e <> "" -> contains NL e = false -> rstrip e = e ->
  parse_expression (v ++ "@" ++ n ++ "=" ++ e)
  = Returns (if _contains_variable_references e
             then Formula v n e (extract_variable_references e)
             else Assignment v n (_parse_value e)).
Proof.
  intros Hv Hn He Hnl Hstrip. unfold parse_expression.
  rewrite (strip_write v n e Hv Hn), Hstrip.
  rewrite (match_assignment_write v n e Hv Hn He Hnl).
  now destruct (_contains_variable_references e).
Qed.

Lemma write_statement_example :
  parse_expression ("width" ++ "@" ++ "result" ++ "=" ++ "width.panel-4")
  = Returns (if _contains_variable_references "width.panel-4"
             then Formula "width" "result" "width.panel-4"
                    (extract_variable_references "width.panel-4")
             else Assignment "width" "result" (_parse_value "width.panel-4")).
Proof.
  apply (write_statement_is_split "width" "result" "width.panel-4");
    (reflexivity || discriminate).
Defined.

(** X10: a read statement put together from three names is split
    into the same names. *)
Theorem read_statement_is_split (t v n : string) :
  is_identifier t = true -> is_identifier v = true -> is_identifier n = true ->
  parse_expression (t ++ "=" ++ v ++ "." ++ n) = Returns (Read t v n).
Proof.
  intros Ht Hv Hn. unfold parse_expression, strip.
  rewrite (lstrip_identifier _ _ Ht).
  rewrite (rstrip_app t) by now apply identifier_no_space.
  cbn [String.append]. rewrite rstrip_cons by reflexivity.
  rewrite (rstrip_app v) by now apply identifier_no_space.
  cbn [String.append]. rewrite rstrip_cons by reflexivity.
  rewrite (rstrip_plain n) by now apply identifier_no_space.
  change (t ++ String "=" (v ++ String "." n))
    with (t ++ "=" ++ v ++ "." ++ n).
  unfold match_assignment.
  rewrite (ident_app t) by (assumption || reflexivity).
  cbn [String.append lit Ascii.eqb Bool.eqb].
  unfold match_read.
  change (t ++ String "=" (v ++ String "." n))
    with (t ++ "=" ++ v ++ "." ++ n).
  rewrite (ident_app t) by (assumption || reflexivity).
  cbn [String.append lit Ascii.eqb Bool.eqb].
  change (v ++ String "." n) with (v ++ "." ++ n).
  rewrite (ident_app v) by (assumption || reflexivity).
  cbn [String.append lit Ascii.eqb Bool.eqb].
  now rewrite (ident_whole n Hn).
Qed.

Lemma read_statement_example :
  parse_expression ("a" ++ "=" ++ "volume" ++ "." ++ "box")
  = Returns (Read "a" "volume" "box").
Proof.
  apply (read_statement_is_split "a" "volume" "box"); reflexivity.
Defined.










End Classifier.

(** ** Evaluation and lookup *)

Module Evaluation.

Import PyStr Regex StrFacts Statements V2 V2FormulaEvaluator DictFacts.

Lemma sub_refs_ext (repl1 repl2 : string -> string -> outcome string) s :
  forall skip,
    (forall m, In m (findall_refs skip s) ->
               repl1 (fst m) (snd m) = repl2 (fst m) (snd m)) ->
    sub_refs repl1 skip s = sub_refs repl2 skip s.
Proof.
  induction s as [|c r IH]; intros skip Hsame; [reflexivity|].
  cbn [sub_refs findall_refs] in *.
  destruct skip as [|k]; [|now apply IH].
  destruct (ref_at (String c r)) as [[variable solution]|].
  - pose proof (Hsame (variable, solution) (or_introl eq_refl)) as Hm.
    cbn [fst snd] in Hm. rewrite <- Hm.
    destruct (repl1 variable solution); [|reflexivity|reflexivity].
    rewrite (IH (String.length variable + String.length solution));
      [reflexivity|].
    intros m' Hm'. apply Hsame. right. exact Hm'.
  - now rewrite (IH 0 Hsame).
Qed.

Lemma replace_reference_referenced reg1 reg2 m :
  referenced reg1 m = referenced reg2 m ->
  replace_reference reg1 (fst m) (snd m) = replace_reference reg2 (fst m) (snd m).
Proof.
  unfold referenced, replace_reference.
  destruct (Dict.get reg1 (snd m)), (Dict.get reg2 (snd m)); try discriminate;
    [|reflexivity].
  now intros [= ->].
Qed.

(** X12: a formula is evaluated from the variables it refers to and
    from nothing else of the registry: registries that give the same
    variable for every reference of the formula give the same result,
    value or error. *)
Theorem evaluation_reads_its_references (formula : string) (reg1 reg2 : registry) :
  (forall m, In m (findall_refs 0 formula) -> referenced reg1 m = referenced reg2 m) ->
  evaluate_formula formula reg1 = evaluate_formula formula reg2.
Proof.
  intros Hsame. unfold evaluate_formula, _resolve_variable_references.
  rewrite (sub_refs_ext (replace_reference reg1) (replace_reference reg2)
             formula 0); [reflexivity|].
  intros m Hm. apply replace_reference_referenced. now apply Hsame.
Qed.

Lemma evaluation_reads_example :
  evaluate_formula "a.p * 2" five_in_p
  = evaluate_formula "a.p * 2" (five_in_p ++ [("q", V2Solution.init "q")])%list.
Proof.
  apply (evaluation_reads_its_references "a.p * 2" five_in_p
           (five_in_p ++ [("q", V2Solution.init "q")])%list).
  intros m [<- | []]. reflexivity.
Defined.

(** Asked twice for its value with the same registry, a variable
    answers the same and is left as the first call left it. *)
Lemma get_computed_value_twice (self self' : V2Variable.t)
        (solution_registry : option registry) (result : pyval) :
  get_computed_value self solution_registry = Returns (self', result) ->
  get_computed_value self' solution_registry = Returns (self', result).
Proof.
  unfold get_computed_value.
  destruct (negb (V2Variable.is_formula self)) eqn:Hf.
  { intros [= <- <-]. now rewrite Hf. }
  destruct solution_registry as [reg|].
  2:{ intros [= <- <-]. now rewrite Hf. }
  destruct (V2Variable.formula self) as [formula|] eqn:Hformula; [|discriminate].
  destruct (evaluate_formula formula reg) as [computed|msg|] eqn:He;
    [| |discriminate].
  - intros [= <- <-].
    cbn [V2Variable.name V2Variable.solution_name V2Variable._value
         V2Variable.is_formula V2Variable.formula V2Variable.dependencies
         V2Variable.last_computed_value V2Variable.computation_error
         V2Variable.lives].
    rewrite Hf, He. reflexivity.
  - intros [= <- <-].
    cbn [V2Variable.name V2Variable.solution_name V2Variable._value
         V2Variable.is_formula V2Variable.formula V2Variable.dependencies
         V2Variable.last_computed_value V2Variable.computation_error
         V2Variable.lives V2Variable.cached].
    rewrite Hf, He. reflexivity.
Qed.

(** X13: an alias accepted by [set_alias] leads to its variable
    unless a variable bears the name of the alias: that variable is
    then what the alias finds. *)
Theorem alias_finds_variable (self : V2Solution.t) (alias variable_name : string) :
  snd (V2Solution.set_alias self alias variable_name) = None ->
  V2Solution.get_variable (fst (V2Solution.set_alias self alias variable_name)) alias
  = (if Dict.mem (V2Solution.variables self) alias
     then Dict.get (V2Solution.variables self) alias
     else Dict.get (V2Solution.variables self) variable_name)
  /\ V2Solution.get_variable
       (fst (V2Solution.set_alias self alias variable_name)) alias <> None.
Proof.
  unfold V2Solution.set_alias.
  destruct (negb (_is_valid_alias alias)); [discriminate|].
  destruct (Dict.mem (V2Solution.variables self) variable_name) eqn:Hv;
    [|discriminate].
  cbn [negb fst snd]. intros _.
  unfold V2Solution.get_variable.
  cbn [V2Solution.variables V2Solution.aliases].
  rewrite get_set_same.
  unfold Dict.mem in *.
  destruct (Dict.get (V2Solution.variables self) alias) eqn:Ha.
  - split; [reflexivity | discriminate].
  - split; [reflexivity|].
    destruct (Dict.get (V2Solution.variables self) variable_name);
      [discriminate | discriminate Hv].
Qed.

Lemma alias_finds_variable_example :
  V2Solution.get_variable (fst (V2Solution.set_alias box "W" "width")) "W"
  = (if Dict.mem (V2Solution.variables box) "W"
     then Dict.get (V2Solution.variables box) "W"
     else Dict.get (V2Solution.variables box) "width")
  /\ V2Solution.get_variable (fst (V2Solution.set_alias box "W" "width")) "W"
     <> None.
Proof.
  apply (alias_finds_variable box "W" "width"). reflexivity.
Defined.

End Evaluation.

(** ** Values asked again *)

Module Recompute.

Import PyStr Regex StrFacts Statements V2 V2FormulaEvaluator DictFacts Evaluation.

Lemma set_set {V : Type} (d : Dict.t V) k a b :
  Dict.set (Dict.set d k a) k b = Dict.set d k b.
Proof.
  induction d as [|[k' v'] d IH]; cbn [Dict.set].
  - now rewrite String.eqb_refl.
  - destruct (String.eqb k k') eqn:E; cbn [Dict.set]; rewrite E; [reflexivity|].
    now rewrite IH.
Qed.

Lemma mem_set_present {V : Type} (d : Dict.t V) k v x :
  Dict.mem d k = true -> Dict.mem (Dict.set d k v) x = Dict.mem d x.
Proof.
  intros Hk. unfold Dict.mem in *.
  destruct (String.eqb x k) eqn:E.
  - apply String.eqb_eq in E. subst. rewrite get_set_same.
    now destruct (Dict.get d k).
  - apply String.eqb_neq in E. now rewrite get_set_other.
Qed.

(** [get_variable] by the key [variable_key] gives. *)
Lemma get_variable_key self x :
  V2Solution.get_variable self x
  = match variable_key self x with
    | Some k => Dict.get (V2Solution.variables self) k
    | None => None
    end.
Proof.
  unfold V2Solution.get_variable, variable_key.
  destruct (Dict.mem (V2Solution.variables self) x); [reflexivity|].
  destruct (Dict.get (V2Solution.aliases self) x) as [real|]; [|reflexivity].
  unfold Dict.mem.
  destruct (Dict.get (V2Solution.variables self) real) eqn:E;
    [symmetry; exact E | reflexivity].
Qed.

Lemma variable_key_store self key var x :
  Dict.mem (V2Solution.variables self) key = true ->
  variable_key (V2Solution.store self key var) x = variable_key self x.
Proof.
  intros Hk. unfold variable_key, V2Solution.store.
  cbn [V2Solution.variables V2Solution.aliases].
  rewrite (mem_set_present _ key var x Hk).
  destruct (Dict.mem (V2Solution.variables self) x); [reflexivity|].
  destruct (Dict.get (V2Solution.aliases self) x) as [real|]; [|reflexivity].
  now rewrite (mem_set_present _ key var real Hk).
Qed.

Lemma get_computed_value_formula self reg self' result :
  get_computed_value self reg = Returns (self', result) ->
  V2Variable.formula self' = V2Variable.formula self.
Proof.
  unfold get_computed_value.
  destruct (negb (V2Variable.is_formula self)); [now intros [= <- _]|].
  destruct reg as [reg|]; [|now intros [= <- _]].
  destruct (V2Variable.formula self) as [formula|] eqn:Hf; [|discriminate].
  destruct (evaluate_formula formula reg); [| |discriminate];
    intros [= <- _]; cbn [V2Variable.formula]; reflexivity.
Qed.

Lemma get_computed_value_ext self reg1 reg2 :
  (forall formula, V2Variable.formula self = Some formula ->
                   evaluate_formula formula reg1 = evaluate_formula formula reg2) ->
  get_computed_value self (Some reg1) = get_computed_value self (Some reg2).
Proof.
  intros Hsame. unfold get_computed_value.
  destruct (negb (V2Variable.is_formula self)); [reflexivity|].
  destruct (V2Variable.formula self) as [formula|]; [|reflexivity].
  now rewrite (Hsame formula eq_refl).
Qed.

(** X14: a variable of a registered solution asked twice for its
    value, the registry being the live one, answers the same and
    leaves the registry as the first call left it, unless its formula
    refers to the variable itself. *)
Theorem recompute_twice (reg reg' : registry) (me name : string) (result : pyval) :
  recompute reg me name = Returns (reg', result) ->
  reads_itself reg me name = false ->
  recompute reg' me name = Returns (reg', result).
Proof.
  unfold recompute, reads_itself.
  destruct (Dict.get reg me) as [self|] eqn:Hself; [|discriminate].
  destruct (variable_key self name) as [key|] eqn:Hkey; [|discriminate].
  destruct (Dict.get (V2Solution.variables self) key) as [var|] eqn:Hvar;
    [|discriminate].
  destruct (get_computed_value var (Some reg)) as [[var' v]| |] eqn:Hvalue;
    [|discriminate|discriminate].
  intros [= <- <-] Hself_ref.
  assert (Hmem : Dict.mem (V2Solution.variables self) key = true)
    by (unfold Dict.mem; now rewrite Hvar).
  rewrite get_set_same, (variable_key_store _ _ _ _ Hmem), Hkey.
  unfold V2Solution.store at 1. cbn [V2Solution.variables].
  rewrite get_set_same.
  rewrite (get_computed_value_ext var'
             (Dict.set reg me (V2Solution.store self key var')) reg).
  - rewrite (get_computed_value_twice _ _ _ _ Hvalue).
    unfold V2Solution.store. cbn [V2Solution.name V2Solution.variables
                                    V2Solution.aliases].
    now rewrite !set_set.
  - intros formula Hformula.
    rewrite (get_computed_value_formula _ _ _ _ Hvalue) in Hformula.
    rewrite Hformula in Hself_ref.
    unfold evaluate_formula, _resolve_variable_references.
    rewrite (sub_refs_ext
               (replace_reference (Dict.set reg me (V2Solution.store self key var')))
               (replace_reference reg) formula 0); [reflexivity|].
    intros m Hm. apply replace_reference_referenced. unfold referenced.
    destruct (String.eqb (snd m) me) eqn:E.
    + apply String.eqb_eq in E. rewrite E, get_set_same, Hself.
      f_equal. rewrite !get_variable_key, (variable_key_store _ _ _ _ Hmem).
      destruct (variable_key self (fst m)) as [k|] eqn:Hk; [|reflexivity].
      unfold V2Solution.store. cbn [V2Solution.variables].
      apply get_set_other. intros ->.
      assert (Hex : existsb
                      (fun m => String.eqb (snd m) me
                                && match variable_key self (fst m) with
                                   | Some k => String.eqb k key
                                   | None => false
                                   end)
                      (findall_refs 0 formula) = true).
      { apply existsb_exists. exists m. split; [exact Hm|].
        rewrite E, String.eqb_refl, Hk, String.eqb_refl. reflexivity. }
      congruence.
    + apply String.eqb_neq in E. now rewrite get_set_other.
Qed.

Lemma recompute_twice_example :
  recompute twice_a_evaluated "q" "d"
  = Returns (twice_a_evaluated, VFloat (PyFloat.of_Z 10)).
Proof.
  apply (recompute_twice twice_a twice_a_evaluated "q" "d"
           (VFloat (PyFloat.of_Z 10))); reflexivity.
Defined.

End Recompute.

(** ** The legacy number of a variable *)

Module LegacyNumber.

Import PyStr PyInt Statements V2 Hybrid DictFacts StrFacts IntFacts AddressForms RegexFacts.

(** X15: the identifier [#number] of a hybrid variable finds the
    variable, in a solution whose variables have distinct numbers and
    names that do not begin with [#]. *)
Theorem legacy_id_resolves
        (self : HybridSolution.t) (v2_solution : V2Solution.t)
        (key : string) (var : HybridVariable.t) :
  well_formed self ->
  Forall (fun k => startswith "#" k = false)
         (Dict.keys (HybridSolution.variables self)) ->
  Dict.get (HybridSolution.variables self) key = Some var ->
  get_variable_by_reference self v2_solution (HybridVariable.legacy_id var)
  = Some var.
Proof.
  intros Hwf Hnames Hvar.
  unfold get_variable_by_reference, HybridVariable.legacy_id.
  set (ds := PyInt.str_of_Z (HybridVariable.variable_id var)).
  assert (Hstrip : strip ("#" ++ ds) = String "#" ds).
  { unfold strip. cbn [String.append lstrip]. change (isspace "#") with false.
    cbn iota. rewrite rstrip_cons by reflexivity. f_equal.
    apply rstrip_plain. eapply forallb_impl; [|apply str_of_Z_written].
    intros c Hc. now destruct (written_plain c Hc) as [-> _]. }
  rewrite Hstrip.
  assert (Hmem : Dict.mem (HybridSolution.variables self) (String "#" ds) = false).
  { destruct (Dict.mem _ _) eqn:E; [|reflexivity].
    apply mem_In_keys in E. rewrite Forall_forall in Hnames.
    specialize (Hnames _ E). discriminate Hnames. }
  rewrite Hmem. unfold by_other_reference.
  cbn [startswith tail]. change (Ascii.eqb "#" "#") with true. cbn iota.
  unfold ds. rewrite py_int_str_of_Z.
  rewrite (by_id_found self var Hwf); [reflexivity|].
  eapply get_In_values; eauto.
Qed.

Lemma legacy_id_resolves_example :
  get_variable_by_reference panel panel_v2 (HybridVariable.legacy_id length_var)
  = Some length_var.
Proof.
  apply (legacy_id_resolves panel panel_v2 "length" length_var).
  - exact panel_well_formed.
  - repeat constructor.
  - reflexivity.
Defined.

End LegacyNumber.

(** ** The worlds of the hybrid layer *)

Module Worlds.

Import PyStr Statements V2 Hybrid DictFacts AddressForms Recompute.

Lemma mem_set {V : Type} (d : Dict.t V) k v x :
  Dict.mem (Dict.set d k v) x = String.eqb x k || Dict.mem d x.
Proof.
  unfold Dict.mem. destruct (String.eqb x k) eqn:E.
  - apply String.eqb_eq in E. subst. now rewrite get_set_same.
  - apply String.eqb_neq in E. now rewrite get_set_other.
Qed.

Lemma mem_set_kept {V : Type} (d : Dict.t V) k v x :
  Dict.mem d x = true -> Dict.mem (Dict.set d k v) x = true.
Proof. intros H. rewrite mem_set, H. apply orb_true_r. Qed.

Lemma keys_set {V : Type} (d : Dict.t V) k x :
  Dict.keys (Dict.set d k x)
  = if Dict.mem d k then Dict.keys d else (Dict.keys d ++ [k])%list.
Proof.
  unfold Dict.keys, Dict.mem.
  induction d as [|[k0 v0] d IH]; cbn [Dict.set Dict.get map fst]; [reflexivity|].
  destruct (String.eqb k k0) eqn:E; cbn [map fst].
  - apply String.eqb_eq in E. now subst.
  - rewrite IH. now destruct (Dict.get d k).
Qed.

Lemma NoDup_set {V : Type} (d : Dict.t V) k x :
  NoDup (Dict.keys d) -> NoDup (Dict.keys (Dict.set d k x)).
Proof.
  intros H. rewrite keys_set. destruct (Dict.mem d k) eqn:E; [exact H|].
  apply NoDup_app; [exact H | repeat constructor; intros [] |].
  intros y Hy [<- | []]. unfold Dict.mem in E.
  destruct (Dict.get d k) eqn:Hget; [discriminate|].
  clear E. unfold Dict.keys in Hy. apply in_map_iff in Hy.
  destruct Hy as [[k' v'] [Hk Hin]]. cbn [fst] in Hk. subst k'.
  clear H. induction d as [|[k0 v0] d IH]; [destruct Hin|].
  cbn [Dict.get] in Hget. destruct (String.eqb k k0) eqn:E; [discriminate|].
  destruct Hin as [[= -> ->] | Hin]; [now rewrite String.eqb_refl in E | auto].
Qed.

Lemma In_set {V : Type} (d : Dict.t V) k x k' v :
  NoDup (Dict.keys d) ->
  In (k', v) (Dict.set d k x) ->
  (k' = k /\ v = x) \/ (k' <> k /\ In (k', v) d).
Proof.
  induction d as [|[k0 v0] d IH]; cbn [Dict.set In Dict.keys map fst]; intros Hnodup.
  - intros [[= <- <-] | []]. now left.
  - inversion Hnodup as [|? ? Hnot Hrest]; subst.
    destruct (String.eqb k k0) eqn:E; cbn [In].
    + apply String.eqb_eq in E. subst k0.
      intros [[= <- <-] | H]; [now left|].
      right. split; [|right; exact H]. intros ->. apply Hnot.
      change k with (fst (k, v)). now apply in_map.
    + apply String.eqb_neq in E.
      intros [[= <- <-] | H]; [right; split; [congruence | now left]|].
      destruct (IH Hrest H) as [? | [? ?]]; [now left | right; split; auto].
Qed.

Lemma In_get {V : Type} (d : Dict.t V) k v :
  NoDup (Dict.keys d) -> In (k, v) d -> Dict.get d k = Some v.
Proof.
  induction d as [|[k0 v0] d IH]; cbn [In Dict.get Dict.keys map fst];
    intros Hnodup; [intros []|].
  inversion Hnodup as [|? ? Hnot Hrest]; subst.
  intros [[= -> ->] | H]; [now rewrite String.eqb_refl|].
  destruct (String.eqb k k0) eqn:E; [|auto].
  apply String.eqb_eq in E. subst. exfalso. apply Hnot.
  change k0 with (fst (k0, v)). now apply in_map.
Qed.

(** *** The V2 solutions *)

Lemma v2_sound_init n : v2_sound n (V2Solution.init n).
Proof.
  split; [reflexivity|]. split; intros ? ? Hget; discriminate Hget.
Qed.

Lemma v2_sound_store n v2 k x :
  v2_sound n v2 ->
  V2Variable.name x = k -> V2Variable.solution_name x = n ->
  V2Variable.lives x = InSolution ->
  v2_sound n (V2Solution.store v2 k x).
Proof.
  intros (Hname & Hvars & Haliases) Hk Hn Hl. unfold V2Solution.store.
  split; [exact Hname|]. cbn [V2Solution.variables V2Solution.aliases]. split.
  - intros k' x'. destruct (String.eqb k' k) eqn:E.
    + apply String.eqb_eq in E. subst k'. rewrite get_set_same.
      now intros [= <-].
    + apply String.eqb_neq in E. rewrite get_set_other by exact E. apply Hvars.
  - intros a r Ha. apply mem_set_kept. eapply Haliases; eauto.
Qed.

Lemma v2_sound_create n v2 k value :
  v2_sound n v2 -> v2_sound n (fst (V2Solution.create_variable v2 k value)).
Proof.
  intros H. apply (v2_sound_store n v2 k _ H); try reflexivity.
  apply H.
Qed.

Lemma v2_sound_set_alias n v2 a r :
  v2_sound n v2 -> v2_sound n (fst (V2Solution.set_alias v2 a r)).
Proof.
  intros H. unfold V2Solution.set_alias.
  destruct (negb (_is_valid_alias a)); [exact H|].
  destruct (Dict.mem (V2Solution.variables v2) r) eqn:Hr; [|exact H].
  destruct H as (Hname & Hvars & Haliases). cbn [negb fst].
  split; [exact Hname|]. cbn [V2Solution.variables V2Solution.aliases].
  split; [exact Hvars|]. intros a' r'.
  destruct (String.eqb a' a) eqn:E.
  - apply String.eqb_eq in E. subst a'. rewrite get_set_same. now intros [= <-].
  - apply String.eqb_neq in E. rewrite get_set_other by exact E. apply Haliases.
Qed.

Lemma set_alias_variables v2 a r :
  V2Solution.variables (fst (V2Solution.set_alias v2 a r)) = V2Solution.variables v2.
Proof.
  unfold V2Solution.set_alias.
  destruct (negb (_is_valid_alias a)); [reflexivity|].
  now destruct (negb (Dict.mem (V2Solution.variables v2) r)).
Qed.

Lemma set_aliases_sound n aliases :
  forall v2 vname,
    v2_sound n v2 ->
    v2_sound n (set_aliases v2 vname aliases)
    /\ V2Solution.variables (set_aliases v2 vname aliases) = V2Solution.variables v2.
Proof.
  unfold set_aliases. induction aliases as [|a l IH]; intros v2 vname H;
    [split; [exact H | reflexivity]|].
  cbn [fold_left].
  destruct (IH _ vname (v2_sound_set_alias n v2 a vname H)) as [H1 H2].
  split; [exact H1|]. now rewrite H2, set_alias_variables.
Qed.

Lemma set_formula_keeps v formula registry_with v' :
  set_formula v formula registry_with = Returns v' ->
  V2Variable.name v' = V2Variable.name v
  /\ V2Variable.solution_name v' = V2Variable.solution_name v
  /\ V2Variable.lives v' = V2Variable.lives v.
Proof.
  unfold set_formula.
  destruct (V2FormulaEvaluator.evaluate_formula _ _); [| |discriminate];
    intros [= <-]; repeat split.
Qed.

Lemma ensure_variable_sound n self var_name :
  v2_sound n self ->
  v2_sound n (ensure_variable self var_name)
  /\ forall k, Dict.mem (V2Solution.variables self) k = true ->
               Dict.mem (V2Solution.variables (ensure_variable self var_name)) k
               = true.
Proof.
  intros H. unfold ensure_variable.
  destruct (negb (Dict.mem (V2Solution.variables self) var_name)).
  - split; [now apply v2_sound_create|]. intros k Hk.
    cbn [fst V2Solution.create_variable V2Solution.variables].
    now apply mem_set_kept.
  - split; [exact H | auto].
Qed.

(** What [execute_expression] leaves, whether it returns or raises. *)
Lemma execute_expression_sound n self expression registry_with :
  v2_sound n self ->
  match execute_expression self expression registry_with with
  | Done self' | Failed self' _ =>
      v2_sound n self'
      /\ forall k, Dict.mem (V2Solution.variables self) k = true ->
                   Dict.mem (V2Solution.variables self') k = true
  | Unknown => True
  end.
Proof.
  intros H. unfold execute_expression.
  destruct (parse_expression expression) as [[var_name solution value
                                             |var_name solution formula deps
                                             |t sv ss
                                             |alias value]|msg|];
    [| | | | split; [exact H | auto] | exact I].
  - destruct (negb (String.eqb solution (V2Solution.name self)));
      [split; [exact H | auto]|].
    destruct (ensure_variable_sound n self var_name H) as [H1 Hkeys].
    destruct (Dict.get _ var_name) as [v|] eqn:Hv; [|exact I].
    pose proof H1 as (Hname & Hvars & Haliases).
    destruct (Hvars _ _ Hv) as (Hvn & Hvs & Hvl).
    split.
    + apply v2_sound_store; [exact H1 | exact Hvn | exact Hvs | exact Hvl].
    + intros k Hk. unfold V2Solution.store. cbn [V2Solution.variables].
      apply mem_set_kept, Hkeys, Hk.
  - destruct (negb (String.eqb solution (V2Solution.name self)));
      [split; [exact H | auto]|].
    destruct (ensure_variable_sound n self var_name H) as [H1 Hkeys].
    destruct (Dict.get _ var_name) as [v|] eqn:Hv; [|exact I].
    destruct (set_formula v formula _) as [v'| |] eqn:Hf; [| |exact I].
    + destruct (set_formula_keeps _ _ _ _ Hf) as (E1 & E2 & E3).
      pose proof H1 as (Hname & Hvars & Haliases).
      destruct (Hvars _ _ Hv) as (Hvn & Hvs & Hvl).
      split.
      * apply v2_sound_store; [exact H1 | | |]; congruence.
      * intros k Hk. unfold V2Solution.store. cbn [V2Solution.variables].
        apply mem_set_kept, Hkeys, Hk.
    + split; [exact H1 | exact Hkeys].
  - split; [exact H | auto].
  - destruct (negb (Dict.mem (V2Solution.variables self) alias)
              && negb (Dict.mem (V2Solution.aliases self) alias)).
    + cbn [V2Solution.create_variable V2Variable.name V2Variable.init
           V2Variable.set_value].
      set (self1 := V2Solution.store _ _ _).
      assert (H1 : v2_sound n self1).
      { apply v2_sound_store; [|reflexivity|apply H|reflexivity].
        apply (v2_sound_create n self ("_alias_" ++ alias) VNone H). }
      assert (Hkeys : forall k, Dict.mem (V2Solution.variables self) k = true ->
                                Dict.mem (V2Solution.variables self1) k = true).
      { intros k Hk. unfold self1, V2Solution.store. cbn [V2Solution.variables].
        now apply mem_set_kept, mem_set_kept. }
      clearbody self1.
      pose proof (v2_sound_set_alias n self1 alias ("_alias_" ++ alias) H1) as H2.
      pose proof (set_alias_variables self1 alias ("_alias_" ++ alias)) as H3.
      destruct (V2Solution.set_alias self1 alias ("_alias_" ++ alias))
        as [self2 [msg|]]; cbn [fst] in H2, H3;
        (split; [exact H2 | intros k Hk; rewrite H3; now apply Hkeys]).
    + destruct (variable_key self alias) as [key|]; [|split; [exact H | auto]].
      destruct (Dict.get (V2Solution.variables self) key) as [var|] eqn:Hv;
        [|split; [exact H | auto]].
      pose proof H as (Hname & Hvars & Haliases).
      destruct (Hvars _ _ Hv) as (Hvn & Hvs & Hvl).
      split.
      * apply v2_sound_store; [exact H | exact Hvn | exact Hvs | exact Hvl].
      * intros k Hk. unfold V2Solution.store. cbn [V2Solution.variables].
        now apply mem_set_kept.
Qed.

(** *** The worlds *)

Lemma hybrid_sound_transfer w w' n s :
  hybrid_sound w n s ->
  (forall v2, Dict.get (v2_solutions w) n = Some v2 ->
              exists v2', Dict.get (v2_solutions w') n = Some v2'
                          /\ forall k, Dict.mem (V2Solution.variables v2) k = true ->
                                       Dict.mem (V2Solution.variables v2') k = true) ->
  hybrid_sound w' n s.
Proof.
  intros (Hname & Hnodup & Hvars) Hv2. split; [exact Hname|].
  split; [exact Hnodup|]. intros k hv Hin.
  destruct (Hvars k hv Hin) as (H1 & H2 & H3 & v2 & Hget & Hmem).
  repeat (split; [assumption|]).
  destruct (Hv2 v2 Hget) as (v2' & Hget' & Hkeys). exists v2'. auto.
Qed.

Lemma coherent_empty : coherent empty_world.
Proof.
  split; [apply empty_world_well_formed|]. split; [reflexivity|].
  split; intros n s H; discriminate H.
Qed.

Lemma coherent_reset w : coherent (reset w).
Proof.
  split; [intros n s H; discriminate H|]. split; [reflexivity|].
  split; intros n s H; discriminate H.
Qed.

Lemma coherent_new_solution w name : coherent w -> coherent (new_solution w name).
Proof.
  intros (Hwf & Hmem & Hhybrid & Hv2).
  split; [now apply new_solution_well_formed|].
  unfold new_solution. cbn [solutions v2_solutions].
  split; [intros n; now rewrite !mem_set, Hmem|]. split.
  - intros n s. destruct (String.eqb n name) eqn:E.
    + apply String.eqb_eq in E. subst n. rewrite get_set_same. intros [= <-].
      split; [reflexivity|]. split; [constructor | intros k hv []].
    + apply String.eqb_neq in E. rewrite get_set_other by exact E. intros Hs.
      apply (hybrid_sound_transfer w); [now apply Hhybrid|].
      intros v2 Hget. exists v2. cbn [v2_solutions].
      rewrite get_set_other by exact E. auto.
  - intros n v2. destruct (String.eqb n name) eqn:E.
    + apply String.eqb_eq in E. subst n. rewrite get_set_same. intros [= <-].
      apply v2_sound_init.
    + apply String.eqb_neq in E. rewrite get_set_other by exact E. apply Hv2.
Qed.

Lemma coherent_create w me vname value var_type aliases w' hv :
  create_variable w me vname value var_type aliases = Some (w', hv) ->
  coherent w -> coherent w'.
Proof.
  intros Hcreate Hw. pose proof Hw as (Hwf & Hmem & Hhybrid & Hv2).
  split; [eapply create_variable_well_formed; eauto|].
  unfold create_variable in Hcreate.
  destruct (Dict.get (solutions w) me) as [self|] eqn:Hself; [|discriminate].
  destruct (Dict.get (v2_solutions w) me) as [v2|] eqn:Hv2me; [|discriminate].
  injection Hcreate as <- <-. cbn [solutions v2_solutions].
  destruct (Hhybrid _ _ Hself) as (Hname & Hnodup & Hvars).
  destruct (set_aliases_sound me aliases
              (fst (V2Solution.create_variable v2 vname value)) vname
              (v2_sound_create me v2 vname value (Hv2 _ _ Hv2me)))
    as [Hsound Hsame].
  split; [intros n; now rewrite !mem_set, Hmem|]. split.
  - intros n s. destruct (String.eqb n me) eqn:E.
    + apply String.eqb_eq in E. subst n. rewrite get_set_same. intros [= <-].
      split; [exact Hname|]. cbn [HybridSolution.variables].
      split; [now apply NoDup_set|]. intros k h Hin.
      assert (Hnew : exists v2', Dict.get
                                   (v2_solutions
                                      (mkWorld
                                         (Dict.set (solutions w) me
                                            (HybridSolution.mk (HybridSolution.name self)
                                               (Dict.set (HybridSolution.variables self) vname
                                                  (HybridVariable.init vname value var_type
                                                     (HybridSolution.name self)
                                                     (HybridSolution.next_variable_id self)
                                                     aliases))
                                               (HybridSolution.next_variable_id self + 1)))
                                         (Dict.set (v2_solutions w) me
                                            (set_aliases
                                               (fst (V2Solution.create_variable v2 vname value))
                                               vname aliases))
                                         (tracker w))) me = Some v2'
                                 /\ V2Solution.variables v2'
                                    = Dict.set (V2Solution.variables v2) vname
                                        (V2Variable.init vname value (V2Solution.name v2)
                                           InSolution)).
      { eexists. cbn [v2_solutions]. rewrite get_set_same. split; [reflexivity|].
        rewrite Hsame. reflexivity. }
      destruct Hnew as (v2' & Hget' & Hvars').
      destruct (In_set _ _ _ _ _ Hnodup Hin) as [[-> ->] | [Hne Hold]].
      * cbn [HybridVariable.init HybridVariable.name HybridVariable.solution_name
             HybridVariable.v2_variable V2Variable.init V2Variable.lives].
        repeat (split; [reflexivity || exact Hname|]).
        exists v2'. split; [exact Hget'|]. rewrite Hvars'. apply mem_set_same.
      * destruct (Hvars k h Hold) as (H1 & H2 & H3 & v2o & Hgeto & Hmemo).
        repeat (split; [assumption|]).
        exists v2'. split; [exact Hget'|]. rewrite Hvars'.
        apply mem_set_kept. congruence.
    + apply String.eqb_neq in E. rewrite get_set_other by exact E. intros Hs.
      apply (hybrid_sound_transfer w); [now apply Hhybrid|].
      intros v2o Hget. exists v2o. cbn [v2_solutions].
      rewrite get_set_other by exact E. auto.
  - intros n v2o. destruct (String.eqb n me) eqn:E.
    + apply String.eqb_eq in E. subst n. rewrite get_set_same. now intros [= <-].
    + apply String.eqb_neq in E. rewrite get_set_other by exact E. apply Hv2.
Qed.

Lemma In_values {V : Type} (d : Dict.t V) v :
  In v (Dict.values d) <-> exists k, In (k, v) d.
Proof.
  unfold Dict.values. rewrite in_map_iff. split.
  - intros [[k v'] [Heq Hin]]. cbn [snd] in Heq. subst. eauto.
  - intros [k Hin]. exists (k, v). auto.
Qed.

Lemma coherent_assign w me key value w' :
  assign_value w me key value = Done w' -> coherent w -> coherent w'.
Proof.
  intros Hassign Hw. pose proof Hw as (Hwf & Hmem & Hhybrid & Hv2).
  unfold assign_value in Hassign.
  destruct (Dict.get (solutions w) me) as [self|] eqn:Hself; [|discriminate].
  destruct (Dict.get (HybridSolution.variables self) key) as [var|] eqn:Hvar;
    [|discriminate].
  injection Hassign as <-.
  destruct (Hhybrid _ _ Hself) as (Hname & Hnodup & Hvars).
  pose proof (get_In _ _ _ Hvar) as Hentry.
  assert (Hsplit : forall k h,
             In (k, h) (Dict.set (HybridSolution.variables self) key
                          (HybridVariable.set_value var value)) ->
             (k = key /\ h = HybridVariable.set_value var value)
             \/ (k <> key /\ In (k, h) (HybridSolution.variables self)))
    by (intros k h; now apply In_set).
  split; [|split; [|split]].
  - intros n s. cbn [solutions]. destruct (String.eqb n me) eqn:E.
    + apply String.eqb_eq in E. subst n. rewrite get_set_same. intros [= <-].
      destruct (Hwf _ _ Hself) as [Hbound Hdistinct].
      unfold well_formed, HybridSolution.get_all_variables.
      cbn [HybridSolution.variables HybridSolution.next_variable_id].
      assert (Hold : forall k h, In (k, h) (HybridSolution.variables self) ->
                                 In h (Dict.values (HybridSolution.variables self)))
        by (intros k h Hin; apply In_values; eauto).
      split.
      * intros v Hv. apply In_values in Hv. destruct Hv as [k Hin].
        destruct (Hsplit _ _ Hin) as [[_ ->] | [_ Hin']].
        -- apply (Hbound var). eauto.
        -- apply Hbound. eauto.
      * intros v v' Hv Hv' Hid.
        apply In_values in Hv. destruct Hv as [k Hin].
        apply In_values in Hv'. destruct Hv' as [k' Hin'].
        destruct (Hsplit _ _ Hin) as [[_ ->] | [Hk Hv]];
          destruct (Hsplit _ _ Hin') as [[_ ->] | [Hk' Hv']].
        -- reflexivity.
        -- exfalso. apply Hk'.
           assert (v' = var) by (apply Hdistinct; eauto).
           subst v'.
           destruct (Hvars _ _ Hv') as (Hn1 & _).
           destruct (Hvars _ _ Hentry) as (Hn2 & _). congruence.
        -- exfalso. apply Hk.
           assert (v = var) by (apply Hdistinct; eauto).
           subst v.
           destruct (Hvars _ _ Hv) as (Hn1 & _).
           destruct (Hvars _ _ Hentry) as (Hn2 & _). congruence.
        -- apply Hdistinct; eauto.
    + apply String.eqb_neq in E. rewrite get_set_other by exact E. apply Hwf.
  - intros n. cbn [solutions v2_solutions]. rewrite mem_set, <- Hmem.
    destruct (String.eqb n me) eqn:E; [|reflexivity].
    apply String.eqb_eq in E. subst. unfold Dict.mem. now rewrite Hself.
  - intros n s. cbn [solutions]. destruct (String.eqb n me) eqn:E.
    + apply String.eqb_eq in E. subst n. rewrite get_set_same. intros [= <-].
      split; [exact Hname|]. cbn [HybridSolution.variables].
      split; [now apply NoDup_set|]. intros k h Hin.
      destruct (Hsplit _ _ Hin) as [[-> ->] | [_ Hold]].
      * destruct (Hvars _ _ Hentry) as (H1 & H2 & H3 & Hex).
        cbn [v2_solutions]. repeat (split; [assumption|]). exact Hex.
      * exact (Hvars _ _ Hold).
    + apply String.eqb_neq in E. rewrite get_set_other by exact E. intros Hs.
      apply (hybrid_sound_transfer w); [now apply Hhybrid|].
      intros v2o Hget. exists v2o. auto.
  - exact Hv2.
Qed.

Lemma execute_v2_expression_shape w me expression :
  match execute_v2_expression w me expression with
  | Done w' | Failed w' _ =>
      solutions w' = solutions w
      /\ exists v2 v2',
           Dict.get (v2_solutions w) me = Some v2
           /\ v2_solutions w' = Dict.set (v2_solutions w) me v2'
           /\ match execute_expression v2 expression
                      (fun s => Dict.set (v2_solutions w) me s) with
              | Done s | Failed s _ => s = v2'
              | Unknown => False
              end
  | Unknown => True
  end.
Proof.
  unfold execute_v2_expression, execute_registered.
  destruct (Dict.get (solutions w) me) as [self|]; [|exact I].
  destruct (Dict.get (v2_solutions w) me) as [v2|]; [|exact I].
  destruct (execute_expression v2 expression _) as [s|s msg|] eqn:He;
    [| |exact I].
  - destruct (parse_expression expression) as [[?|? ? ? ?|?|?]| |];
      try (split; [reflexivity|]; exists v2, s; rewrite He; auto).
    destruct (Dict.get (Dict.set (v2_solutions w) me s) me);
      [|split; [reflexivity|]; exists v2, s; rewrite He; auto].
    destruct (get_variable_by_reference _ _ _);
      split; try reflexivity; exists v2, s; rewrite He; auto.
  - split; [reflexivity|]. exists v2, s. rewrite He. auto.
Qed.

Lemma coherent_execute w me expression :
  coherent w ->
  match execute_v2_expression w me expression with
  | Done w' | Failed w' _ => coherent w'
  | Unknown => True
  end.
Proof.
  intros (Hwf & Hmem & Hhybrid & Hv2).
  pose proof (execute_v2_expression_shape w me expression) as Hshape.
  assert (Hgoal : forall w',
             solutions w' = solutions w
             /\ (exists v2 v2',
                   Dict.get (v2_solutions w) me = Some v2
                   /\ v2_solutions w' = Dict.set (v2_solutions w) me v2'
                   /\ match execute_expression v2 expression
                              (fun s => Dict.set (v2_solutions w) me s) with
                      | Done s | Failed s _ => s = v2'
                      | Unknown => False
                      end) -> coherent w').
  { intros w' (Hsol & v2 & v2' & Hget & Hreg & Hrun).
    pose proof (execute_expression_sound me v2 expression
                  (fun s => Dict.set (v2_solutions w) me s) (Hv2 _ _ Hget))
      as Hsound.
    assert (Hnew : v2_sound me v2'
                   /\ forall k, Dict.mem (V2Solution.variables v2) k = true ->
                                Dict.mem (V2Solution.variables v2') k = true).
    { destruct (execute_expression v2 expression _); [| |destruct Hrun];
        subst; exact Hsound. }
    destruct Hnew as [Hsound' Hkeys].
    split; [intros n s; rewrite Hsol; apply Hwf|].
    split; [|split].
    - intros n. rewrite Hsol, Hreg, mem_set, Hmem.
      destruct (String.eqb n me) eqn:E; [|reflexivity].
      apply String.eqb_eq in E. subst. unfold Dict.mem. now rewrite Hget.
    - intros n s. rewrite Hsol. intros Hs.
      apply (hybrid_sound_transfer w); [now apply Hhybrid|].
      intros v2o Hgeto. rewrite Hreg.
      destruct (String.eqb n me) eqn:E.
      + apply String.eqb_eq in E. subst n. rewrite get_set_same.
        exists v2'. split; [reflexivity|].
        assert (v2o = v2) by congruence. subst v2o. exact Hkeys.
      + apply String.eqb_neq in E. rewrite get_set_other by exact E.
        exists v2o. auto.
    - intros n v2o. rewrite Hreg. destruct (String.eqb n me) eqn:E.
      + apply String.eqb_eq in E. subst n. rewrite get_set_same. now intros [= <-].
      + apply String.eqb_neq in E. rewrite get_set_other by exact E. apply Hv2. }
  destruct (execute_v2_expression w me expression); [| |exact I];
    apply Hgoal; exact Hshape.
Qed.

(** X16: whatever calls built it, the world of the hybrid layer is
    in order: the two tables of the manager hold the same names, a
    solution and its variables bear the names they are stored under,
    every hybrid variable has a number of its own, a V2 variable of
    its own and a namesake in the V2 solution, and no alias of a V2
    solution is left without its variable. *)
Theorem built_worlds_are_coherent (w : world) : built w -> coherent w.
Proof.
  intros H. induction H as [|w _ _|w name _ IH|w me vname value var_type aliases w' hv _ IH Hc
                            |w me key value w' _ IH Ha
                            |w me expression w' _ IH He
                            |w me expression w' msg _ IH He].
  - apply coherent_empty.
  - apply coherent_reset.
  - now apply coherent_new_solution.
  - eapply coherent_create; eauto.
  - eapply coherent_assign; eauto.
  - pose proof (coherent_execute w me expression IH) as Hx. now rewrite He in Hx.
  - pose proof (coherent_execute w me expression IH) as Hx. now rewrite He in Hx.
Qed.

Lemma built_worlds_example : coherent panel_world.
Proof.
  apply (built_worlds_are_coherent panel_world).
  apply (built_variable (new_solution empty_world "panel") "panel" "length"
           (VInt 600) CONTROLLABLE ["L"; "len"] panel_world length_var);
    [apply built_solution, built_empty | reflexivity].
Defined.

End Worlds.

(** ** The properties of a box *)

Module Boxes.

Import PyStr Statements V2 Hybrid DictFacts AddressForms Recompute Worlds.

Lemma and_then_done r next w' :
  and_then r next = Done w' -> exists w1, r = Done w1 /\ next w1 = Done w'.
Proof. destruct r as [w1| |]; [eauto | discriminate | discriminate]. Qed.

Lemma created_done r w' :
  created r = Done w' -> exists hv, r = Some (w', hv).
Proof.
  destruct r as [[w1 hv]|]; [|discriminate]. intros [= <-]. eauto.
Qed.

Lemma create_variable_solution w me vname value var_type aliases w' hv self :
  Dict.get (solutions w) me = Some self ->
  create_variable w me vname value var_type aliases = Some (w', hv) ->
  Dict.get (solutions w') me
  = Some (HybridSolution.mk (HybridSolution.name self)
            (Dict.set (HybridSolution.variables self) vname
               (HybridVariable.init vname value var_type (HybridSolution.name self)
                  (HybridSolution.next_variable_id self) aliases))
            (HybridSolution.next_variable_id self + 1)).
Proof.
  intros Hself. unfold create_variable. rewrite Hself.
  destruct (Dict.get (v2_solutions w) me); [|discriminate].
  intros [= <- _]. cbn [solutions]. apply get_set_same.
Qed.

(** A dimension is set on the hybrid variable when it is a number,
    and only then. *)
Lemma set_dimension_solution w me value key w' self var :
  Dict.get (solutions w) me = Some self ->
  Dict.get (HybridSolution.variables self) key = Some var ->
  HybridBoxSolution._set_dimension_value w me value key = Done w' ->
  Dict.get (solutions w') me
  = Some (match value with
          | VInt _ | VFloat _ =>
              HybridSolution.mk (HybridSolution.name self)
                (Dict.set (HybridSolution.variables self) key
                   (HybridVariable.set_value var (reported value)))
                (HybridSolution.next_variable_id self)
          | VStr _ | VNone => self
          end).
Proof.
  intros Hself Hvar. unfold HybridBoxSolution._set_dimension_value, reported.
  destruct value as [|z|f|text].
  - now intros [= <-].
  - destruct (PyFloat.float_of_int z) as [f|]; [|discriminate].
    unfold assign_value. rewrite Hself, Hvar. intros [= <-].
    cbn [solutions]. apply get_set_same.
  - unfold assign_value. rewrite Hself, Hvar. intros [= <-].
    cbn [solutions]. apply get_set_same.
  - rewrite Hself. intros Hrun.
    pose proof (execute_v2_expression_solutions w me
                  (key ++ "@" ++ HybridSolution.name self ++ "=" ++ text)) as Hsol.
    rewrite Hrun in Hsol. now rewrite Hsol.
Qed.

Lemma set_dimension_fresh w me value key w' self t id aliases :
  Dict.get (solutions w) me = Some self ->
  Dict.get (HybridSolution.variables self) key
  = Some (HybridVariable.init key (VInt 0) t (HybridSolution.name self) id aliases) ->
  HybridBoxSolution._set_dimension_value w me value key = Done w' ->
  Dict.get (solutions w') me
  = Some (HybridSolution.mk (HybridSolution.name self)
            (Dict.set (HybridSolution.variables self) key
               (HybridVariable.init key (reported value) t
                  (HybridSolution.name self) id aliases))
            (HybridSolution.next_variable_id self)).
Proof.
  intros Hself Hvar Hrun.
  rewrite (set_dimension_solution _ _ _ _ _ _ _ Hself Hvar Hrun).
  destruct value as [|z|f|text]; try reflexivity.
  - cbn [reported]. rewrite (set_get_same _ _ _ Hvar). now destruct self.
  - cbn [reported]. rewrite (set_get_same _ _ _ Hvar). now destruct self.
Qed.

Lemma box_is_built w name length width height w' :
  HybridBoxSolution.init w name length width height = Done w' ->
  Dict.get (solutions w') name = Some (built_box name length width height)
  /\ exists v2, Dict.get (v2_solutions w') name = Some v2.
Proof.
  unfold HybridBoxSolution.init, HybridBoxSolution._setup_variables.
  intros H.
  assert (H0 : Dict.get (solutions (new_solution w name)) name
               = Some (HybridSolution.mk name [] 1))
    by (unfold new_solution; cbn [solutions]; apply get_set_same).
  apply and_then_done in H. destruct H as (w1 & Hc1 & H).
  apply created_done in Hc1. destruct Hc1 as (hv1 & Hc1).
  pose proof (create_variable_solution _ _ _ _ _ _ _ _ _ H0 Hc1) as H1.
  simpl in H1.
  apply and_then_done in H. destruct H as (w2 & Hc2 & H).
  apply created_done in Hc2. destruct Hc2 as (hv2 & Hc2).
  pose proof (create_variable_solution _ _ _ _ _ _ _ _ _ H1 Hc2) as H2.
  simpl in H2.
  apply and_then_done in H. destruct H as (w3 & Hc3 & H).
  apply created_done in Hc3. destruct Hc3 as (hv3 & Hc3).
  pose proof (create_variable_solution _ _ _ _ _ _ _ _ _ H2 Hc3) as H3.
  simpl in H3.
  apply and_then_done in H. destruct H as (w4 & Hd4 & H).
  pose proof (set_dimension_fresh w3 name length "length" w4 _ CONTROLLABLE 1%Z
                ["L"; "len"] H3 eq_refl Hd4) as H4.
  simpl in H4.
  apply and_then_done in H. destruct H as (w5 & Hd5 & H).
  pose proof (set_dimension_fresh w4 name width "width" w5 _ CONTROLLABLE 2%Z
                ["W"; "wid"] H4 eq_refl Hd5) as H5.
  simpl in H5.
  apply and_then_done in H. destruct H as (w6 & Hd6 & H).
  pose proof (set_dimension_fresh w5 name height "height" w6 _ CONTROLLABLE 3%Z
                ["H"; "hei"] H5 eq_refl Hd6) as H6.
  simpl in H6.
  apply and_then_done in H. destruct H as (w7 & Hc7 & H).
  apply created_done in Hc7. destruct Hc7 as (hv7 & Hc7).
  pose proof (create_variable_solution _ _ _ _ _ _ _ _ _ H6 Hc7) as H7.
  simpl in H7.
  rewrite H7 in H. cbn [HybridSolution.name] in H.
  pose proof (execute_v2_expression_solutions w7 name
                (HybridBoxSolution.volume_statement name)) as Hsol.
  pose proof (execute_v2_expression_shape w7 name
                (HybridBoxSolution.volume_statement name)) as Hshape.
  rewrite H in Hsol, Hshape. split.
  - rewrite Hsol. exact H7.
  - destruct Hshape as (_ & v2 & v2' & _ & Hreg & _). exists v2'.
    rewrite Hreg. apply get_set_same.
Qed.

(** X17: the properties of a box return the numbers it was built
    with, as floats; for a dimension given by a formula they return
    zero, and the volume they return is always zero: a formula never
    reaches the hybrid variable the property reads. *)
Theorem box_properties (w : world) (name : string) (length width height : pyval)
        (w' : world) :
  HybridBoxSolution.init w name length width height = Done w' ->
  HybridBoxSolution.dimension w' name "length" = Returns (reported length)
  /\ HybridBoxSolution.dimension w' name "width" = Returns (reported width)
  /\ HybridBoxSolution.dimension w' name "height" = Returns (reported height)
  /\ HybridBoxSolution.dimension w' name "volume" = Returns (VInt 0).
Proof.
  intros H. destruct (box_is_built _ _ _ _ _ _ H) as (Hs & v2 & Hv2).
  unfold HybridBoxSolution.dimension. rewrite Hs, Hv2.
  repeat split; reflexivity.
Qed.

Lemma box_properties_example :
  HybridBoxSolution.dimension panel_box "panel" "length"
  = Returns (reported (VInt 600))
  /\ HybridBoxSolution.dimension panel_box "panel" "width"
     = Returns (reported (VInt 400))
  /\ HybridBoxSolution.dimension panel_box "panel" "height"
     = Returns (reported (VInt 18))
  /\ HybridBoxSolution.dimension panel_box "panel" "volume" = Returns (VInt 0).
Proof.
  apply (box_properties empty_world "panel" (VInt 600) (VInt 400) (VInt 18)
           panel_box).
  vm_compute. reflexivity.
Defined.

End Boxes.

(** ** References replaced in a text *)

Module Substitution.

Import PyStr Regex Statements StrFacts RegexFacts V2.

Lemma length_app a b : String.length (a ++ b) = String.length a + String.length b.
Proof.
  induction a as [|c r IH]; [reflexivity|].
  cbn [String.append String.length]. now rewrite IH.
Qed.

Lemma sub_refs_skip repl a rest :
  sub_refs repl (String.length a) (a ++ rest) = sub_refs repl 0 rest.
Proof.
  induction a as [|c r IH]; [reflexivity|].
  cbn [String.length String.append sub_refs]. exact IH.
Qed.

Lemma ref_at_match v n rest :
  is_identifier v = true -> is_identifier n = true ->
  match rest with
  | EmptyString => True
  | String c _ => ident_char c = false
  end ->
  ref_at (v ++ "." ++ n ++ rest) = Some (v, n).
Proof.
  intros Hv Hn Hrest. unfold ref_at.
  rewrite (ident_app v) by (assumption || reflexivity).
  cbn [String.append lit Ascii.eqb Bool.eqb].
  now rewrite (ident_app n rest Hn Hrest).
Qed.

(** A reference at the head of a text is replaced, and the
    substitution goes on after it. *)
Lemma sub_refs_match repl v n rest :
  is_identifier v = true -> is_identifier n = true ->
  match rest with
  | EmptyString => True
  | String c _ => ident_char c = false
  end ->
  sub_refs repl 0 (v ++ "." ++ n ++ rest)
  = then_text (repl v n) (fun text =>
    then_text (sub_refs repl 0 rest) (fun out => Returns (text ++ out))).
Proof.
  intros Hv Hn Hrest.
  pose proof (ref_at_match v n rest Hv Hn Hrest) as Href.
  destruct v as [|c r]; [discriminate|].
  cbn [String.append] in *. cbn [sub_refs]. rewrite Href.
  unfold then_text. destruct (repl (String c r) n); [|reflexivity|reflexivity].
  replace (String.length (String c r) + String.length n)
    with (String.length (r ++ String "." n)).
  - change (r ++ String "." (n ++ rest)) with (r ++ "." ++ n ++ rest).
    assert (E : r ++ "." ++ n ++ rest = (r ++ String "." n) ++ rest).
    { clear. induction r as [|d r IH]; cbn [String.append].
      - reflexivity.
      - f_equal. exact IH. }
    rewrite E, sub_refs_skip. reflexivity.
  - rewrite length_app. cbn [String.length]. lia.
Qed.

(** A character at which no name begins is copied. *)
Lemma sub_refs_plain repl c rest :
  ident_start c = false ->
  sub_refs repl 0 (String c rest)
  = then_text (sub_refs repl 0 rest) (fun out => Returns (String c out)).
Proof.
  intros Hc. cbn [sub_refs]. unfold ref_at. cbn [ident]. rewrite Hc.
  reflexivity.
Qed.

Lemma sub_refs_volume repl name :
  is_identifier name = true ->
  sub_refs repl 0
    ("length." ++ name ++ " * width." ++ name ++ " * height." ++ name)
  = then_text (repl "length" name) (fun a =>
    then_text (repl "width" name) (fun b =>
    then_text (repl "height" name) (fun c =>
    Returns (a ++ " * " ++ b ++ " * " ++ c)))).
Proof.
  intros Hn.
  change ("length." ++ name ++ " * width." ++ name ++ " * height." ++ name)
    with ("length" ++ "." ++ name
          ++ " * " ++ ("width" ++ "." ++ name
          ++ " * " ++ ("height" ++ "." ++ name))).
  rewrite sub_refs_match by (assumption || reflexivity).
  destruct (repl "length" name) as [a| |]; [|reflexivity|reflexivity].
  cbn [then_text]. cbn [String.append].
  rewrite !sub_refs_plain by reflexivity.
  change (String "w" (String "i" (String "d" (String "t" (String "h"
            (String "." (name ++ String " " (String "*" (String " "
               (String "h" (String "e" (String "i" (String "g" (String "h"
                  (String "t" (String "." name))))))))))))))))
    with ("width" ++ "." ++ name
          ++ " * " ++ ("height" ++ "." ++ name)).
  rewrite sub_refs_match by (assumption || reflexivity).
  destruct (repl "width" name) as [b| |]; [|reflexivity|reflexivity].
  cbn [then_text]. cbn [String.append].
  rewrite !sub_refs_plain by reflexivity.
  change (String "h" (String "e" (String "i" (String "g" (String "h"
            (String "t" (String "." name)))))))
    with ("height" ++ "." ++ name).
  rewrite <- (append_empty_r name) at 1.
  change ("height" ++ "." ++ name ++ "") with ("height" ++ "." ++ name ++ "").
  rewrite (sub_refs_match repl "height" name "") by (assumption || exact I || reflexivity).
  destruct (repl "height" name) as [c| |]; [|reflexivity|reflexivity].
  cbn [then_text sub_refs]. rewrite append_empty_r. reflexivity.
Qed.

Lemma rstrip_before a b : rstrip b = b -> b <> "" -> rstrip (a ++ b) = a ++ b.
Proof.
  intros Hb Hne. induction a as [|c r IH]; [exact Hb|].
  cbn [String.append rstrip]. rewrite IH.
  destruct (r ++ b) eqn:E; [|reflexivity].
  destruct r; [cbn in E; contradiction | discriminate E].
Qed.

Lemma app_not_empty a b : a <> "" -> a ++ b <> "".
Proof. destruct a; [contradiction | discriminate]. Qed.

Lemma identifier_not_empty n : is_identifier n = true -> n <> "".
Proof. destruct n; [discriminate | discriminate]. Qed.

Lemma identifier_no_newline n : is_identifier n = true -> contains NL n = false.
Proof.
  intros H. eapply forallb_contains; [apply identifier_chars, H | reflexivity].
Qed.

Lemma volume_formula_parsed name :
  is_identifier name = true ->
  parse_expression (Hybrid.HybridBoxSolution.volume_statement name)
  = Returns (Formula "volume" name (volume_formula name)
               (extract_variable_references (volume_formula name))).
Proof.
  intros Hn.
  pose proof (identifier_not_empty _ Hn) as Hne.
  pose proof (rstrip_plain name (identifier_no_space _ Hn)) as Hr.
  change (Hybrid.HybridBoxSolution.volume_statement name)
    with ("volume" ++ "@" ++ name ++ "=" ++ volume_formula name).
  assert (Href : _contains_variable_references (volume_formula name) = true).
  { unfold _contains_variable_references, volume_formula.
    pose proof (ref_at_match "length" name
                  (" * width." ++ name ++ " * height." ++ name)
                  eq_refl Hn eq_refl) as Href.
    cbn [String.append] in *. cbn [findall_refs]. now rewrite Href. }
  assert (Hstrip : rstrip (volume_formula name) = volume_formula name).
  { unfold volume_formula.
    repeat (apply rstrip_before;
            [|first [exact Hne | apply app_not_empty; first [exact Hne | discriminate]]]).
    exact Hr. }
  assert (Hnl : contains NL (volume_formula name) = false).
  { unfold volume_formula.
    rewrite !contains_app, (identifier_no_newline _ Hn). reflexivity. }
  unfold parse_expression.
  rewrite (strip_write "volume" name _ eq_refl Hn), Hstrip.
  rewrite (match_assignment_write "volume" name _ eq_refl Hn);
    [now rewrite Href | discriminate | exact Hnl].
Qed.

End Substitution.

(** ** Boxes built from numbers *)

Module NumberBoxes.

Import PyStr Regex Statements StrFacts RegexFacts V2 V2FormulaEvaluator Hybrid
       DictFacts AddressForms Recompute Worlds Boxes Substitution.

Lemma create_variable_forward w me vname value var_type aliases self v2 :
  Dict.get (solutions w) me = Some self ->
  Dict.get (v2_solutions w) me = Some v2 ->
  exists w',
    created (create_variable w me vname value var_type aliases) = Done w'
    /\ Dict.get (solutions w') me
       = Some (HybridSolution.mk (HybridSolution.name self)
                 (Dict.set (HybridSolution.variables self) vname
                    (HybridVariable.init vname value var_type
                       (HybridSolution.name self)
                       (HybridSolution.next_variable_id self) aliases))
                 (HybridSolution.next_variable_id self + 1))
    /\ Dict.get (v2_solutions w') me
       = Some (set_aliases (fst (V2Solution.create_variable v2 vname value))
                 vname aliases).
Proof.
  intros Hs Hv. unfold create_variable. rewrite Hs, Hv. eexists.
  split; [reflexivity|]. cbn [solutions v2_solutions].
  now rewrite !get_set_same.
Qed.

Lemma set_number_forward w me value key self var v2 :
  is_number value = true ->
  Dict.get (solutions w) me = Some self ->
  Dict.get (HybridSolution.variables self) key = Some var ->
  Dict.get (v2_solutions w) me = Some v2 ->
  exists w',
    HybridBoxSolution._set_dimension_value w me value key = Done w'
    /\ Dict.get (solutions w') me
       = Some (HybridSolution.mk (HybridSolution.name self)
                 (Dict.set (HybridSolution.variables self) key
                    (HybridVariable.set_value var (reported value)))
                 (HybridSolution.next_variable_id self))
    /\ Dict.get (v2_solutions w') me = Some v2.
Proof.
  intros Hnum Hs Hvar Hv.
  unfold HybridBoxSolution._set_dimension_value, is_number, reported in *.
  destruct value as [|z|f|text]; try discriminate.
  - destruct (PyFloat.float_of_int z) as [f|]; [|discriminate].
    unfold assign_value. rewrite Hs, Hvar. eexists. split; [reflexivity|].
    cbn [solutions v2_solutions]. now rewrite get_set_same.
  - unfold assign_value. rewrite Hs, Hvar. eexists. split; [reflexivity|].
    cbn [solutions v2_solutions]. now rewrite get_set_same.
Qed.

(** The formula of the volume, evaluated where the three dimensions
    are replaced by [0]. *)
Lemma volume_evaluated name reg :
  is_identifier name = true ->
  replace_reference reg "length" name = Returns "0" ->
  replace_reference reg "width" name = Returns "0" ->
  replace_reference reg "height" name = Returns "0" ->
  evaluate_formula (volume_formula name) reg = Returns (S754_zero false).
Proof.
  intros Hn Hl Hw Hh. unfold evaluate_formula, _resolve_variable_references.
  unfold volume_formula at 1. rewrite (sub_refs_volume _ name Hn), Hl, Hw, Hh.
  reflexivity.
Qed.

Lemma volume_statement_executed w name self :
  is_identifier name = true ->
  Dict.get (solutions w) name = Some self ->
  Dict.get (v2_solutions w) name
  = Some (V2Solution.mk name
            [("length", V2Variable.init "length" (VInt 0) name InSolution);
             ("width", V2Variable.init "width" (VInt 0) name InSolution);
             ("height", V2Variable.init "height" (VInt 0) name InSolution);
             ("volume", V2Variable.init "volume" (VInt 0) name InSolution)]
            [("L", "length"); ("len", "length"); ("W", "width");
             ("wid", "width"); ("H", "height"); ("hei", "height");
             ("vol", "volume")]) ->
  exists w',
    execute_v2_expression w name (HybridBoxSolution.volume_statement name)
    = Done w'
    /\ Dict.get (v2_solutions w') name = Some (box_v2 name).
Proof.
  intros Hn Hs Hv.
  unfold execute_v2_expression. rewrite Hs.
  unfold execute_registered. rewrite Hv.
  unfold execute_expression. rewrite (volume_formula_parsed name Hn).
  cbn [V2Solution.name]. rewrite String.eqb_refl. cbn [negb].
  match goal with
  | |- context [ensure_variable ?s "volume"] =>
      change (ensure_variable s "volume") with s
  end.
  cbn [V2Solution.variables Dict.get String.eqb Ascii.eqb Bool.eqb].
  unfold set_formula.
  rewrite (volume_evaluated name); [| exact Hn | | |];
    try (unfold replace_reference; rewrite get_set_same; reflexivity).
  rewrite get_set_same.
  destruct (get_variable_by_reference _ _ _); eexists;
    (split; [reflexivity|]); cbn [v2_solutions]; rewrite get_set_same;
    reflexivity.
Qed.

(** X18: a box built from numbers is built without an error, and
    its V2 solution never learns the numbers: its three dimensions
    hold the zero they were created with, and its volume is the
    formula of their product, evaluated to zero.  A formula of another
    solution that refers to the box reads these values. *)
Theorem box_of_numbers_holds_zeros
        (w : world) (name : string) (length width height : pyval) :
  is_identifier name = true ->
  is_number length = true -> is_number width = true -> is_number height = true ->
  exists w',
    HybridBoxSolution.init w name length width height = Done w'
    /\ Dict.get (v2_solutions w') name = Some (box_v2 name)
    /\ read (v2_solutions w') name "length" = Some (VInt 0)
    /\ read (v2_solutions w') name "width" = Some (VInt 0)
    /\ read (v2_solutions w') name "height" = Some (VInt 0)
    /\ read (v2_solutions w') name "volume" = Some (VFloat (S754_zero false)).
Proof.
  intros Hn Hl Hw Hh.
  unfold HybridBoxSolution.init, HybridBoxSolution._setup_variables.
  assert (Hs0 : Dict.get (solutions (new_solution w name)) name
                = Some (HybridSolution.mk name [] 1))
    by (unfold new_solution; cbn [solutions]; apply get_set_same).
  assert (Hv0 : Dict.get (v2_solutions (new_solution w name)) name
                = Some (V2Solution.init name))
    by (unfold new_solution; cbn [v2_solutions]; apply get_set_same).
  destruct (create_variable_forward _ name "length" (VInt 0) CONTROLLABLE
              ["L"; "len"] _ _ Hs0 Hv0) as (w1 & Hc1 & Hs1 & Hv1).
  rewrite Hc1. cbn [and_then]. simpl in Hs1, Hv1.
  destruct (create_variable_forward _ name "width" (VInt 0) CONTROLLABLE
              ["W"; "wid"] _ _ Hs1 Hv1) as (w2 & Hc2 & Hs2 & Hv2).
  rewrite Hc2. cbn [and_then]. simpl in Hs2, Hv2.
  destruct (create_variable_forward _ name "height" (VInt 0) CONTROLLABLE
              ["H"; "hei"] _ _ Hs2 Hv2) as (w3 & Hc3 & Hs3 & Hv3).
  rewrite Hc3. cbn [and_then]. simpl in Hs3, Hv3.
  destruct (set_number_forward w3 name length "length" _
              (HybridVariable.init "length" (VInt 0) CONTROLLABLE name 1
                 ["L"; "len"]) _ Hl Hs3 eq_refl Hv3) as (w4 & Hd4 & Hs4 & Hv4).
  rewrite Hd4. cbn [and_then]. simpl in Hs4.
  destruct (set_number_forward w4 name width "width" _
              (HybridVariable.init "width" (VInt 0) CONTROLLABLE name 2
                 ["W"; "wid"]) _ Hw Hs4 eq_refl Hv4) as (w5 & Hd5 & Hs5 & Hv5).
  rewrite Hd5. cbn [and_then]. simpl in Hs5.
  destruct (set_number_forward w5 name height "height" _
              (HybridVariable.init "height" (VInt 0) CONTROLLABLE name 3
                 ["H"; "hei"]) _ Hh Hs5 eq_refl Hv5) as (w6 & Hd6 & Hs6 & Hv6).
  rewrite Hd6. cbn [and_then]. simpl in Hs6.
  destruct (create_variable_forward _ name "volume" (VInt 0) CALCULATED
              ["vol"] _ _ Hs6 Hv6) as (w7 & Hc7 & Hs7 & Hv7).
  rewrite Hc7. cbn [and_then]. simpl in Hs7, Hv7.
  rewrite Hs7. cbn [HybridSolution.name].
  destruct (volume_statement_executed w7 name _ Hn Hs7 Hv7) as (w' & Hrun & Hv').
  exists w'. split; [exact Hrun|]. split; [exact Hv'|].
  unfold read. rewrite Hv'. repeat split; reflexivity.
Qed.

Lemma box_of_numbers_example :
  exists w',
    HybridBoxSolution.init empty_world "panel" (VInt 600) (VInt 400) (VInt 18)
    = Done w'
    /\ Dict.get (v2_solutions w') "panel" = Some (box_v2 "panel")
    /\ read (v2_solutions w') "panel" "length" = Some (VInt 0)
    /\ read (v2_solutions w') "panel" "width" = Some (VInt 0)
    /\ read (v2_solutions w') "panel" "height" = Some (VInt 0)
    /\ read (v2_solutions w') "panel" "volume" = Some (VFloat (S754_zero false)).
Proof.
  apply (box_of_numbers_holds_zeros empty_world "panel" (VInt 600) (VInt 400)
           (VInt 18)); reflexivity.
Defined.

End NumberBoxes.

(** ** Aliases of hybrid variables *)

Module LaterAliases.

Import PyStr Statements V2 Hybrid DictFacts AddressForms Recompute Worlds.

(** The V2 variables of a solution and those of its hybrid variables
    are different objects. *)
Lemma no_shared_variable w n s v2 reference v2_var :
  coherent w ->
  Dict.get (solutions w) n = Some s ->
  Dict.get (v2_solutions w) n = Some v2 ->
  V2Solution.get_variable v2 reference = Some v2_var ->
  find (fun var => V2Variable.same_object (HybridVariable.v2_variable var) v2_var)
       (HybridSolution.get_all_variables s) = None.
Proof.
  intros (_ & _ & Hhybrid & Hsound) Hs Hv2 Hget.
  destruct (Hsound _ _ Hv2) as (_ & Hvars & _).
  assert (Hlives : V2Variable.lives v2_var = InSolution).
  { rewrite get_variable_key in Hget.
    destruct (variable_key v2 reference) as [k|]; [|discriminate].
    now destruct (Hvars _ _ Hget) as (_ & _ & ?). }
  destruct (Hhybrid _ _ Hs) as (_ & _ & Hentries).
  destruct (find _ _) as [var|] eqn:Hfind; [|reflexivity].
  apply find_some in Hfind. destruct Hfind as [Hin Hsame].
  apply In_values in Hin. destruct Hin as [k Hin].
  destruct (Hentries _ _ Hin) as (_ & _ & Hhome & _).
  unfold V2Variable.same_object in Hsame. rewrite Hhome, Hlives in Hsame.
  discriminate Hsame.
Qed.

(** X19: a reference that is no name of a variable and no legacy
    number is looked up in the alias lists the hybrid variables were
    created with, and nowhere else: the search through the V2 solution
    finds nothing, so an alias the V2 solution learnt later is not
    found. *)
Theorem aliases_are_those_of_creation
        (w : world) (n : string) (s : HybridSolution.t) (v2 : V2Solution.t)
        (reference : string) :
  coherent w ->
  Dict.get (solutions w) n = Some s ->
  Dict.get (v2_solutions w) n = Some v2 ->
  Dict.mem (HybridSolution.variables s) (strip reference) = false ->
  startswith "#" (strip reference) = false ->
  get_variable_by_reference s v2 reference
  = find (fun var => StrSet.mem (strip reference) (HybridVariable.aliases var))
         (HybridSolution.get_all_variables s).
Proof.
  intros Hw Hs Hv2 Hname Hnumber.
  unfold get_variable_by_reference. rewrite Hname.
  unfold by_other_reference. rewrite Hnumber, andb_false_r.
  destruct (V2Solution.get_variable v2 (strip reference)) as [v2_var|] eqn:Hget;
    [|reflexivity].
  now rewrite (no_shared_variable w n s v2 _ v2_var Hw Hs Hv2 Hget).
Qed.

Lemma panel_world_coherent : coherent panel_world.
Proof.
  apply (coherent_create (new_solution empty_world "panel") "panel" "length"
           (VInt 600) CONTROLLABLE ["L"; "len"] panel_world length_var);
    [reflexivity | apply coherent_new_solution, coherent_empty].
Defined.

Lemma aliases_are_those_of_creation_example :
  get_variable_by_reference panel panel_v2 "len"
  = find (fun var => StrSet.mem (strip "len") (HybridVariable.aliases var))
         (HybridSolution.get_all_variables panel).
Proof.
  apply (aliases_are_those_of_creation panel_world "panel" panel panel_v2 "len");
    [exact panel_world_coherent | reflexivity | reflexivity | reflexivity
    | reflexivity].
Defined.

End LaterAliases.

(** ** Spaces *)

Module Spaces.

Import Hybrid Hybrid.Part3DSpace.

Lemma existsb_In x l : existsb (Nat.eqb x) l = true <-> In x l.
Proof.
  rewrite existsb_exists. split.
  - intros [y [Hin Heq]]. apply Nat.eqb_eq in Heq. now subst.
  - intros Hin. exists x. split; [exact Hin | apply Nat.eqb_refl].
Qed.

Lemma In_remove_first x y l : In y (remove_first x l) -> In y l.
Proof.
  induction l as [|z l IH]; cbn [remove_first]; [auto|].
  destruct (Nat.eqb x z); cbn [In]; [auto|]. intros [H | H]; auto.
Qed.

Lemma remove_first_NoDup x l :
  NoDup l -> NoDup (remove_first x l) /\ ~ In x (remove_first x l).
Proof.
  induction l as [|z l IH]; cbn [remove_first]; intros Hl; [split; auto|].
  inversion Hl as [|? ? Hz Hrest]; subst.
  destruct (Nat.eqb x z) eqn:E.
  - apply Nat.eqb_eq in E. subst. split; assumption.
  - apply Nat.eqb_neq in E. destruct (IH Hrest) as [H1 H2]. split.
    + constructor; [|exact H1]. intros Hin. apply Hz.
      eapply In_remove_first; eauto.
    + intros [H | H]; [congruence | contradiction].
Qed.

(** X20: a space that holds no solution twice holds none twice
    after [add_solution] and [remove_solution]; the solution added is
    in it, and the solution removed is no longer in it. *)
Theorem space_holds_a_solution_once (self : t) (solution : nat) :
  NoDup (solutions self) ->
  NoDup (solutions (add_solution self solution))
  /\ In solution (solutions (add_solution self solution))
  /\ NoDup (solutions (remove_solution self solution))
  /\ ~ In solution (solutions (remove_solution self solution)).
Proof.
  intros Hl. unfold add_solution, remove_solution.
  destruct (existsb (Nat.eqb solution) (solutions self)) eqn:E; cbn [negb solutions].
  - apply existsb_In in E. destruct (remove_first_NoDup solution _ Hl) as [H1 H2].
    repeat split; assumption.
  - assert (Hnot : ~ In solution (solutions self)).
    { intros Hin. apply existsb_In in Hin. congruence. }
    repeat split; try assumption.
    + apply NoDup_app; [exact Hl | repeat constructor; intros [] |].
      intros x Hx [<- | []]. contradiction.
    + apply in_or_app. right. now left.
Qed.

Lemma space_holds_a_solution_once_example :
  NoDup (solutions (add_solution (add_solution (init "room") 1) 2))
  /\ In 2 (solutions (add_solution (add_solution (init "room") 1) 2))
  /\ NoDup (solutions (remove_solution (add_solution (init "room") 1) 2))
  /\ ~ In 2 (solutions (remove_solution (add_solution (init "room") 1) 2)).
Proof.
  apply (space_holds_a_solution_once (add_solution (init "room") 1) 2).
  simpl. repeat constructor. intros [].
Defined.

End Spaces.

(** ** Aliases of the first system *)

Module FirstAliases.

Import Statements V1 V1.Solution DictFacts.

(** X21: in the first system an alias accepted by [set_alias] is
    read as its variable, whether or not a variable bears the name of
    the alias: aliases are looked up before names. *)
Theorem alias_is_read_first (self : t) (alias var_name : string) :
  snd (set_alias self alias var_name) = true ->
  exists variable,
    Dict.get (variables self) var_name = Some variable
    /\ get_variable_value (fst (set_alias self alias var_name)) alias
       = float_of_value (V1Variable.value variable).
Proof.
  unfold set_alias.
  destruct (negb (validate_name alias)); [discriminate|].
  unfold Dict.mem.
  destruct (Dict.get (variables self) var_name) as [variable|] eqn:Hv;
    [|discriminate].
  cbn [negb fst snd]. intros _. exists variable. split; [reflexivity|].
  unfold get_variable_value. cbn [aliases variables].
  now rewrite get_set_same, Hv.
Qed.

Lemma alias_is_read_first_example :
  exists variable,
    Dict.get (variables box_v1) "length" = Some variable
    /\ get_variable_value (fst (set_alias box_v1 "width" "length")) "width"
       = float_of_value (V1Variable.value variable).
Proof.
  apply (alias_is_read_first box_v1 "width" "length"). reflexivity.
Defined.

End FirstAliases.

(** ** The references of a formula *)

Module References.

Import PyStr Regex Statements StrFacts RegexFacts SetFacts V2.

Lemma ref_at_names s v n :
  ref_at s = Some (v, n) -> is_identifier v = true /\ is_identifier n = true.
Proof.
  unfold ref_at.
  destruct (ident s) as [[v0 s1]|] eqn:E1; [|discriminate].
  destruct (lit "." s1) as [s2|]; [|discriminate].
  destruct (ident s2) as [[n0 s3]|] eqn:E2; [|discriminate].
  intros [= <- <-].
  split; [apply (ident_inv _ _ _ E1) | apply (ident_inv _ _ _ E2)].
Qed.

Lemma findall_refs_names s :
  forall skip m,
    In m (findall_refs skip s) ->
    is_identifier (fst m) = true /\ is_identifier (snd m) = true.
Proof.
  induction s as [|c r IH]; intros skip m; cbn [findall_refs]; [intros []|].
  destruct skip as [|k]; [|apply IH].
  destruct (ref_at (String c r)) as [[v n]|] eqn:E; [|apply IH].
  intros [<- | Hin]; [exact (ref_at_names _ _ _ E) | eapply IH; eauto].
Qed.

Lemma add_NoDup x s : NoDup s -> NoDup (StrSet.add x s).
Proof.
  intros H. unfold StrSet.add. destruct (StrSet.mem x s) eqn:E; [exact H|].
  apply mem_not_In in E.
  apply NoDup_app; [exact H | repeat constructor; intros [] |].
  intros y Hy [<- | []]. contradiction.
Qed.

Lemma fold_add (f : string * string -> string) l :
  forall acc,
    NoDup acc ->
    NoDup (fold_left (fun references m => StrSet.add (f m) references) l acc)
    /\ forall d,
         In d (fold_left (fun references m => StrSet.add (f m) references) l acc)
         <-> In d acc \/ exists m, In m l /\ d = f m.
Proof.
  induction l as [|m l IH]; intros acc Hacc; cbn [fold_left].
  - split; [exact Hacc|]. intros d. split; [auto | intros [H | [m [[] _]]]; exact H].
  - destruct (IH (StrSet.add (f m) acc) (add_NoDup _ _ Hacc)) as [H1 H2].
    split; [exact H1|]. intros d. rewrite H2, In_add. split.
    + intros [[-> | H] | [m' [Hin Hd]]]; eauto.
      * right. exists m. split; [now left | reflexivity].
      * right. exists m'. split; [now right | exact Hd].
    + intros [H | [m' [[<- | Hin] Hd]]]; eauto.
Qed.

(** X22: the dependencies of a formula are its references, each
    once: a text is a dependency exactly when it is [v.s] for a match
    [(v, s)] of the pattern in the formula, and then [v] and [s] are
    names. *)
Theorem dependencies_are_the_references (formula : string) :
  NoDup (extract_variable_references formula)
  /\ forall d,
       In d (extract_variable_references formula)
       <-> exists v s,
             In (v, s) (findall_refs 0 formula) /\ d = v ++ "." ++ s
             /\ is_identifier v = true /\ is_identifier s = true.
Proof.
  unfold extract_variable_references.
  destruct (fold_add (fun m => fst m ++ "." ++ snd m)
              (findall_refs 0 formula) [] (NoDup_nil _)) as [H1 H2].
  split; [exact H1|]. intros d. rewrite H2. split.
  - intros [[] | [[v s] [Hin ->]]]. exists v, s.
    destruct (findall_refs_names _ _ _ Hin) as [Hv Hs].
    repeat split; assumption.
  - intros (v & s & Hin & -> & _). right. exists (v, s). auto.
Qed.

End References.

(** ** What a statement leaves alone *)

Module Frame.

Import PyStr Statements V2 DictFacts.

Lemma ensure_variable_others self var_name k :
  k <> var_name ->
  Dict.get (V2Solution.variables (ensure_variable self var_name)) k
  = Dict.get (V2Solution.variables self) k.
Proof.
  intros Hk. unfold ensure_variable.
  destruct (negb (Dict.mem (V2Solution.variables self) var_name)); [|reflexivity].
  cbn [fst V2Solution.create_variable V2Solution.variables].
  now apply get_set_other.
Qed.

Lemma set_alias_keeps_variables self alias name :
  V2Solution.variables (fst (V2Solution.set_alias self alias name))
  = V2Solution.variables self.
Proof.
  unfold V2Solution.set_alias.
  destruct (negb (_is_valid_alias alias)); [reflexivity|].
  now destruct (negb (Dict.mem (V2Solution.variables self) name)).
Qed.

(** What a statement leaves of the variables of its solution,
    whether it returns or raises. *)
Lemma execute_expression_frame self expression registry_with :
  exists key,
    match execute_expression self expression registry_with with
    | Done self' | Failed self' _ =>
        forall k, k <> key ->
                  Dict.get (V2Solution.variables self') k
                  = Dict.get (V2Solution.variables self) k
    | Unknown => True
    end.
Proof.
  unfold execute_expression.
  destruct (parse_expression expression) as [[var_name solution value
                                             |var_name solution formula deps
                                             |t sv ss
                                             |alias value]|msg|];
    [| | | | exists ""; auto | exists ""; exact I].
  - exists var_name.
    destruct (negb (String.eqb solution (V2Solution.name self))); [auto|].
    destruct (Dict.get _ var_name) as [v|]; [|exact I].
    intros k Hk. unfold V2Solution.store. cbn [V2Solution.variables].
    rewrite get_set_other by exact Hk. now apply ensure_variable_others.
  - exists var_name.
    destruct (negb (String.eqb solution (V2Solution.name self))); [auto|].
    destruct (Dict.get _ var_name) as [v|]; [|exact I].
    destruct (set_formula v formula _) as [v'| |]; [| |exact I].
    + intros k Hk. unfold V2Solution.store. cbn [V2Solution.variables].
      rewrite get_set_other by exact Hk. now apply ensure_variable_others.
    + intros k Hk. now apply ensure_variable_others.
  - exists "". auto.
  - destruct (negb (Dict.mem (V2Solution.variables self) alias)
              && negb (Dict.mem (V2Solution.aliases self) alias)).
    + exists ("_alias_" ++ alias).
      cbn [V2Solution.create_variable V2Variable.name V2Variable.init
           V2Variable.set_value].
      match goal with
      | |- context [V2Solution.set_alias ?s ?a ?n] =>
          pose proof (set_alias_keeps_variables s a n) as Hkeep;
          destruct (V2Solution.set_alias s a n) as [self2 [msg|]]
      end; cbn [fst] in Hkeep; intros k Hk; rewrite Hkeep;
        unfold V2Solution.store; cbn [V2Solution.variables];
        now rewrite !get_set_other by exact Hk.
    + destruct (variable_key self alias) as [key|]; [|exists ""; auto].
      exists key.
      destruct (Dict.get (V2Solution.variables self) key) as [var|]; [|auto].
      intros k Hk. unfold V2Solution.store. cbn [V2Solution.variables].
      now apply get_set_other.
Qed.

(** X23: a statement changes at most one variable, and only in the
    solution that executes it: every other solution of the registry is
    left as it was, and so is every variable of the solution but one,
    whether the statement returns or raises. *)
Theorem statement_changes_one_variable
        (reg : registry) (me expression : string) :
  match execute_registered reg me expression with
  | Done reg' | Failed reg' _ =>
      (forall n, n <> me -> Dict.get reg' n = Dict.get reg n)
      /\ exists self self' key,
           Dict.get reg me = Some self /\ Dict.get reg' me = Some self'
           /\ forall k, k <> key ->
                        Dict.get (V2Solution.variables self') k
                        = Dict.get (V2Solution.variables self) k
  | Unknown => True
  end.
Proof.
  unfold execute_registered.
  destruct (Dict.get reg me) as [self|] eqn:Hself; [|exact I].
  destruct (execute_expression_frame self expression
              (fun s => Dict.set reg me s)) as [key Hframe].
  destruct (execute_expression self expression _) as [self'|self' msg|];
    [| |exact I];
    (split; [intros n Hn; now apply get_set_other|]);
    exists self, self', key; rewrite get_set_same; auto.
Qed.

End Frame.

(** ** Alias statements *)

Module AliasStatements.

Import PyStr PyInt Regex Statements StrFacts RegexFacts Classifier V2 DictFacts
       AddressForms Recompute.






End AliasStatements.
